(** * ConnectPlus backend: order assignment, workflow status updates and the
      rate-limited chat pipeline

    A shallow embedding of the request handlers of [backend_service/src]
    ([api/routers/chat.py], [api/routers/orders.py], [api/routers/tickets.py],
    [core/rate_limit.py], [core/auth.py], [core/utils.py]) together with the
    properties of the specification that concern them.

    Conventions of the embedding:
    - a handler is a function in a state-and-exception monad: a raised
      exception keeps every mutation performed before it, as in Python;
    - the document store is a record of collections, a collection is the list
      of its documents in insertion order, a document is a record with the
      fields the handlers read and write;
    - the clock readings ([time.time()], [now_utc()]) and the answer of the
      external AI service are inputs of the handler that uses them. *)

From Stdlib Require Import ZArith NArith QArith Lia Lqa String Ascii List.
From Stdlib Require Import DecimalString.
From stdpp Require Import base list gmap strings sorting.
Import ListNotations.

#[local] Open Scope string_scope.
#[local] Open Scope list_scope.
#[local] Open Scope Z_scope.

(* ===================================================================== *)
(** ** Exceptions and the handler monad *)
(* ===================================================================== *)

(** What a handler can raise.  [HTTPException] is FastAPI's, the only
    exception the handlers raise themselves; the other constructors are the
    exceptions of the libraries they call, which no handler catches. *)
Inductive exn : Type :=
| HTTPException (status_code : Z) (detail : string)
| TransportError                 (* httpx: connection failure or timeout *)
| JSONDecodeError                (* [resp.json()] on a body that is not JSON *)
| ValidationError                (* pydantic, on building a response model *)
| TypeError.                     (* subscripting [None] *)

Definition status_of (e : exn) : option Z :=
  match e with
  | HTTPException c _ => Some c
  | _ => None
  end.

(** The error taxonomy of the specification, by HTTP status code. *)
Definition InvalidInput (e : exn) : Prop := status_of e = Some 400.
Definition Forbidden (e : exn) : Prop := status_of e = Some 403.
Definition NotFound (e : exn) : Prop := status_of e = Some 404.
Definition RateLimited (e : exn) : Prop := status_of e = Some 429.
Definition UpstreamError (e : exn) : Prop := status_of e = Some 502.

Inductive result (A : Type) : Type :=
| Ok (a : A)
| Raise (e : exn).
Arguments Ok {A} a.
Arguments Raise {A} e.

Definition is_ok {A} (r : result A) : bool :=
  match r with Ok _ => true | Raise _ => false end.

(** State-and-exception monad over a state [S]. *)
Definition M (S A : Type) : Type := S -> result A * S.

Definition ret {S A} (a : A) : M S A := fun s => (Ok a, s).
Definition raise {S A} (e : exn) : M S A := fun s => (Raise e, s).
Definition bind {S A B} (m : M S A) (k : A -> M S B) : M S B :=
  fun s => match m s with
           | (Ok a, s') => k a s'
           | (Raise e, s') => (Raise e, s')
           end.
Definition gets {S A} (f : S -> A) : M S A := fun s => (Ok (f s), s).
Definition modify {S} (f : S -> S) : M S unit := fun s => (Ok tt, f s).

(** Run a computation on a component of the state. *)
Definition zoom {S T A} (get : S -> T) (set : T -> S -> S) (m : M T A) : M S A :=
  fun s => let (r, t') := m (get s) in (r, set t' s).

(** A pure computation that may raise. *)
Definition lift {S A} (r : result A) : M S A := fun s => (r, s).

Declare Scope monad_scope.
Delimit Scope monad_scope with monad.
Notation "'do' x <- m ;; k" := (bind m (fun x => k))
  (at level 10, x name, m at level 99, k at level 200) : monad_scope.
Notation "'run' m ;; k" := (bind m (fun _ => k))
  (at level 10, m at level 99, k at level 200) : monad_scope.
#[local] Open Scope monad_scope.

(* ===================================================================== *)
(** ** core/utils.py *)
(* ===================================================================== *)

Module Utils.

(** A reading of [now_utc()], in milliseconds since the epoch: the precision
    the store keeps of a [datetime]. *)
Definition datetime : Type := Z.

(** A BSON [ObjectId], by its bytes read as a big-endian number.  The ids
    the store gives have twelve bytes: they are the numbers below [2 ^ 96].
    [ObjectId(value)] on a string with white space gives an id of fewer
    bytes, which is none of the store's; an id of [n < 12] bytes of value [v]
    is the number [(12 - n) * 2 ^ 96 + v]. *)
Definition ObjectId : Type := N.

Definition id_of_bytes (n : nat) (v : N) : ObjectId :=
  (N.of_nat (12 - n) * 2 ^ 96 + v)%N.

(** [a < b] on [ObjectId]s is the order of their bytes, for [a] an id of the
    store: the order of the numbers when [b] has twelve bytes; when [b] has
    fewer, [a] is below [b] when the first bytes of [a], as many as [b] has,
    are below [b], and above it when they are [b]. *)
Definition id_ltb (a b : ObjectId) : bool :=
  if (b <? 2 ^ 96)%N then (a <? b)%N
  else (a / 2 ^ (8 * (b / 2 ^ 96)) <? b mod 2 ^ 96)%N.

Definition hex_char (d : N) : ascii :=
  if (d <? 10)%N then ascii_of_N (48 + d) else ascii_of_N (87 + d).

Fixpoint hex_of (digits : nat) (n : N) : string :=
  match digits with
  | O => ""
  | S k => (hex_of k (n / 16) ++ String (hex_char (n mod 16)) "")%string
  end.

(** [str(ObjectId)]: twenty-four lowercase hexadecimal digits. *)
Definition str_oid (i : ObjectId) : string := hex_of 24 i.

Definition hex_val (c : ascii) : option N :=
  let n := N_of_ascii c in
  if ((48 <=? n) && (n <=? 57))%N then Some (n - 48)%N
  else if ((97 <=? n) && (n <=? 102))%N then Some (n - 87)%N
  else if ((65 <=? n) && (n <=? 70))%N then Some (n - 55)%N
  else None.

(** A string of hexadecimal digits read as a number. *)
Fixpoint parse_hex (acc : N) (s : string) : option N :=
  match s with
  | EmptyString => Some acc
  | String c s' =>
      match hex_val c with
      | Some d => parse_hex (acc * 16 + d) s'
      | None => None
      end
  end.

(** The white space that [bytes.fromhex] skips: tab, line feed, vertical
    tab, form feed, carriage return and space. *)
Definition is_space (c : ascii) : bool :=
  let n := N_of_ascii c in
  ((9 <=? n) && (n <=? 13) || (n =? 32))%N.

(** [bytes.fromhex(s)]: pairs of hexadecimal digits, with white space
    skipped before a pair and not inside one.  [top] is the first digit of a
    pair that waits for its second, [len] the number of bytes read so far and
    [acc] their value; the result is the number of bytes and their value. *)
Fixpoint fromhex (top : option N) (len : nat) (acc : N) (s : string)
  : option (nat * N) :=
  match s with
  | EmptyString =>
      match top with
      | None => Some (len, acc)
      | Some _ => None
      end
  | String c s' =>
      match top with
      | None =>
          if is_space c then fromhex None len acc s'
          else match hex_val c with
               | Some t => fromhex (Some t) len acc s'
               | None => None
               end
      | Some t =>
          match hex_val c with
          | Some b => fromhex None (S len) (acc * 256 + t * 16 + b) s'
          | None => None
          end
      end
  end.

(** [oid(value)]: [ObjectId(value)], which takes a string of 24 characters
    that [bytes.fromhex] can read, and HTTP 400 for whatever it raises. *)
Definition oid (value : string) : result ObjectId :=
  if Nat.eqb (String.length value) 24 then
    match fromhex None 0 0 value with
    | Some (n, v) => Ok (id_of_bytes n v)
    | None => Raise (HTTPException 400 "Invalid id format")
    end
  else Raise (HTTPException 400 "Invalid id format").

End Utils.
Import Utils.

(* ===================================================================== *)
(** ** core/auth.py *)
(* ===================================================================== *)

Module Auth.

Record AuthUser : Type := { user_id : string; roles : list string }.

(** [r in l] on a list of strings. *)
Definition str_in (r : string) (l : list string) : bool :=
  existsb (String.eqb r) l.

(** [any(r in user.roles for r in required)]. *)
Definition any_role (required : list string) (user : AuthUser) : bool :=
  existsb (fun r => str_in r (roles user)) required.

Definition require_roles {S} (required : list string) (user : AuthUser)
  : M S AuthUser :=
  if any_role required user then ret user
  else raise (HTTPException 403 "Not authorized").

Definition staff_roles : list string := ["admin"; "agent"; "engineer"].

End Auth.
Import Auth.

(* ===================================================================== *)
(** ** The document store (pymongo) *)
(* ===================================================================== *)

Module Mongo.

Section Collection.
Context {A : Type}.

(** Stable insertion sort, ascending on an integer key: the order of
    [find(...).sort(field, 1)].  Documents with equal keys keep their
    insertion order; the store promises no order among them, the embedding
    fixes this one. *)
Fixpoint insert_by (key : A -> Z) (x : A) (l : list A) : list A :=
  match l with
  | [] => [x]
  | y :: l' =>
      if key x <=? key y then x :: y :: l' else y :: insert_by key x l'
  end.

Fixpoint sort_asc (key : A -> Z) (l : list A) : list A :=
  match l with
  | [] => []
  | x :: l' => insert_by key x (sort_asc key l')
  end.

(** [.sort(field, -1)]. *)
Definition sort_desc (key : A -> Z) (l : list A) : list A :=
  sort_asc (fun x => - key x) l.

(** [cursor.limit(n)]: [0] means no limit, a negative [n] its absolute
    value. *)
Definition limit_docs (n : Z) (l : list A) : list A :=
  if n =? 0 then l else firstn (Z.abs_nat n) l.

(** [find_one(filter)]: the first matching document. *)
Definition find_one (p : A -> bool) (l : list A) : option A :=
  List.find p l.

(** [find_one(filter, sort=[(field, 1)])]. *)
Definition find_one_asc (p : A -> bool) (key : A -> Z) (l : list A)
  : option A :=
  head (sort_asc key (List.filter p l)).

(** [find_one(filter, sort=[(field, -1)])]. *)
Definition find_one_desc (p : A -> bool) (key : A -> Z) (l : list A)
  : option A :=
  head (sort_desc key (List.filter p l)).

(** [update_one(filter, update)]: the first matching document is updated;
    nothing happens when none matches. *)
Fixpoint update_one (p : A -> bool) (f : A -> A) (l : list A) : list A :=
  match l with
  | [] => []
  | x :: l' => if p x then f x :: l' else x :: update_one p f l'
  end.

(** [find_one_and_update(filter, update, return_document=AFTER)]. *)
Definition find_one_and_update (p : A -> bool) (f : A -> A) (l : list A)
  : option A * list A :=
  (option_map f (find_one p l), update_one p f l).
End Collection.

End Mongo.
Import Mongo.

(* ===================================================================== *)
(** ** core/rate_limit.py *)
(* ===================================================================== *)

Module RateLimit.

Record RateLimitConfig : Type := { limit : Z; window_seconds : Z }.

(** A reading of [time.time()], in seconds.  Every finite float is a rational;
    the subtraction [now - q[0]] is taken exactly. *)
Definition timestamp : Type := Q.

(** [self._events] is a [defaultdict(deque)]: a key that was never looked up
    is absent, and looking it up yields the empty queue. *)
Record InMemoryRateLimiter : Type := {
  _config : RateLimitConfig;
  _events : gmap string (list timestamp)
}.

(** [InMemoryRateLimiter(config)]. *)
Definition new (config : RateLimitConfig) : InMemoryRateLimiter :=
  {| _config := config; _events := ∅ |}.

(** [self._events[key]]. *)
Definition events_of (self : InMemoryRateLimiter) (key : string)
  : list timestamp :=
  default [] (_events self !! key).

(** [(now - t) > window_seconds]. *)
Definition expired (window : Z) (now t : timestamp) : bool :=
  negb (Qle_bool (now - t) (inject_Z window)).

(** [while q and (now - q[0]) > window: q.popleft()]. *)
Fixpoint evict (window : Z) (now : timestamp) (q : list timestamp)
  : list timestamp :=
  match q with
  | [] => []
  | t :: q' => if expired window now t then evict window now q' else q
  end.

Definition set_events (ev : gmap string (list timestamp))
  (self : InMemoryRateLimiter) : InMemoryRateLimiter :=
  {| _config := _config self; _events := ev |}.

(** [check(self, key)], with [now] the reading of [time.time()].  The queue of
    [key] is mutated in place: the eviction is kept when the call raises. *)
Definition check (key : string) (now : timestamp) : M InMemoryRateLimiter unit :=
  fun self =>
    let q := evict (window_seconds (_config self)) now (events_of self key) in
    if limit (_config self) <=? Z.of_nat (length q) then
      (Raise (HTTPException 429 "Rate limit exceeded. Try again later."),
       set_events (<[key := q]> (_events self)) self)
    else
      (Ok tt, set_events (<[key := q ++ [now]]> (_events self)) self).

(** A sequence of calls [check(key)] at the given clock readings. *)
Definition run_checks (calls : list (string * timestamp))
  (self : InMemoryRateLimiter) : InMemoryRateLimiter :=
  fold_left (fun s c => snd (check (fst c) (snd c) s)) calls self.

End RateLimit.
Import RateLimit.

(* ===================================================================== *)
(** ** JSON values and the Python builtins applied to them *)
(* ===================================================================== *)

Module Json.

#[local] Set Warnings "-register-all".

(** A value as [json.loads] returns it; an object keeps its fields in order,
    each key once. *)
Inductive json : Type :=
| JNull
| JBool (b : bool)
| JInt (z : Z)
| JFloat (q : Q)
| JStr (s : string)
| JArr (items : list json)
| JObj (fields : list (string * json)).

Definition dict : Type := list (string * json).

(** [d.get(key)] and [key in d]. *)
Fixpoint dict_get (key : string) (d : dict) : option json :=
  match d with
  | [] => None
  | (k, v) :: d' => if String.eqb key k then Some v else dict_get key d'
  end.

Definition dict_has (key : string) (d : dict) : bool :=
  match dict_get key d with Some _ => true | None => false end.

(** Truth value of a Python object. *)
Definition truthy (v : json) : bool :=
  match v with
  | JNull => false
  | JBool b => b
  | JInt z => negb (z =? 0)
  | JFloat q => negb (Qeq_bool q 0)
  | JStr s => negb (String.eqb s "")
  | JArr items => match items with [] => false | _ => true end
  | JObj fields => match fields with [] => false | _ => true end
  end.

Definition decimal (z : Z) : string :=
  DecimalString.NilZero.string_of_int (Z.to_int z).

(** [str(v)].  On a float, a list or a dict it is Python's [repr], which is
    not part of this repository: [py_repr] stands for it. *)
Definition py_str (py_repr : json -> string) (v : json) : string :=
  match v with
  | JNull => "None"
  | JBool true => "True"
  | JBool false => "False"
  | JInt z => decimal z
  | JStr s => s
  | _ => py_repr v
  end.

Definition is_str (v : json) : bool :=
  match v with JStr _ => true | _ => false end.

End Json.
Import Json.

(* ===================================================================== *)
(** ** Documents and collections *)
(* ===================================================================== *)

Module Store.

Record plan : Type := {
  plan_id : ObjectId;
  plan_name : string;
  plan_price : Z;
  plan_status : string
}.

Record engineer : Type := {
  eng_id : ObjectId;
  eng_name : string;
  eng_skills : list string;
  eng_areas : list string;
  eng_workload : Z;
  eng_status : string;
  eng_updated_at : datetime
}.

(** A timeline event [{"status", "ts", "by"}]. *)
Record event : Type := { ev_status : string; ev_ts : datetime; ev_by : string }.

Record order : Type := {
  order_id : ObjectId;
  order_user_id : string;
  order_plan_id : string;
  order_address : dict;
  order_pincode : string;
  order_price : Z;
  order_status : string;
  order_slot : string;
  order_assigned_engineer_id : option string;
  order_timeline : list event;
  order_created_at : datetime;
  order_updated_at : datetime
}.

(** A note [{"ts", "by", "type", "message"}]. *)
Record note : Type := {
  note_ts : datetime; note_by : string; note_type : string; note_message : string
}.

Record ticket : Type := {
  ticket_id : ObjectId;
  ticket_user_id : string;
  ticket_issue_type : string;
  ticket_severity : string;
  ticket_status : string;
  ticket_assigned_to : option string;
  ticket_notes : list note;
  ticket_attachments : list dict;
  ticket_created_at : datetime;
  ticket_updated_at : datetime
}.

Record conversation : Type := {
  conv_id : ObjectId;
  conv_user_id : string;
  conv_started_at : datetime;
  conv_last_message_at : datetime;
  conv_meta : dict
}.

Record message : Type := {
  msg_id : ObjectId;
  msg_conversation_id : string;
  msg_sender : string;
  msg_text : option string;
  msg_payload : option dict;
  msg_created_at : datetime
}.

(** The database.  [next_oid] is the id the next [insert_one] gives: the
    driver's [ObjectId()] generator, taken as a counter. *)
Record database : Type := {
  plans : list plan;
  engineers : list engineer;
  orders : list order;
  tickets : list ticket;
  conversations : list conversation;
  messages : list message;
  next_oid : ObjectId
}.

Definition set_engineers (f : list engineer -> list engineer) (db : database)
  : database :=
  {| plans := plans db; engineers := f (engineers db); orders := orders db;
     tickets := tickets db; conversations := conversations db;
     messages := messages db; next_oid := next_oid db |}.

Definition set_orders (f : list order -> list order) (db : database)
  : database :=
  {| plans := plans db; engineers := engineers db; orders := f (orders db);
     tickets := tickets db; conversations := conversations db;
     messages := messages db; next_oid := next_oid db |}.

Definition set_tickets (f : list ticket -> list ticket) (db : database)
  : database :=
  {| plans := plans db; engineers := engineers db; orders := orders db;
     tickets := f (tickets db); conversations := conversations db;
     messages := messages db; next_oid := next_oid db |}.

Definition set_conversations (f : list conversation -> list conversation)
  (db : database) : database :=
  {| plans := plans db; engineers := engineers db; orders := orders db;
     tickets := tickets db; conversations := f (conversations db);
     messages := messages db; next_oid := next_oid db |}.

Definition set_messages (f : list message -> list message) (db : database)
  : database :=
  {| plans := plans db; engineers := engineers db; orders := orders db;
     tickets := tickets db; conversations := conversations db;
     messages := f (messages db); next_oid := next_oid db |}.

(** The id generator moves on. *)
Definition fresh_oid : M database ObjectId :=
  fun db =>
    (Ok (next_oid db),
     {| plans := plans db; engineers := engineers db; orders := orders db;
        tickets := tickets db; conversations := conversations db;
        messages := messages db; next_oid := N.succ (next_oid db) |}).

(** [db.<collection>.insert_one(doc)]: the document gets a fresh [_id] and is
    appended; the result is [inserted_id]. *)
Definition insert_one {A} (set : (list A -> list A) -> database -> database)
  (doc : ObjectId -> A) : M database ObjectId :=
  do i <- fresh_oid ;;
  run modify (set (fun l => l ++ [doc i])) ;;
  ret i.

(** Ids are unique in a collection and were all given by the generator. *)
Definition ids_ok {A} (id : A -> ObjectId) (bound : ObjectId) (l : list A)
  : Prop :=
  NoDup (map id l) /\ Forall (fun x => (id x < bound)%N) l.

Definition wf_db (db : database) : Prop :=
  ids_ok plan_id (next_oid db) (plans db) /\
  ids_ok eng_id (next_oid db) (engineers db) /\
  ids_ok order_id (next_oid db) (orders db) /\
  ids_ok ticket_id (next_oid db) (tickets db) /\
  ids_ok conv_id (next_oid db) (conversations db) /\
  ids_ok msg_id (next_oid db) (messages db).

End Store.
Import Store.

(* ===================================================================== *)
(** ** api/routers/chat.py *)
(* ===================================================================== *)

Module Chat.

(** models/chat.py *)
Record ChatSendIn : Type := { message_in : string; context : option dict }.

Record ChatSendOut : Type := {
  reply : string;
  suggested_actions : list dict;
  conversation_id : string;
  message_id : string;
  reply_message_id : string
}.

Record ChatMessageOut : Type := {
  id : string;
  sender : string;
  text : option string;
  payload : option dict;
  created_at : datetime
}.

Record ChatHistoryOut : Type := {
  history_conversation_id : string;
  history_user_id : string;
  messages_out : list ChatMessageOut;
  next_cursor : option string
}.

(** The JSON body posted to the AI service. *)
Record ai_request : Type := {
  req_message : string; req_context : dict; req_user_id : string
}.

(** What [client.post] and [resp.json()] can give: httpx raises on a transport
    failure or timeout; otherwise there is a status code and a body, which
    parses as JSON or does not. *)
Inductive http_outcome : Type :=
| ConnectionFailed
| Response (status_code : Z) (body : option json).

(** The state a chat request runs in: the process-wide limiter, the database
    and the requests the AI service has received. *)
Record world : Type := {
  rate_limiter : InMemoryRateLimiter;
  db : database;
  ai_calls : list ai_request
}.

Definition set_rate_limiter (l : InMemoryRateLimiter) (w : world) : world :=
  {| rate_limiter := l; db := db w; ai_calls := ai_calls w |}.
Definition set_db (d : database) (w : world) : world :=
  {| rate_limiter := rate_limiter w; db := d; ai_calls := ai_calls w |}.
Definition log_ai_call (r : ai_request) (w : world) : world :=
  {| rate_limiter := rate_limiter w; db := db w;
     ai_calls := ai_calls w ++ [r] |}.

(** What one [chat_send] reads from outside: the clocks, in the order they are
    read, and the AI service. *)
Record send_env : Type := {
  env_time : timestamp;               (* time.time() in the limiter *)
  env_conv_ts : datetime;             (* now_utc() when a conversation is created *)
  env_user_ts : datetime;             (* now_utc() storing the user's message *)
  env_ai : ai_request -> http_outcome;
  env_ai_ts : datetime                (* now_utc() storing the AI's message *)
}.

(** [doc[field]] on the result of a [find_one]: [TypeError] on [None]. *)
Definition subscript {S A B} (doc : option A) (field : A -> B) : M S B :=
  match doc with
  | Some d => ret (field d)
  | None => raise TypeError
  end.

Definition _get_or_create_conversation (user_id : string) (ts : datetime)
  : M database (option conversation) :=
  do conv <- gets (fun d =>
               find_one_desc (fun c => String.eqb (conv_user_id c) user_id)
                 conv_last_message_at (conversations d)) ;;
  match conv with
  | Some c => ret (Some c)
  | None =>
      do inserted_id <- insert_one set_conversations (fun i =>
          {| conv_id := i; conv_user_id := user_id;
             conv_started_at := ts; conv_last_message_at := ts;
             conv_meta := [] |}) ;;
      gets (fun d =>
        find_one (fun c => N.eqb (conv_id c) inserted_id) (conversations d))
  end.

Definition set_last_message_at (ts : datetime) (c : conversation)
  : conversation :=
  {| conv_id := conv_id c; conv_user_id := conv_user_id c;
     conv_started_at := conv_started_at c; conv_last_message_at := ts;
     conv_meta := conv_meta c |}.

Definition _store_message (conversation_id : ObjectId) (sender : string)
  (text : option string) (payload : option dict) (ts : datetime)
  : M database (option message) :=
  do inserted_id <- insert_one set_messages (fun i =>
      {| msg_id := i; msg_conversation_id := str_oid conversation_id;
         msg_sender := sender; msg_text := text; msg_payload := payload;
         msg_created_at := ts |}) ;;
  run modify (set_conversations
            (update_one (fun c => N.eqb (conv_id c) conversation_id)
                        (set_last_message_at ts))) ;;
  gets (fun d => find_one (fun m => N.eqb (msg_id m) inserted_id) (messages d)).

(** [context or {}] and [x if context else None]. *)
Definition context_truthy (context : option dict) : bool :=
  match context with
  | Some (_ :: _) => true
  | _ => false
  end.

(** The body [{"message": message, "context": context or {}, "user_id": ...}]. *)
Definition ai_payload (user : AuthUser) (message : string)
  (context : option dict) : ai_request :=
  {| req_message := message;
     req_context := if context_truthy context then default [] context else [];
     req_user_id := user_id user |}.

(** The answer of [client.post], read as [_call_ai_engine] does: the checks
    on the status code and on the decoded body, in their order. *)
Definition read_response (resp : http_outcome) : result dict :=
  match resp with
  | ConnectionFailed => Raise TransportError
  | Response status_code body =>
      if 400 <=? status_code then
        Raise (HTTPException 502 "AI engine error")
      else
        match body with
        | None => Raise JSONDecodeError
        | Some (JObj data) =>
            if dict_has "reply" data then Ok data
            else Raise (HTTPException 502 "AI engine response invalid")
        | Some _ => Raise (HTTPException 502 "AI engine response invalid")
        end
  end.

Definition _call_ai_engine (env : send_env) (user : AuthUser)
  (message : string) (context : option dict) : M world dict :=
  let payload := ai_payload user message context in
  run modify (log_ai_call payload) ;;
  lift (read_response (env_ai env payload)).

(** [ChatSendOut(...)]: pydantic checks [suggested_actions] against
    [List[Dict[str, Any]]]; every item has to be an object. *)
Fixpoint as_dicts (items : list json) : option (list dict) :=
  match items with
  | [] => Some []
  | JObj d :: items' => option_map (cons d) (as_dicts items')
  | _ :: _ => None
  end.

Definition make_ChatSendOut {S} (reply : string) (suggested_actions : list json)
  (conversation_id message_id reply_message_id : string) : M S ChatSendOut :=
  match as_dicts suggested_actions with
  | Some acts =>
      ret {| reply := reply; suggested_actions := acts;
             conversation_id := conversation_id; message_id := message_id;
             reply_message_id := reply_message_id |}
  | None => raise ValidationError
  end.

(** [ai_data.get("suggested_actions") or []], emptied when it is not a
    list. *)
Definition suggested_actions_of (ai_data : dict) : list json :=
  let suggested_actions :=
    match dict_get "suggested_actions" ai_data with
    | Some v => if truthy v then v else JArr []
    | None => JArr []
    end in
  match suggested_actions with
  | JArr items => items
  | _ => []
  end.

Section Send.
(** Python's [repr], see [py_str]. *)
Variable py_repr : json -> string.

(** [str(ai_data.get("reply", ""))]. *)
Definition reply_text_of (ai_data : dict) : string :=
  py_str py_repr (default (JStr "") (dict_get "reply" ai_data)).

Definition chat_send (env : send_env) (body : ChatSendIn) (user : AuthUser)
  : M world ChatSendOut :=
  run zoom rate_limiter set_rate_limiter
        (check (user_id user) (env_time env)) ;;
  do conv <- zoom db set_db
            (_get_or_create_conversation (user_id user) (env_conv_ts env)) ;;
  do conv_id <- subscript conv conv_id ;;
  do user_msg <- zoom db set_db
            (_store_message conv_id "user" (Some (message_in body))
               (if context_truthy (context body)
                then Some [("context", JObj (default [] (context body)))]
                else None)
               (env_user_ts env)) ;;
  do ai_data <- _call_ai_engine env user (message_in body) (context body) ;;
  let reply_text := reply_text_of ai_data in
  let suggested_actions := suggested_actions_of ai_data in
  do ai_msg <- zoom db set_db
            (_store_message conv_id "ai" (Some reply_text)
               (match suggested_actions with
                | [] => None
                | _ => Some [("suggested_actions", JArr suggested_actions)]
                end)
               (env_ai_ts env)) ;;
  do user_msg_id <- subscript user_msg msg_id ;;
  do ai_msg_id <- subscript ai_msg msg_id ;;
  make_ChatSendOut reply_text suggested_actions (str_oid conv_id)
    (str_oid user_msg_id) (str_oid ai_msg_id).
End Send.

Definition message_out (d : message) : ChatMessageOut :=
  {| id := str_oid (msg_id d); sender := msg_sender d; text := msg_text d;
     payload := msg_payload d; created_at := msg_created_at d |}.

(** The query [{"conversation_id": str(conv["_id"])}], with
    [{"_id": {"$lt": before}}] when there is a bound. *)
Definition history_query (conv : conversation) (before : option ObjectId)
  (m : message) : bool :=
  String.eqb (msg_conversation_id m) (str_oid (conv_id conv)) &&
  match before with
  | Some c => id_ltb (msg_id m) c
  | None => true
  end.

(** The documents of a history page: [find(q).sort("_id", -1).limit(limit)],
    reversed. *)
Definition history_docs (conv : conversation) (before : option ObjectId)
  (limit : Z) (d : database) : list message :=
  rev (limit_docs limit
         (sort_desc (fun m => Z.of_N (msg_id m))
            (List.filter (history_query conv before) (messages d)))).

(** [if cursor: q["_id"] = {"$lt": oid(cursor)}]: the bound on [_id], if any.
    An empty string is no cursor. *)
Definition cursor_filter (cursor : option string) : result (option ObjectId) :=
  match cursor with
  | Some s =>
      if String.eqb s "" then Ok None
      else match oid s with
           | Ok c => Ok (Some c)
           | Raise e => Raise e
           end
  | None => Ok None
  end.

(** [chat_history]; it only reads the database.  [limit] has passed the
    [Query(ge=1, le=100)] validation. *)
Definition chat_history (user : AuthUser) (limit : Z) (cursor : option string)
  (d : database) : result ChatHistoryOut :=
  match find_one_desc (fun c => String.eqb (conv_user_id c) (user_id user))
          conv_last_message_at (conversations d) with
  | None =>
      Ok {| history_conversation_id := ""; history_user_id := user_id user;
            messages_out := []; next_cursor := None |}
  | Some conv =>
      match cursor_filter cursor with
      | Raise e => Raise e
      | Ok before =>
          let docs := history_docs conv before limit d in
          Ok {| history_conversation_id := str_oid (conv_id conv);
                history_user_id := user_id user;
                messages_out := map message_out docs;
                next_cursor :=
                  match docs with
                  | d0 :: _ =>
                      if Z.of_nat (length docs) =? limit
                      then Some (str_oid (msg_id d0)) else None
                  | [] => None
                  end |}
      end
  end.

End Chat.

(* ===================================================================== *)
(** ** api/routers/orders.py *)
(* ===================================================================== *)

Module Orders.

(** models/orders.py *)
Record OrderCreateIn : Type := {
  plan_id_in : string;
  address : dict;
  pincode : string;
  preferred_slot : string
}.

Record OrderStatusUpdateIn : Type := { status_in : string }.

Record OrderOut : Type := {
  id : string;
  user_id_out : string;
  plan_id_out : string;
  price : Z;
  status : string;
  slot : string;
  assigned_engineer_id : option string;
  timeline : list event;
  created_at : datetime;
  updated_at : datetime
}.

(** The response model built from [serialize_doc(doc)]; the address is not
    part of it. *)
Definition order_out (doc : order) : OrderOut :=
  {| id := str_oid (order_id doc); user_id_out := order_user_id doc;
     plan_id_out := order_plan_id doc; price := order_price doc;
     status := order_status doc; slot := order_slot doc;
     assigned_engineer_id := order_assigned_engineer_id doc;
     timeline := order_timeline doc; created_at := order_created_at doc;
     updated_at := order_updated_at doc |}.

(** [serialize_doc(None)] is [None], and unpacking [None] into a response
    model is a [TypeError]. *)
Definition serialize {S A B} (out : A -> B) (doc : option A) : M S B :=
  match doc with
  | Some d => ret (out d)
  | None => raise TypeError
  end.

(** The filter [{"status": "ACTIVE", "areas": pincode, "skills": "install"}]:
    on an array field, equality means membership. *)
Definition can_install (pincode : string) (e : engineer) : bool :=
  String.eqb (eng_status e) "ACTIVE" &&
  str_in pincode (eng_areas e) &&
  str_in "install" (eng_skills e).

Definition _pick_engineer_for_area (d : database) (pincode : string)
  : option engineer :=
  find_one_asc (can_install pincode) eng_workload (engineers d).

(** [{"$inc": {"workload": 1}, "$set": {"updated_at": ts}}]. *)
Definition assign_one (ts : datetime) (e : engineer) : engineer :=
  {| eng_id := eng_id e; eng_name := eng_name e; eng_skills := eng_skills e;
     eng_areas := eng_areas e; eng_workload := eng_workload e + 1;
     eng_status := eng_status e; eng_updated_at := ts |}.

(** [order_doc], with the [_id] that [insert_one] adds. *)
Definition order_doc (ts : datetime) (body : OrderCreateIn) (user : AuthUser)
  (plan : plan) (assigned_engineer_id : option ObjectId) (i : ObjectId)
  : order :=
  {| order_id := i;
     order_user_id := user_id user;
     order_plan_id := plan_id_in body;
     order_address := address body;
     order_pincode := pincode body;
     order_price := plan_price plan;
     order_status :=
       match assigned_engineer_id with
       | Some _ => "scheduled"
       | None => "scheduled"
       end;
     order_slot := preferred_slot body;
     order_assigned_engineer_id := option_map str_oid assigned_engineer_id;
     order_timeline :=
       [{| ev_status := "scheduled"; ev_ts := ts; ev_by := user_id user |}];
     order_created_at := ts;
     order_updated_at := ts |}.

(** [create_order], with [ts] the reading of [now_utc()]. *)
Definition create_order (ts : datetime) (body : OrderCreateIn) (user : AuthUser)
  : M database OrderOut :=
  do plan_oid <- lift (oid (plan_id_in body)) ;;
  do plan <- gets (fun d =>
      find_one (fun p => N.eqb (plan_id p) plan_oid &&
                         String.eqb (plan_status p) "ACTIVE") (plans d)) ;;
  match plan with
  | None => raise (HTTPException 400 "Invalid plan_id")
  | Some plan =>
      do engineer <- gets (fun d => _pick_engineer_for_area d (pincode body)) ;;
      let assigned_engineer_id := option_map eng_id engineer in
      do inserted_id <-
        insert_one set_orders (order_doc ts body user plan assigned_engineer_id) ;;
      run match assigned_engineer_id with
          | Some eid =>
              modify (set_engineers
                (update_one (fun e => N.eqb (eng_id e) eid) (assign_one ts)))
          | None => ret tt
          end ;;
      do doc <- gets (fun d =>
          find_one (fun o => N.eqb (order_id o) inserted_id) (orders d)) ;;
      serialize order_out doc
  end.

Definition allowed : list string :=
  ["scheduled"; "in_progress"; "completed"; "cancelled"].

(** [{"$set": {"status": s, "updated_at": ts},
      "$push": {"timeline": {"status": s, "ts": ts, "by": "staff"}}}]. *)
Definition set_status (s : string) (ts : datetime) (o : order) : order :=
  {| order_id := order_id o; order_user_id := order_user_id o;
     order_plan_id := order_plan_id o; order_address := order_address o;
     order_pincode := order_pincode o; order_price := order_price o;
     order_status := s; order_slot := order_slot o;
     order_assigned_engineer_id := order_assigned_engineer_id o;
     order_timeline :=
       order_timeline o ++ [{| ev_status := s; ev_ts := ts; ev_by := "staff" |}];
     order_created_at := order_created_at o;
     order_updated_at := ts |}.

(** [update_order_status]; the role check is the dependency
    [require_roles(["admin", "agent", "engineer"])]. *)
Definition update_order_status (ts : datetime) (order_id_in : string)
  (body : OrderStatusUpdateIn) (user : AuthUser) : M database OrderOut :=
  run require_roles ["admin"; "agent"; "engineer"] user ;;
  if negb (str_in (status_in body) allowed) then
    raise (HTTPException 400 "Invalid status")
  else
    do order_oid <- lift (oid order_id_in) ;;
    do doc <- (fun d =>
        let (doc, l) := find_one_and_update
                          (fun o => N.eqb (order_id o) order_oid)
                          (set_status (status_in body) ts) (orders d) in
        (Ok doc, set_orders (fun _ => l) d)) ;;
    match doc with
    | None => raise (HTTPException 404 "Order not found")
    | Some doc => ret (order_out doc)
    end.

End Orders.

(* ===================================================================== *)
(** ** api/routers/tickets.py *)
(* ===================================================================== *)

Module Tickets.

(** models/tickets.py *)
Record TicketStatusUpdateIn : Type := { status_in : string }.

Record TicketOut : Type := {
  id : string;
  user_id_out : string;
  issue_type : string;
  status : string;
  severity : string;
  assigned_to : option string;
  notes : list note;
  created_at : datetime;
  updated_at : datetime
}.

Definition ticket_out (doc : ticket) : TicketOut :=
  {| id := str_oid (ticket_id doc); user_id_out := ticket_user_id doc;
     issue_type := ticket_issue_type doc; status := ticket_status doc;
     severity := ticket_severity doc; assigned_to := ticket_assigned_to doc;
     notes := ticket_notes doc; created_at := ticket_created_at doc;
     updated_at := ticket_updated_at doc |}.

Definition allowed : list string :=
  ["open"; "assigned"; "in_progress"; "resolved"; "closed"].

(** [{"$set": {"status": s, "updated_at": ts},
      "$push": {"notes": {"ts": ts, "by": by, "type": "status", "message": s}}}]. *)
Definition set_status (s : string) (ts : datetime) (by_user : string)
  (t : ticket) : ticket :=
  {| ticket_id := ticket_id t; ticket_user_id := ticket_user_id t;
     ticket_issue_type := ticket_issue_type t;
     ticket_severity := ticket_severity t;
     ticket_status := s;
     ticket_assigned_to := ticket_assigned_to t;
     ticket_notes :=
       ticket_notes t ++
       [{| note_ts := ts; note_by := by_user; note_type := "status";
           note_message := s |}];
     ticket_attachments := ticket_attachments t;
     ticket_created_at := ticket_created_at t;
     ticket_updated_at := ts |}.

Definition update_ticket_status (ts : datetime) (ticket_id_in : string)
  (body : TicketStatusUpdateIn) (user : AuthUser) : M database TicketOut :=
  if negb (str_in (status_in body) allowed) then
    raise (HTTPException 400 "Invalid status")
  else
    do ticket_oid <- lift (oid ticket_id_in) ;;
    do doc <- gets (fun d =>
        find_one (fun t => N.eqb (ticket_id t) ticket_oid) (tickets d)) ;;
    match doc with
    | None => raise (HTTPException 404 "Ticket not found")
    | Some doc =>
        let is_owner := String.eqb (ticket_user_id doc) (user_id user) in
        let is_staff := any_role ["admin"; "agent"; "engineer"] user in
        if String.eqb (status_in body) "closed" && negb (is_owner || is_staff)
        then raise (HTTPException 403 "Not authorized to close")
        else if negb (String.eqb (status_in body) "closed") && negb is_staff
        then raise (HTTPException 403 "Only staff can update workflow status")
        else
          do updated <- (fun d =>
              let (updated, l) := find_one_and_update
                                    (fun t => N.eqb (ticket_id t) ticket_oid)
                                    (set_status (status_in body) ts (user_id user))
                                    (tickets d) in
              (Ok updated, set_tickets (fun _ => l) d)) ;;
          Orders.serialize ticket_out updated
    end.

End Tickets.

(* ===================================================================== *)
(** ** core/utils.py: [serialize_doc] *)
(* ===================================================================== *)

Module Serialize.

(** A value of a field of a document, as far as [serialize_doc] tells values
    apart: an [ObjectId] or anything else. *)
Inductive value : Type :=
| VObjectId (i : ObjectId)
| VDatetime (t : datetime)
| VOther (v : json).

(** A document as a Python [dict]: its items in insertion order, each key
    once. *)
Definition document : Type := list (string * value).

Fixpoint doc_get (key : string) (d : document) : option value :=
  match d with
  | [] => None
  | (k, v) :: d' => if String.eqb key k then Some v else doc_get key d'
  end.

(** [d.pop(key)] leaves [d] without [key]. *)
Definition doc_remove (key : string) (d : document) : document :=
  List.filter (fun kv => negb (String.eqb key (fst kv))) d.

(** [d[key] = v]: in place when the key is there, at the end otherwise. *)
Fixpoint doc_set (key : string) (v : value) (d : document) : document :=
  match d with
  | [] => [(key, v)]
  | (k, v') :: d' =>
      if String.eqb key k then (k, v) :: d' else (k, v') :: doc_set key v d'
  end.

Section Str.
(** Python's [str] on a value that is not an [ObjectId]. *)
Variable str_other : value -> string.

Definition str_value (v : value) : string :=
  match v with
  | VObjectId i => str_oid i
  | _ => str_other v
  end.

(** [out[k] = str(v)] for an [ObjectId] [v]. *)
Definition stringify (kv : string * value) : string * value :=
  match snd kv with
  | VObjectId i => (fst kv, VOther (JStr (str_oid i)))
  | _ => kv
  end.

Definition serialize_doc (doc : option document) : option document :=
  match doc with
  | None => None
  | Some doc =>
      let out :=
        match doc_get "_id" doc with
        | Some v =>
            doc_set "id" (VOther (JStr (str_value v))) (doc_remove "_id" doc)
        | None => doc
        end in
      Some (map stringify out)
  end.
End Str.

End Serialize.

(* ===================================================================== *)
(** ** core/auth.py: [get_current_user] *)
(* ===================================================================== *)

Module Identity.

Section Tokens.
(** [jwt.decode(token, settings.jwt_secret, algorithms=[...])]: the payload
    of a token that verifies, nothing when it raises [PyJWTError]. *)
Variable jwt_decode : string -> option dict.
(** Python's [repr], see [py_str]. *)
Variable py_repr : json -> string.

(** [get_current_user(creds)], with [creds] the bearer token of the request,
    if any. *)
Definition get_current_user (creds : option string) : result AuthUser :=
  match creds with
  | None => Raise (HTTPException 401 "Not authenticated")
  | Some token =>
      match jwt_decode token with
      | None => Raise (HTTPException 401 "Invalid token")
      | Some payload =>
          let user_id := default JNull (dict_get "sub" payload) in
          if negb (truthy user_id) then
            Raise (HTTPException 401 "Token missing subject")
          else
            let roles :=
              match dict_get "roles" payload with
              | Some v => if truthy v then v else JArr [JStr "user"]
              | None => JArr [JStr "user"]
              end in
            let roles :=
              match roles with
              | JArr items => items
              | _ => [JStr "user"]
              end in
            Ok {| user_id := py_str py_repr user_id;
                  roles := map (py_str py_repr) roles |}
      end
  end.
End Tokens.

End Identity.

(* ===================================================================== *)
(** ** api/routers/orders.py: reading orders *)
(* ===================================================================== *)

Module OrderQueries.
Import Orders.

(** [list_orders_for_user]; [limit] has passed the [Query(ge=1, le=100)]
    validation. *)
Definition list_orders_for_user (user : AuthUser) (limit : Z) (d : database)
  : list OrderOut :=
  map order_out
    (limit_docs limit
       (sort_desc order_created_at
          (List.filter (fun o => String.eqb (order_user_id o) (user_id user))
             (orders d)))).

(** [get_order_by_id]; it only reads the database. *)
Definition get_order_by_id (order_id_in : string) (user : AuthUser)
  (d : database) : result OrderOut :=
  match oid order_id_in with
  | Raise e => Raise e
  | Ok order_oid =>
      match find_one (fun o => N.eqb (order_id o) order_oid) (orders d) with
      | None => Raise (HTTPException 404 "Order not found")
      | Some doc =>
          let is_owner := String.eqb (order_user_id doc) (user_id user) in
          let is_privileged := any_role ["admin"; "agent"; "engineer"] user in
          if negb (is_owner || is_privileged) then
            Raise (HTTPException 403 "Not authorized")
          else Ok (order_out doc)
      end
  end.

End OrderQueries.

(* ===================================================================== *)
(** ** api/routers/tickets.py: the other ticket requests *)
(* ===================================================================== *)

Module TicketOps.
Import Tickets.

(** models/tickets.py *)
Record TicketCreateIn : Type := {
  category : string;
  description : string;
  attachments : option (list dict)
}.

Record TicketAssignIn : Type := { assigned_to_user_id : string }.

Record TicketCommentIn : Type := { message : string }.

(** The document of [create_ticket], with the [_id] that [insert_one] adds. *)
Definition ticket_doc (ts : datetime) (body : TicketCreateIn) (user : AuthUser)
  (i : ObjectId) : ticket :=
  {| ticket_id := i;
     ticket_user_id := user_id user;
     ticket_issue_type := category body;
     ticket_severity := "medium";
     ticket_status := "open";
     ticket_assigned_to := None;
     ticket_notes :=
       [{| note_ts := ts; note_by := user_id user; note_type := "created";
           note_message := description body |}];
     ticket_attachments :=
       match attachments body with
       | Some (a :: l) => a :: l
       | _ => []
       end;
     ticket_created_at := ts;
     ticket_updated_at := ts |}.

Definition create_ticket (ts : datetime) (body : TicketCreateIn)
  (user : AuthUser) : M database TicketOut :=
  do inserted_id <- insert_one set_tickets (ticket_doc ts body user) ;;
  do saved <- gets (fun d =>
      find_one (fun t => N.eqb (ticket_id t) inserted_id) (tickets d)) ;;
  Orders.serialize ticket_out saved.


(** [get_ticket_by_id]; it only reads the database. *)
Definition get_ticket_by_id (ticket_id_in : string) (user : AuthUser)
  (d : database) : result TicketOut :=
  match oid ticket_id_in with
  | Raise e => Raise e
  | Ok ticket_oid =>
      match find_one (fun t => N.eqb (ticket_id t) ticket_oid) (tickets d) with
      | None => Raise (HTTPException 404 "Ticket not found")
      | Some doc =>
          let is_owner := String.eqb (ticket_user_id doc) (user_id user) in
          let is_privileged := any_role ["admin"; "agent"; "engineer"] user in
          if negb (is_owner || is_privileged) then
            Raise (HTTPException 403 "Not authorized")
          else Ok (ticket_out doc)
      end
  end.

(** [{"$set": {"assigned_to": {"user_id": a}, "status": "assigned",
               "updated_at": ts},
      "$push": {"notes": {"ts": ts, "by": "staff", "type": "assign",
                          "message": a}}}]. *)
Definition set_assigned (a : string) (ts : datetime) (t : ticket) : ticket :=
  {| ticket_id := ticket_id t; ticket_user_id := ticket_user_id t;
     ticket_issue_type := ticket_issue_type t;
     ticket_severity := ticket_severity t;
     ticket_status := "assigned";
     ticket_assigned_to := Some a;
     ticket_notes :=
       ticket_notes t ++
       [{| note_ts := ts; note_by := "staff"; note_type := "assign";
           note_message := a |}];
     ticket_attachments := ticket_attachments t;
     ticket_created_at := ticket_created_at t;
     ticket_updated_at := ts |}.

(** [assign_ticket]; the role check is the dependency
    [require_roles(["admin", "agent", "engineer"])]. *)
Definition assign_ticket (ts : datetime) (ticket_id_in : string)
  (body : TicketAssignIn) (user : AuthUser) : M database TicketOut :=
  run require_roles ["admin"; "agent"; "engineer"] user ;;
  do ticket_oid <- lift (oid ticket_id_in) ;;
  do updated <- (fun d =>
      let (updated, l) := find_one_and_update
                            (fun t => N.eqb (ticket_id t) ticket_oid)
                            (set_assigned (assigned_to_user_id body) ts)
                            (tickets d) in
      (Ok updated, set_tickets (fun _ => l) d)) ;;
  match updated with
  | None => raise (HTTPException 404 "Ticket not found")
  | Some updated => ret (ticket_out updated)
  end.

(** [{"$set": {"updated_at": ts},
      "$push": {"notes": {"ts": ts, "by": by, "type": "comment",
                          "message": m}}}]. *)
Definition add_comment (m : string) (ts : datetime) (by_user : string)
  (t : ticket) : ticket :=
  {| ticket_id := ticket_id t; ticket_user_id := ticket_user_id t;
     ticket_issue_type := ticket_issue_type t;
     ticket_severity := ticket_severity t;
     ticket_status := ticket_status t;
     ticket_assigned_to := ticket_assigned_to t;
     ticket_notes :=
       ticket_notes t ++
       [{| note_ts := ts; note_by := by_user; note_type := "comment";
           note_message := m |}];
     ticket_attachments := ticket_attachments t;
     ticket_created_at := ticket_created_at t;
     ticket_updated_at := ts |}.

Definition add_ticket_comment (ts : datetime) (ticket_id_in : string)
  (body : TicketCommentIn) (user : AuthUser) : M database TicketOut :=
  do ticket_oid <- lift (oid ticket_id_in) ;;
  do doc <- gets (fun d =>
      find_one (fun t => N.eqb (ticket_id t) ticket_oid) (tickets d)) ;;
  match doc with
  | None => raise (HTTPException 404 "Ticket not found")
  | Some doc =>
      let is_owner := String.eqb (ticket_user_id doc) (user_id user) in
      let is_privileged := any_role ["admin"; "agent"; "engineer"] user in
      if negb (is_owner || is_privileged) then
        raise (HTTPException 403 "Not authorized")
      else
        do updated <- (fun d =>
            let (updated, l) := find_one_and_update
                                  (fun t => N.eqb (ticket_id t) ticket_oid)
                                  (add_comment (message body) ts (user_id user))
                                  (tickets d) in
            (Ok updated, set_tickets (fun _ => l) d)) ;;
        Orders.serialize ticket_out updated
  end.

End TicketOps.

(* ===================================================================== *)
(** ** api/routers/plans.py *)
(* ===================================================================== *)

Module Plans.

(** A document of [db.plans], as [core/seed.py] writes them: the fields that
    orders read, in [plan_core], and the rest of what [PlanOut] shows. *)
Record plan_document : Type := {
  plan_core : plan;
  plan_speed_mbps : Z;
  plan_data_cap_gb : option Z;
  plan_ott : list string;
  plan_areas : list string
}.

(** models/plans.py *)
Record PlanOut : Type := {
  id : string;
  name : string;
  speed_mbps : Z;
  price : Z;
  areas : list string;
  status : string;
  data_cap_gb : option Z;
  ott : list string
}.

(** [PlanOut] built from the serialized document. *)
Definition plan_out (doc : plan_document) : PlanOut :=
  {| id := str_oid (plan_id (plan_core doc));
     name := plan_name (plan_core doc);
     speed_mbps := plan_speed_mbps doc;
     price := plan_price (plan_core doc);
     areas := plan_areas doc;
     status := plan_status (plan_core doc);
     data_cap_gb := plan_data_cap_gb doc;
     ott := plan_ott doc |}.

(** [{"$gte": lo, "$lte": hi}], each bound only when it is given. *)
Definition in_range (lo hi : option Z) (x : Z) : bool :=
  match lo with Some a => a <=? x | None => true end &&
  match hi with Some b => x <=? b | None => true end.

(** The query [q] of [list_plans]; an empty [service_area] is no filter. *)
Definition plan_query (min_price max_price min_speed max_speed : option Z)
  (service_area : option string) (doc : plan_document) : bool :=
  String.eqb (plan_status (plan_core doc)) "ACTIVE" &&
  match service_area with
  | Some a => if String.eqb a "" then true else str_in a (plan_areas doc)
  | None => true
  end &&
  in_range min_price max_price (plan_price (plan_core doc)) &&
  in_range min_speed max_speed (plan_speed_mbps doc).

(** [list_plans]: [find(q).sort("price", 1).limit(200)]. *)
Definition list_plans (min_price max_price min_speed max_speed : option Z)
  (service_area : option string) (coll : list plan_document) : list PlanOut :=
  map plan_out
    (limit_docs 200
       (sort_asc (fun doc => plan_price (plan_core doc))
          (List.filter
             (plan_query min_price max_price min_speed max_speed service_area)
             coll))).

(** [get_plan_by_id]. *)
Definition get_plan_by_id (plan_id_in : string) (coll : list plan_document)
  : result PlanOut :=
  match oid plan_id_in with
  | Raise e => Raise e
  | Ok i =>
      match find_one (fun doc => N.eqb (plan_id (plan_core doc)) i) coll with
      | None => Raise (HTTPException 404 "Plan not found")
      | Some doc =>
          if negb (String.eqb (plan_status (plan_core doc)) "ACTIVE") then
            Raise (HTTPException 404 "Plan not found")
          else Ok (plan_out doc)
      end
  end.

End Plans.

(* ===================================================================== *)
(** ** Sequences of requests *)
(* ===================================================================== *)

Module Scenarios.
Import Chat.

(** One principal sending one message after the other; a request that raises
    leaves the state it reached. *)
Definition run_sends (py_repr : json -> string) (user : AuthUser)
  (reqs : list (send_env * ChatSendIn)) (w : world) : world :=
  fold_left (fun w r => snd (chat_send py_repr (fst r) (snd r) user w)) reqs w.

(** Requests on orders, by any principals, one after the other. *)
Inductive order_op : Type :=
| CreateOrder (ts : datetime) (body : Orders.OrderCreateIn) (user : AuthUser)
| UpdateOrderStatus (ts : datetime) (order_id_in : string)
    (body : Orders.OrderStatusUpdateIn) (user : AuthUser).

Definition run_order_op (op : order_op) : M database Orders.OrderOut :=
  match op with
  | CreateOrder ts body user => Orders.create_order ts body user
  | UpdateOrderStatus ts order_id_in body user =>
      Orders.update_order_status ts order_id_in body user
  end.

Definition run_order_ops (ops : list order_op) (d : database) : database :=
  fold_left (fun d op => snd (run_order_op op d)) ops d.

(** The request is a status update of the order with id [i]. *)
Definition targets (i : ObjectId) (op : order_op) : bool :=
  match op with
  | CreateOrder _ _ _ => false
  | UpdateOrderStatus _ order_id_in _ _ =>
      match oid order_id_in with
      | Ok j => N.eqb j i
      | Raise _ => false
      end
  end.

(** How many of the requests [ops], run from [d], are status updates of the
    order [i] that succeed. *)
Fixpoint successful_updates (i : ObjectId) (ops : list order_op) (d : database)
  : nat :=
  match ops with
  | [] => 0
  | op :: ops' =>
      let (r, d') := run_order_op op d in
      ((if targets i op && is_ok r then 1 else 0)
       + successful_updates i ops' d')%nat
  end.

End Scenarios.

(* ===================================================================== *)
(** ** Sample data *)
(* ===================================================================== *)

Module Samples.
Import Chat.

Definition empty_db : database :=
  {| plans := []; engineers := []; orders := []; tickets := [];
     conversations := []; messages := []; next_oid := 1%N |}.

(** The configured limiter: [chat_rate_limit_per_minute = 20], 60 seconds. *)
Definition chat_config : RateLimitConfig :=
  {| limit := 20; window_seconds := 60 |}.

Definition fresh_world : world :=
  {| rate_limiter := new chat_config; db := empty_db; ai_calls := [] |}.

Definition alice : AuthUser := {| user_id := "alice"; roles := ["user"] |}.
Definition staff : AuthUser := {| user_id := "sam"; roles := ["agent"] |}.

Definition hello : ChatSendIn := {| message_in := "hello"; context := None |}.

(** A stand-in for [repr] where its result does not matter. *)
Definition no_repr (v : json) : string := "".

(** A send at clock reading [t] (seconds), answered by [answer]. *)
Definition env_at (t : Z) (answer : http_outcome) : send_env :=
  {| env_time := inject_Z t;
     env_conv_ts := t * 1000;
     env_user_ts := t * 1000 + 1;
     env_ai := fun _ => answer;
     env_ai_ts := t * 1000 + 2 |}.

Definition answer_ok : http_outcome :=
  Response 200 (Some (JObj [("reply", JStr "hi")])).

(** Twenty sends, three seconds apart, from second 0 to second 57. *)
Definition twenty_sends : list (send_env * ChatSendIn) :=
  map (fun i => (env_at (3 * Z.of_nat i) answer_ok, hello)) (seq 0 20).

Definition answer_down : http_outcome := Response 503 None.

(** A database as seeded by [core/seed.py], cut down to one plan and the two
    engineers, the first with two orders already assigned. *)
Definition seeded_db : database :=
  {| plans :=
       [{| plan_id := 1%N; plan_name := "Starter 100"; plan_price := 699;
           plan_status := "ACTIVE" |}];
     engineers :=
       [{| eng_id := 2%N; eng_name := "Asha R";
           eng_skills := ["install"; "support"]; eng_areas := ["560034"];
           eng_workload := 2; eng_status := "ACTIVE"; eng_updated_at := 0 |};
        {| eng_id := 3%N; eng_name := "Rohit K";
           eng_skills := ["install"]; eng_areas := ["560001"; "560034"];
           eng_workload := 0; eng_status := "ACTIVE"; eng_updated_at := 0 |}];
     orders := []; tickets := []; conversations := []; messages := [];
     next_oid := 4%N |}.

Definition order_request (pincode : string) : Orders.OrderCreateIn :=
  {| Orders.plan_id_in := "000000000000000000000001";
     Orders.address := [("line1", JStr "12 MG Road")];
     Orders.pincode := pincode;
     Orders.preferred_slot := "2026-01-05T10:00" |}.

(** The database after three sends by alice, the third one not answered: one
    conversation (id 1) and five messages (ids 2 to 6). *)
Definition five_messages : database :=
  db (Scenarios.run_sends no_repr alice
        [(env_at 0 answer_ok, hello); (env_at 3 answer_ok, hello);
         (env_at 6 answer_down, hello)]
        fresh_world).

(** The seeded database after alice ordered at pincode 560034 and the order
    (id 4) was completed. *)
Definition completed_order_db : database :=
  Scenarios.run_order_ops
    [Scenarios.CreateOrder 100 (order_request "560034") alice;
     Scenarios.UpdateOrderStatus 200 "000000000000000000000004"
       {| Orders.status_in := "completed" |} staff]
    seeded_db.

(** A database with one open ticket (id 1) of alice. *)
Definition ticket_db : database :=
  {| plans := []; engineers := []; orders := [];
     tickets :=
       [{| ticket_id := 1%N; ticket_user_id := "alice";
           ticket_issue_type := "speed"; ticket_severity := "medium";
           ticket_status := "open"; ticket_assigned_to := None;
           ticket_notes :=
             [{| note_ts := 50; note_by := "alice"; note_type := "created";
                 note_message := "slow in the evening" |}];
           ticket_attachments := [];
           ticket_created_at := 50; ticket_updated_at := 50 |}];
     conversations := []; messages := []; next_oid := 2%N |}.

End Samples.

(* ===================================================================== *)
(** ** Further sequences of requests *)
(* ===================================================================== *)

Module MoreScenarios.

(** The clock readings of the calls [check(key)] among [calls], run from
    [self], that were let through. *)
Fixpoint admitted (key : string) (calls : list (string * timestamp))
  (self : InMemoryRateLimiter) : list timestamp :=
  match calls with
  | [] => []
  | c :: calls' =>
      let (r, self') := check (fst c) (snd c) self in
      (if String.eqb (fst c) key && is_ok r then [snd c] else [])
      ++ admitted key calls' self'
  end.

(** Requests on tickets, by any principals, one after the other. *)
Inductive ticket_op : Type :=
| CreateTicket (ts : datetime) (body : TicketOps.TicketCreateIn)
    (user : AuthUser)
| UpdateTicketStatus (ts : datetime) (ticket_id_in : string)
    (body : Tickets.TicketStatusUpdateIn) (user : AuthUser)
| AssignTicket (ts : datetime) (ticket_id_in : string)
    (body : TicketOps.TicketAssignIn) (user : AuthUser)
| AddTicketComment (ts : datetime) (ticket_id_in : string)
    (body : TicketOps.TicketCommentIn) (user : AuthUser).

Definition run_ticket_op (op : ticket_op) : M database Tickets.TicketOut :=
  match op with
  | CreateTicket ts body user => TicketOps.create_ticket ts body user
  | UpdateTicketStatus ts ticket_id_in body user =>
      Tickets.update_ticket_status ts ticket_id_in body user
  | AssignTicket ts ticket_id_in body user =>
      TicketOps.assign_ticket ts ticket_id_in body user
  | AddTicketComment ts ticket_id_in body user =>
      TicketOps.add_ticket_comment ts ticket_id_in body user
  end.

Definition run_ticket_ops (ops : list ticket_op) (d : database) : database :=
  fold_left (fun d op => snd (run_ticket_op op d)) ops d.

(** The id a request names, when it names one that is well formed. *)
Definition ticket_named (op : ticket_op) : option ObjectId :=
  match op with
  | CreateTicket _ _ _ => None
  | UpdateTicketStatus _ s _ _ | AssignTicket _ s _ _
  | AddTicketComment _ s _ _ =>
      match oid s with
      | Ok j => Some j
      | Raise _ => None
      end
  end.

(** The request is a status update, an assignment or a comment on the ticket
    with id [i]. *)
Definition on_ticket (i : ObjectId) (op : ticket_op) : bool :=
  match ticket_named op with
  | Some j => N.eqb j i
  | None => false
  end.

(** How many of the requests [ops], run from [d], are requests on the ticket
    [i] that succeed. *)
Fixpoint successful_on_ticket (i : ObjectId) (ops : list ticket_op)
  (d : database) : nat :=
  match ops with
  | [] => 0
  | op :: ops' =>
      let (r, d') := run_ticket_op op d in
      ((if on_ticket i op && is_ok r then 1 else 0)
       + successful_on_ticket i ops' d')%nat
  end.

(** How many of the requests [ops], run from [d], are order creations that
    succeed with an engineer assigned. *)
Fixpoint assigned_creations (ops : list Scenarios.order_op) (d : database)
  : nat :=
  match ops with
  | [] => 0
  | op :: ops' =>
      let (r, d') := Scenarios.run_order_op op d in
      ((match op, r with
        | Scenarios.CreateOrder _ _ _, Ok out =>
            match Orders.assigned_engineer_id out with
            | Some _ => 1
            | None => 0
            end
        | _, _ => 0
        end)
       + assigned_creations ops' d')%nat
  end.

End MoreScenarios.

(* ===================================================================== *)
(** ** Further sample data *)
(* ===================================================================== *)

Module MoreSamples.
Import Samples.

Definition ticket_request : TicketOps.TicketCreateIn :=
  {| TicketOps.category := "outage";
     TicketOps.description := "no link since noon";
     TicketOps.attachments := None |}.

Definition bob : AuthUser := {| user_id := "bob"; roles := ["user"] |}.

(** The plans of [core/seed.py], the third one withdrawn. *)
Definition seeded_plans : list Plans.plan_document :=
  [{| Plans.plan_core :=
        {| plan_id := 1%N; plan_name := "Starter 100"; plan_price := 699;
           plan_status := "ACTIVE" |};
      Plans.plan_speed_mbps := 100; Plans.plan_data_cap_gb := None;
      Plans.plan_ott := []; Plans.plan_areas := ["560034"; "560001"] |};
   {| Plans.plan_core :=
        {| plan_id := 7%N; plan_name := "Ultra 500"; plan_price := 1499;
           plan_status := "RETIRED" |};
      Plans.plan_speed_mbps := 500; Plans.plan_data_cap_gb := None;
      Plans.plan_ott := ["ExampleOTT"; "ExampleSports"];
      Plans.plan_areas := ["560001"; "560034"] |};
   {| Plans.plan_core :=
        {| plan_id := 8%N; plan_name := "Night Streaming 300";
           plan_price := 999; plan_status := "ACTIVE" |};
      Plans.plan_speed_mbps := 300; Plans.plan_data_cap_gb := None;
      Plans.plan_ott := ["ExampleOTT"]; Plans.plan_areas := ["560034"] |}].

(** [seeded_db] with these plans. *)
Definition catalogue_db : database :=
  {| plans := map Plans.plan_core seeded_plans;
     engineers := engineers seeded_db; orders := []; tickets := [];
     conversations := []; messages := []; next_oid := 9%N |}.

End MoreSamples.

(* ===================================================================== *)
(** ** Vocabulary of the properties *)
(* ===================================================================== *)

Module Props.
Import Chat.

(** Orders on documents by an integer key. *)
Definition le_key {A} (key : A -> Z) (x y : A) : Prop := key x <= key y.
Definition ge_key {A} (key : A -> Z) (x y : A) : Prop := key y <= key x.

(** A computation that keeps a property of the state, whether it returns or
    raises. *)
Definition preserves {S A} (P : S -> Prop) (m : M S A) : Prop :=
  forall s, P s -> P (snd (m s)).

(** Every queue is within the limit. *)
Definition bounded (self : InMemoryRateLimiter) : Prop :=
  forall k, Z.of_nat (length (events_of self k)) <= limit (_config self).

(** The document [_store_message] inserts. *)
Definition stored (conversation_id : ObjectId) (sender : string)
  (text : option string) (payload : option dict) (ts : datetime)
  (i : ObjectId) : message :=
  {| msg_id := i; msg_conversation_id := str_oid conversation_id;
     msg_sender := sender; msg_text := text; msg_payload := payload;
     msg_created_at := ts |}.

Definition keeps_limiter {A} (m : M world A) : Prop :=
  forall w, rate_limiter (snd (m w)) = rate_limiter w.

Definition user_message (body : ChatSendIn) (m : message) : Prop :=
  msg_sender m = "user" /\ msg_text m = Some (message_in body).

Definition ai_message (text : string) (m : message) : Prop :=
  msg_sender m = "ai" /\ msg_text m = Some text.

(** The answers that [_call_ai_engine] turns into HTTP 502: a status of 400
    or more, a body that decodes to something else than an object, an object
    without [reply]. *)
Definition refused_answer (resp : http_outcome) : Prop :=
  match resp with
  | ConnectionFailed => False
  | Response status_code body =>
      400 <= status_code \/
      match body with
      | None => False
      | Some (JObj data) => dict_get "reply" data = None
      | Some _ => True
      end
  end.

Definition is_object (v : json) : Prop :=
  match v with JObj _ => True | _ => False end.

(** The events of a queue that the window still covers at [now]. *)
Definition live (window : Z) (now : timestamp) (q : list timestamp)
  : list timestamp :=
  List.filter (fun t => negb (expired window now t)) q.

(** A clock reading inside the stretch [[t0, t0 + window]]. *)
Definition within (window : Z) (t0 t : timestamp) : Prop :=
  (t0 <= t /\ t <= t0 + inject_Z window)%Q.

(** The most recent [n] of a list of messages: a page [page] of [l], with
    [older] the messages left out. *)
Record most_recent (n : nat) (l page older : list message) : Prop := {
  recent_split : l ≡ₚ older ++ page;
  recent_length : length page = Nat.min n (length l);
  recent_newer : forall o m, In o older -> In m page -> (msg_id o <= msg_id m)%N;
  recent_chrono : StronglySorted (fun a b => (msg_id a <= msg_id b)%N) page
}.

(** What a cursor asks for: no bound when it is absent or empty, the id
    that it spells otherwise. *)
Inductive cursor_bound : option string -> option ObjectId -> Prop :=
| cursor_absent : cursor_bound None None
| cursor_empty : cursor_bound (Some "") None
| cursor_id (c : ObjectId) :
    (c < 2 ^ 96)%N -> cursor_bound (Some (str_oid c)) (Some c).

(** The messages a page of history is taken from: those of the conversation,
    below the bound if there is one. *)
Definition in_history (conv : conversation) (before : option ObjectId)
  (m : message) : Prop :=
  msg_conversation_id m = str_oid (conv_id conv) /\
  forall c, before = Some c -> (msg_id m < c)%N.

(** A message as a page of history shows it. *)
Definition shown_as (m : message) (o : Chat.ChatMessageOut) : Prop :=
  Chat.id o = str_oid (msg_id m) /\
  Chat.sender o = msg_sender m /\
  Chat.text o = msg_text m /\
  Chat.payload o = msg_payload m /\
  Chat.created_at o = msg_created_at m.

(** An engineer that may be assigned to an order at [pincode]. *)
Definition eligible (pincode : string) (e : engineer) : Prop :=
  eng_status e = "ACTIVE" /\ In "install" (eng_skills e) /\
  In pincode (eng_areas e).

(** The timeline of an order and its status agree, and the timeline has one
    entry more than [n]. *)
Definition timeline_ok (n : nat) (o : order) : Prop :=
  length (order_timeline o) = S n /\
  option_map ev_status (last (order_timeline o)) = Some (order_status o).

(** A caller with one of the roles admin, agent, engineer. *)
Definition is_staff (user : AuthUser) : Prop :=
  exists r, In r ["admin"; "agent"; "engineer"] /\ In r (roles user).

End Props.

(* ===================================================================== *)
(** ** Vocabulary of the further properties *)
(* ===================================================================== *)

Module MoreProps.

Definition Unauthenticated (e : exn) : Prop := status_of e = Some 401.


Definition is_object_id (v : Serialize.value) : bool :=
  match v with Serialize.VObjectId _ => true | _ => false end.

(** The updates of a ticket document: those of a status change, of an
    assignment and of a comment. *)
Inductive ticket_update : (ticket -> ticket) -> Prop :=
| upd_status s ts u : ticket_update (Tickets.set_status s ts u)
| upd_assign a ts : ticket_update (TicketOps.set_assigned a ts)
| upd_comment m ts u : ticket_update (TicketOps.add_comment m ts u).

(** The note that [create_ticket] starts the log with. *)
Definition created_note (ts : datetime) (body : TicketOps.TicketCreateIn)
  (user : AuthUser) : note :=
  {| note_ts := ts; note_by := user_id user; note_type := "created";
     note_message := TicketOps.description body |}.

(** The ticket that [create_ticket] answers with: open, of medium severity,
    unassigned, the caller's, with the one note [created]. *)
Definition new_ticket (ts : datetime) (body : TicketOps.TicketCreateIn)
  (user : AuthUser) (i : ObjectId) (out : Tickets.TicketOut) : Prop :=
  Tickets.id out = str_oid i /\
  Tickets.user_id_out out = user_id user /\
  Tickets.issue_type out = TicketOps.category body /\
  Tickets.status out = "open" /\
  Tickets.severity out = "medium" /\
  Tickets.assigned_to out = None /\
  Tickets.notes out = [created_note ts body user] /\
  Tickets.created_at out = ts /\
  Tickets.updated_at out = ts.

(** The document of that ticket in the store. *)
Definition new_ticket_doc (ts : datetime) (body : TicketOps.TicketCreateIn)
  (user : AuthUser) (i : ObjectId) (t : ticket) : Prop :=
  ticket_id t = i /\
  ticket_user_id t = user_id user /\
  ticket_issue_type t = TicketOps.category body /\
  ticket_status t = "open" /\
  ticket_severity t = "medium" /\
  ticket_assigned_to t = None /\
  ticket_notes t = [created_note ts body user] /\
  ticket_attachments t = default [] (TicketOps.attachments body) /\
  ticket_created_at t = ts /\
  ticket_updated_at t = ts.

(** The sum of the workloads of all engineers. *)
Definition total_workload (d : database) : Z :=
  fold_right Z.add 0 (map eng_workload (engineers d)).

(** Two order documents agree on everything but status, timeline and
    [updated_at]. *)
Definition same_order_data (o o0 : order) : Prop :=
  order_id o = order_id o0 /\
  order_user_id o = order_user_id o0 /\
  order_plan_id o = order_plan_id o0 /\
  order_address o = order_address o0 /\
  order_pincode o = order_pincode o0 /\
  order_price o = order_price o0 /\
  order_slot o = order_slot o0 /\
  order_assigned_engineer_id o = order_assigned_engineer_id o0 /\
  order_created_at o = order_created_at o0.


(** No user has two conversations. *)
Definition one_conversation_each (d : database) : Prop :=
  NoDup (map conv_user_id (conversations d)).

(** The empty page [chat_history] gives a user without conversation. *)
Definition empty_history (user : AuthUser) : Chat.ChatHistoryOut :=
  {| Chat.history_conversation_id := ""; Chat.history_user_id := user_id user;
     Chat.messages_out := []; Chat.next_cursor := None |}.

(** A message of a history page, by id, sender and text. *)
Definition shows (m : Chat.ChatMessageOut) (i sender text : string) : Prop :=
  Chat.id m = i /\ Chat.sender m = sender /\ Chat.text m = Some text.


End MoreProps.

(* ===================================================================== *)
(** * Properties *)
(* ===================================================================== *)

(** ** The store primitives *)

Module MongoFacts.
Import Props.

Section Sorting.
Context {A : Type} (key : A -> Z).

Lemma insert_by_perm x l : insert_by key x l ≡ₚ x :: l.
Proof.
  induction l as [|y l IH]; simpl; [done|].
  destruct (key x <=? key y); [done|].
  rewrite IH. apply Permutation_swap.
Qed.

Lemma sort_asc_perm l : sort_asc key l ≡ₚ l.
Proof.
  induction l as [|x l IH]; simpl; [done|].
  by rewrite insert_by_perm, IH.
Qed.

Lemma insert_by_sorted x l :
  StronglySorted (le_key key) l -> StronglySorted (le_key key) (insert_by key x l).
Proof.
  induction 1 as [|y l Hl IH Hy]; simpl.
  - repeat constructor.
  - destruct (Z.leb_spec (key x) (key y)) as [Hxy|Hxy].
    + constructor; [by constructor|].
      constructor; [done|].
      eapply Forall_impl; [exact Hy|]. unfold le_key. intros; lia.
    + constructor; [done|].
      rewrite insert_by_perm. constructor; [unfold le_key; lia | done].
Qed.

Lemma sort_asc_sorted l : StronglySorted (le_key key) (sort_asc key l).
Proof.
  induction l; simpl; [constructor | by apply insert_by_sorted].
Qed.
End Sorting.

Section Collection.
Context {A : Type}.
Implicit Types (p : A -> bool) (key : A -> Z) (l : list A).

Lemma StronglySorted_weaken (R1 R2 : A -> A -> Prop) l :
  (forall x y, R1 x y -> R2 x y) ->
  StronglySorted R1 l -> StronglySorted R2 l.
Proof.
  intros HR. induction 1 as [|x l Hl IH Hx]; constructor; [done|].
  eapply Forall_impl; [exact Hx|]. auto.
Qed.

Lemma sort_desc_perm key l : sort_desc key l ≡ₚ l.
Proof. apply sort_asc_perm. Qed.

Lemma sort_desc_sorted key l : StronglySorted (ge_key key) (sort_desc key l).
Proof.
  unfold sort_desc.
  eapply StronglySorted_weaken; [|apply sort_asc_sorted].
  unfold le_key, ge_key. intros; lia.
Qed.

Lemma head_sorted_min (R : A -> A -> Prop) l s x :
  s ≡ₚ l -> StronglySorted R s -> head s = Some x ->
  In x l /\ forall y, In y l -> y = x \/ R x y.
Proof.
  intros Hp Hs Hh. destruct s as [|x' s]; simplify_eq/=.
  apply StronglySorted_inv in Hs as [_ Hall].
  split.
  - apply list_elem_of_In. rewrite <- Hp. left.
  - intros y Hy. apply list_elem_of_In in Hy. rewrite <- Hp in Hy.
    apply elem_of_cons in Hy as [->|Hy]; [by left|right].
    rewrite Forall_forall in Hall. by apply Hall.
Qed.

Lemma find_one_asc_Some p key l x :
  find_one_asc p key l = Some x ->
  In x l /\ p x = true /\
  forall y, In y l -> p y = true -> key x <= key y.
Proof.
  intros H.
  destruct (head_sorted_min (le_key key) (List.filter p l) _ x
              (sort_asc_perm key _) (sort_asc_sorted key _) H) as [Hin Hmin].
  apply filter_In in Hin as [Hin Hp]. split_and!; [done..|].
  intros y Hy Hpy.
  destruct (Hmin y) as [->|Hle]; [by apply filter_In | lia | exact Hle].
Qed.

Lemma find_one_desc_Some p key l x :
  find_one_desc p key l = Some x ->
  In x l /\ p x = true /\
  forall y, In y l -> p y = true -> key y <= key x.
Proof.
  intros H.
  destruct (head_sorted_min (ge_key key) (List.filter p l) _ x
              (sort_desc_perm key _) (sort_desc_sorted key _) H) as [Hin Hmin].
  apply filter_In in Hin as [Hin Hp]. split_and!; [done..|].
  intros y Hy Hpy.
  destruct (Hmin y) as [->|Hle]; [by apply filter_In | lia | exact Hle].
Qed.

Lemma head_perm_None (s l : list A) : s ≡ₚ l -> head s = None -> l = [].
Proof.
  intros Hp Hh. destruct s; [|done]. by apply Permutation_nil_l in Hp.
Qed.

Lemma filter_nil_none p l :
  List.filter p l = [] <-> forall y, In y l -> p y = false.
Proof.
  induction l as [|x l IH]; simpl; [by split|].
  destruct (p x) eqn:Hx.
  - split; [done|]. intros H. specialize (H x (or_introl eq_refl)). congruence.
  - rewrite IH. split; [|by auto].
    intros H y [<-|Hy]; auto.
Qed.

Lemma find_one_asc_None p key l :
  find_one_asc p key l = None <-> forall y, In y l -> p y = false.
Proof.
  rewrite <- filter_nil_none. unfold find_one_asc. split.
  - apply head_perm_None, sort_asc_perm.
  - by intros ->.
Qed.

Lemma find_one_desc_None p key l :
  find_one_desc p key l = None <-> forall y, In y l -> p y = false.
Proof.
  rewrite <- filter_nil_none. unfold find_one_desc. split.
  - apply head_perm_None, sort_desc_perm.
  - by intros ->.
Qed.

(** [find_one] and a document appended by [insert_one]. *)
Lemma find_one_app p l x :
  find_one p (l ++ [x]) =
  match find_one p l with
  | Some y => Some y
  | None => if p x then Some x else None
  end.
Proof.
  unfold find_one. induction l as [|y l IH]; simpl; [done|].
  by destruct (p y).
Qed.

Lemma find_one_Some p l x : find_one p l = Some x -> In x l /\ p x = true.
Proof. apply find_some. Qed.

Lemma find_one_None p l :
  find_one p l = None <-> forall y, In y l -> p y = false.
Proof.
  split; [apply find_none|].
  intros H. unfold find_one. destruct (List.find p l) eqn:E; [|done].
  apply find_some in E as [Hin Hp]. rewrite (H _ Hin) in Hp. done.
Qed.

(** [update_one] rewrites the document [find_one] returns, in place. *)
Lemma update_one_split p (f : A -> A) l x :
  find_one p l = Some x ->
  exists l1 l2, l = l1 ++ x :: l2 /\ update_one p f l = l1 ++ f x :: l2 /\
                forall y, In y l1 -> p y = false.
Proof.
  unfold find_one. induction l as [|y l IH]; simpl; [done|].
  destruct (p y) eqn:Hy.
  - intros [= ->]. by exists [], l.
  - intros H. destruct (IH H) as (l1 & l2 & -> & -> & Hl1).
    exists (y :: l1), l2. split_and!; [done..|].
    intros z [<-|Hz]; auto.
Qed.

Lemma update_one_none p (f : A -> A) l :
  find_one p l = None -> update_one p f l = l.
Proof.
  unfold find_one. induction l as [|y l IH]; simpl; [done|].
  destruct (p y); [done|]. intros H. by rewrite IH.
Qed.

Lemma update_one_length p (f : A -> A) l :
  length (update_one p f l) = length l.
Proof.
  induction l as [|y l IH]; simpl; [done|]. destruct (p y); simpl; auto.
Qed.

End Collection.

End MongoFacts.

(** ** Object ids *)

Module UtilsFacts.

Lemma string_length_app (s1 s2 : string) :
  String.length (s1 ++ s2) = (String.length s1 + String.length s2)%nat.
Proof. induction s1 as [|c s1 IH]; simpl; [done|]. by rewrite IH. Qed.

Lemma hex_of_length digits n : String.length (hex_of digits n) = digits.
Proof.
  revert n. induction digits as [|k IH]; intros n; simpl; [done|].
  rewrite string_length_app, IH. simpl. lia.
Qed.

Lemma hex_val_char d : (d < 16)%N -> hex_val (hex_char d) = Some d.
Proof.
  intros Hd.
  assert (Hall : forallb (fun d => match hex_val (hex_char d) with
                                   | Some d' => N.eqb d' d
                                   | None => false
                                   end) (map N.of_nat (seq 0 16)) = true)
    by reflexivity.
  rewrite forallb_forall in Hall. specialize (Hall d).
  destruct (hex_val (hex_char d)) as [d'|].
  - f_equal. apply N.eqb_eq, Hall.
    rewrite <- (N2Nat.id d). apply in_map, in_seq. lia.
  - discriminate Hall.
    rewrite <- (N2Nat.id d). apply in_map, in_seq. lia.
Qed.

Lemma parse_hex_app acc s1 s2 :
  parse_hex acc (s1 ++ s2) =
  match parse_hex acc s1 with
  | Some a => parse_hex a s2
  | None => None
  end.
Proof.
  revert acc. induction s1 as [|c s1 IH]; intros acc; simpl; [done|].
  destruct (hex_val c); [apply IH | done].
Qed.

Lemma parse_hex_of digits n acc :
  parse_hex acc (hex_of digits n) =
  Some (acc * 16 ^ N.of_nat digits + n mod 16 ^ N.of_nat digits)%N.
Proof.
  revert n acc. induction digits as [|k IH]; intros n acc.
  - simpl. f_equal. rewrite N.mod_1_r. lia.
  - cbn [hex_of]. rewrite parse_hex_app, IH. cbn [parse_hex].
    rewrite hex_val_char by (apply N.mod_lt; lia).
    f_equal. rewrite Nat2N.inj_succ, N.pow_succ_r'.
    rewrite (N.Div0.mod_mul_r n 16 (16 ^ N.of_nat k)). lia.
Qed.

Lemma hex_not_space c d : hex_val c = Some d -> is_space c = false.
Proof.
  unfold hex_val, is_space. cbv zeta.
  destruct (N.leb_spec 48 (N_of_ascii c)), (N.leb_spec (N_of_ascii c) 57),
    (N.leb_spec 97 (N_of_ascii c)), (N.leb_spec (N_of_ascii c) 102),
    (N.leb_spec 65 (N_of_ascii c)), (N.leb_spec (N_of_ascii c) 70);
    cbn [andb]; try done; intros _;
    (destruct (N.leb_spec 9 (N_of_ascii c)), (N.leb_spec (N_of_ascii c) 13),
       (N.eqb_spec (N_of_ascii c) 32); cbn [andb orb]; try done; lia).
Qed.

(** On a string of digits [bytes.fromhex] reads the number, a byte for every
    two digits. *)
Lemma fromhex_digits s top len acc v k :
  parse_hex (match top with None => acc | Some t => acc * 16 + t end)%N s
    = Some v ->
  (String.length s + match top with Some _ => 1 | None => 0 end = 2 * k)%nat ->
  fromhex top len acc s = Some ((len + k)%nat, v).
Proof.
  revert top len acc k.
  induction s as [|c s IH]; intros top len acc k Hparse Hlen.
  - destruct top as [t|]; simpl in *; [lia|].
    assert (k = 0%nat) as -> by lia. rewrite Nat.add_0_r. congruence.
  - cbn [parse_hex] in Hparse.
    destruct (hex_val c) as [d|] eqn:Hd; [|done].
    cbn [fromhex String.length] in *. destruct top as [t|].
    + rewrite Hd. destruct k as [|k]; [lia|].
      replace (len + S k)%nat with (S len + k)%nat by lia.
      apply IH; [|lia].
      replace (acc * 256 + t * 16 + d)%N with ((acc * 16 + t) * 16 + d)%N
        by lia.
      done.
    + rewrite (hex_not_space c d Hd), Hd. apply IH; [done | lia].
Qed.

(** [oid(str(i)) == i] for a twelve-byte id. *)
Lemma oid_str_oid i : (i < 2 ^ 96)%N -> oid (str_oid i) = Ok i.
Proof.
  intros Hi. unfold oid, str_oid. rewrite hex_of_length. simpl Nat.eqb.
  cbv iota.
  rewrite (fromhex_digits (hex_of 24 i) None 0 0 i 12).
  - unfold id_of_bytes. f_equal; simpl N.of_nat; lia.
  - rewrite parse_hex_of. f_equal.
    rewrite N.mul_0_l, N.add_0_l. apply N.mod_small.
    change (16 ^ N.of_nat 24)%N with (2 ^ 96)%N. done.
  - by rewrite hex_of_length.
Qed.

Lemma oid_raises value e :
  oid value = Raise e -> e = HTTPException 400 "Invalid id format".
Proof.
  unfold oid. destruct (Nat.eqb _ _); [|by intros [= <-]].
  by destruct (fromhex None 0 0 value) as [[n v]|]; [|intros [= <-]].
Qed.

(** The order of ids against a twelve-byte id is the order of the
    numbers. *)
Lemma id_ltb_lt a b : (b < 2 ^ 96)%N -> id_ltb a b = true <-> (a < b)%N.
Proof.
  intros Hb. unfold id_ltb. destruct (N.ltb_spec b (2 ^ 96)); [|lia].
  apply N.ltb_lt.
Qed.

Lemma str_oid_not_empty i : str_oid i <> "".
Proof.
  intros H. apply (f_equal String.length) in H.
  unfold str_oid in H. rewrite hex_of_length in H. done.
Qed.

End UtilsFacts.

(** ** Well-formed stores *)

Module StoreFacts.
Import Props MongoFacts.

Section Ids.
Context {A : Type} (id : A -> ObjectId).

Lemma ids_ok_nil bound : ids_ok id bound [].
Proof. split; simpl; constructor. Qed.

Lemma ids_ok_succ bound l : ids_ok id bound l -> ids_ok id (N.succ bound) l.
Proof.
  intros [Hnd Hlt]. split; [done|].
  eapply Forall_impl; [exact Hlt|]. simpl. intros; lia.
Qed.

(** The document that [insert_one] appends. *)
Lemma ids_ok_snoc bound l x :
  ids_ok id bound l -> id x = bound -> ids_ok id (N.succ bound) (l ++ [x]).
Proof.
  intros [Hnd Hlt] Hx. split.
  - rewrite map_app. apply NoDup_app. split_and!; [done| |].
    + intros i Hi Hi'. simpl in Hi'. apply list_elem_of_singleton in Hi'.
      apply list_elem_of_In, in_map_iff in Hi as (y & <- & Hy).
      rewrite Forall_forall in Hlt. apply list_elem_of_In, Hlt in Hy. lia.
    + simpl. apply NoDup_singleton.
  - apply Forall_app. split.
    + eapply Forall_impl; [exact Hlt|]. simpl. intros; lia.
    + constructor; [lia | constructor].
Qed.

Lemma update_one_ids p (f : A -> A) l :
  (forall x, id (f x) = id x) ->
  map id (update_one p f l) = map id l.
Proof.
  intros Hf. induction l as [|y l IH]; simpl; [done|].
  destruct (p y); simpl; [by rewrite Hf | by rewrite IH].
Qed.

(** An update in place that keeps the [_id]. *)
Lemma ids_ok_update_one bound p (f : A -> A) l :
  (forall x, id (f x) = id x) ->
  ids_ok id bound l -> ids_ok id bound (update_one p f l).
Proof.
  intros Hf [Hnd Hlt]. split; [by rewrite update_one_ids|].
  clear Hnd. induction Hlt as [|y l Hy Hl IH]; simpl; [constructor|].
  destruct (p y); constructor; try done. by rewrite Hf.
Qed.
End Ids.

Section Preserves.
Context {S : Type} (P : S -> Prop).

Lemma preserves_ret {A} (a : A) : preserves P (ret a).
Proof. by intros s. Qed.

Lemma preserves_raise {A} e : preserves P (@raise S A e).
Proof. by intros s. Qed.

Lemma preserves_lift {A} (r : result A) : preserves P (lift r).
Proof. by intros s. Qed.

Lemma preserves_gets {A} (f : S -> A) : preserves P (gets f).
Proof. by intros s. Qed.

Lemma preserves_modify (f : S -> S) :
  (forall s, P s -> P (f s)) -> preserves P (modify f).
Proof. intros Hf s. apply Hf. Qed.

Lemma preserves_bind {A B} (m : M S A) (k : A -> M S B) :
  preserves P m -> (forall a, preserves P (k a)) -> preserves P (bind m k).
Proof.
  intros Hm Hk s Hs. unfold bind. specialize (Hm s Hs).
  destruct (m s) as [[a|e] s1]; simpl in *; [|done].
  by apply Hk.
Qed.
End Preserves.

Lemma wf_empty_db : wf_db Samples.empty_db.
Proof. repeat split; simpl; constructor. Qed.

Lemma wf_fresh_oid_orders doc :
  (forall i, order_id (doc i) = i) ->
  preserves wf_db (insert_one set_orders doc).
Proof.
  intros Hid d (? & ? & ? & ? & ? & ?).
  unfold insert_one, bind, fresh_oid, modify, ret; simpl. unfold wf_db; simpl.
  split_and!; try by apply ids_ok_succ. by apply ids_ok_snoc.
Qed.

Lemma wf_fresh_oid_conversations doc :
  (forall i, conv_id (doc i) = i) ->
  preserves wf_db (insert_one set_conversations doc).
Proof.
  intros Hid d (? & ? & ? & ? & ? & ?).
  unfold insert_one, bind, fresh_oid, modify, ret; simpl. unfold wf_db; simpl.
  split_and!; try by apply ids_ok_succ. by apply ids_ok_snoc.
Qed.

Lemma wf_fresh_oid_messages doc :
  (forall i, msg_id (doc i) = i) ->
  preserves wf_db (insert_one set_messages doc).
Proof.
  intros Hid d (? & ? & ? & ? & ? & ?).
  unfold insert_one, bind, fresh_oid, modify, ret; simpl. unfold wf_db; simpl.
  split_and!; try by apply ids_ok_succ. by apply ids_ok_snoc.
Qed.

Lemma wf_update_engineers p f d :
  (forall e, eng_id (f e) = eng_id e) ->
  wf_db d -> wf_db (set_engineers (update_one p f) d).
Proof.
  intros Hf (? & ? & ? & ? & ? & ?). unfold wf_db; simpl.
  split_and!; try done. by apply ids_ok_update_one.
Qed.

Lemma wf_update_orders p f d :
  (forall o, order_id (f o) = order_id o) ->
  wf_db d -> wf_db (set_orders (fun _ => update_one p f (orders d)) d).
Proof.
  intros Hf (? & ? & ? & ? & ? & ?). unfold wf_db; simpl.
  split_and!; try done. by apply ids_ok_update_one.
Qed.

Lemma wf_update_tickets p f d :
  (forall t, ticket_id (f t) = ticket_id t) ->
  wf_db d -> wf_db (set_tickets (fun _ => update_one p f (tickets d)) d).
Proof.
  intros Hf (? & ? & ? & ? & ? & ?). unfold wf_db; simpl.
  split_and!; try done. by apply ids_ok_update_one.
Qed.

Lemma wf_update_conversations p f d :
  (forall c, conv_id (f c) = conv_id c) ->
  wf_db d -> wf_db (set_conversations (update_one p f) d).
Proof.
  intros Hf (? & ? & ? & ? & ? & ?). unfold wf_db; simpl.
  split_and!; try done. by apply ids_ok_update_one.
Qed.

End StoreFacts.

(** ** The rate limiter *)

Module RateLimitFacts.
Import Props.

Lemma evict_split w now q :
  exists old, q = old ++ evict w now q /\
              Forall (fun t => expired w now t = true) old.
Proof.
  induction q as [|t q IH]; simpl.
  - by exists [].
  - destruct (expired w now t) eqn:Ht.
    + destruct IH as (old & Hq & Hold).
      exists (t :: old). split; [by rewrite <- app_comm_cons, <- Hq|].
      by constructor.
    + by exists [].
Qed.

(** Eviction drops expired entries only. *)
Lemma evict_keeps_live w now q :
  List.filter (fun t => negb (expired w now t)) (evict w now q) =
  List.filter (fun t => negb (expired w now t)) q.
Proof.
  induction q as [|t q IH]; simpl; [done|].
  destruct (expired w now t) eqn:Ht; simpl; [done|].
  by rewrite Ht.
Qed.

Lemma filter_length_le {A} (p : A -> bool) l :
  (length (List.filter p l) <= length l)%nat.
Proof.
  induction l as [|x l IH]; simpl; [done|]. destruct (p x); simpl; lia.
Qed.

Lemma events_of_set self key q k :
  events_of (set_events (<[key := q]> (_events self)) self) k =
  if decide (key = k) then q else events_of self k.
Proof.
  unfold events_of, set_events; simpl. rewrite lookup_insert.
  by destruct (decide (key = k)).
Qed.

Lemma check_config key now self :
  _config (snd (check key now self)) = _config self.
Proof. unfold check. by destruct (_ <=? _). Qed.

(** What one call does to the queues. *)
Lemma check_cases key now self :
  let kept := evict (window_seconds (_config self)) now (events_of self key) in
  (check key now self =
     (Raise (HTTPException 429 "Rate limit exceeded. Try again later."),
      set_events (<[key := kept]> (_events self)) self) /\
   limit (_config self) <= Z.of_nat (length kept)) \/
  (check key now self =
     (Ok tt, set_events (<[key := kept ++ [now]]> (_events self)) self) /\
   Z.of_nat (length kept) < limit (_config self)).
Proof.
  intros kept. unfold check. fold kept.
  destruct (Z.leb_spec (limit (_config self)) (Z.of_nat (length kept)));
    [left | right]; done.
Qed.

Lemma new_bounded cfg : 0 <= limit cfg -> bounded (new cfg).
Proof. intros H k. unfold events_of, new; simpl. by rewrite lookup_empty. Qed.

Lemma evict_length w now q : (length (evict w now q) <= length q)%nat.
Proof.
  destruct (evict_split w now q) as (old & Hq & _).
  rewrite Hq at 2. rewrite length_app. lia.
Qed.

Lemma check_bounded key now self :
  bounded self -> bounded (snd (check key now self)).
Proof.
  intros Hb k. rewrite check_config.
  pose proof (evict_length (window_seconds (_config self)) now
                (events_of self key)) as Hev.
  specialize (Hb key) as Hkey.
  destruct (check_cases key now self) as [[-> Hlim]|[-> Hlim]]; simpl;
    rewrite events_of_set; destruct (decide (key = k)); try apply Hb.
  - lia.
  - rewrite length_app; simpl. lia.
Qed.

Lemma run_checks_config calls self :
  _config (run_checks calls self) = _config self.
Proof.
  revert self. induction calls as [|c calls IH]; intros self; simpl; [done|].
  unfold run_checks in *; simpl. by rewrite IH, check_config.
Qed.

Lemma run_checks_bounded calls self :
  bounded self -> bounded (run_checks calls self).
Proof.
  revert self. induction calls as [|c calls IH]; intros self Hb; simpl; [done|].
  apply IH. by apply check_bounded.
Qed.

(** C9. From a fresh limiter with a non-negative [limit], and after any
    sequence of calls of [check] on any keys, one more call [check(key)]
    - only drops a prefix of expired timestamps from the queue of [key], and
      then either raises HTTP 429 without appending (the queue that is left
      holds at least [limit] entries) or appends exactly the current
      timestamp (the queue that was left held fewer than [limit] entries);
    - leaves the queue of every other key as it was;
    - leaves no queue with more than [limit] entries. *)
Theorem check_keeps_queues_within_limit
  (cfg : RateLimitConfig) (calls : list (string * timestamp))
  (key : string) (now : timestamp) :
  0 <= limit cfg ->
  let self := run_checks calls (new cfg) in
  let kept := evict (window_seconds cfg) now (events_of self key) in
  let self' := snd (check key now self) in
  (exists old, events_of self key = old ++ kept /\
               Forall (fun t => expired (window_seconds cfg) now t = true) old) /\
  ((exists e, fst (check key now self) = Raise e /\ RateLimited e /\
              limit cfg <= Z.of_nat (length kept) /\
              events_of self' key = kept) \/
   (fst (check key now self) = Ok tt /\
    Z.of_nat (length kept) < limit cfg /\
    events_of self' key = kept ++ [now])) /\
  (forall k, k <> key -> events_of self' k = events_of self k) /\
  (forall k, Z.of_nat (length (events_of self' k)) <= limit cfg).
Proof.
  intros Hlim self kept self'.
  assert (Hcfg : _config self = cfg) by apply run_checks_config.
  assert (Hb : bounded self) by by apply run_checks_bounded, new_bounded.
  split_and!.
  - apply evict_split.
  - subst self' kept. rewrite <- Hcfg.
    destruct (check_cases key now self) as [[-> H]|[-> H]]; simpl;
      rewrite events_of_set, decide_True by done; [left | right].
    + eexists; split_and!; done.
    + done.
  - intros k Hk. subst self'.
    destruct (check_cases key now self) as [[-> _]|[-> _]]; simpl;
      by rewrite events_of_set, decide_False.
  - intros k. pose proof (check_bounded key now self Hb k) as H.
    by rewrite check_config, Hcfg in H.
Qed.

(** C9 at the configured limiter (20 per 60 s), after three calls. *)
Lemma check_keeps_queues_within_limit_witness :
  let cfg := {| limit := 20; window_seconds := 60 |} in
  let self := run_checks [("u1", 0%Q); ("u2", 1%Q); ("u1", 70%Q)] (new cfg) in
  let kept := evict 60 (75%Q) (events_of self "u1") in
  let self' := snd (check "u1" (75%Q) self) in
  (exists old, events_of self "u1" = old ++ kept /\
               Forall (fun t => expired 60 (75%Q) t = true) old) /\
  ((exists e, fst (check "u1" (75%Q) self) = Raise e /\ RateLimited e /\
              20 <= Z.of_nat (length kept) /\
              events_of self' "u1" = kept) \/
   (fst (check "u1" (75%Q) self) = Ok tt /\
    Z.of_nat (length kept) < 20 /\
    events_of self' "u1" = kept ++ [75%Q])) /\
  (forall k, k <> "u1" -> events_of self' k = events_of self k) /\
  (forall k, Z.of_nat (length (events_of self' k)) <= 20).
Proof.
  apply (check_keeps_queues_within_limit
           {| limit := 20; window_seconds := 60 |}
           [("u1", 0%Q); ("u2", 1%Q); ("u1", 70%Q)] "u1" (75%Q)).
  simpl. lia.
Defined.

End RateLimitFacts.

(** ** The chat pipeline *)

Module ChatFacts.
Import Chat Scenarios Samples MongoFacts StoreFacts RateLimitFacts Props.

(** *** Steps on the database *)

Lemma get_or_create_conversation_runs uid ts d :
  exists c d', _get_or_create_conversation uid ts d = (Ok (Some c), d') /\
               messages d' = messages d.
Proof.
  unfold _get_or_create_conversation, bind, gets; simpl.
  destruct (find_one_desc _ _ _) as [c|] eqn:E.
  - by exists c, d.
  - simpl. rewrite find_one_app, N.eqb_refl.
    destruct (find_one _ (conversations d)); eauto.
Qed.

Lemma store_message_runs cid sender text payload ts d :
  exists m d', _store_message cid sender text payload ts d = (Ok (Some m), d') /\
               msg_id m = next_oid d /\
               messages d' =
                 messages d ++ [stored cid sender text payload ts (next_oid d)].
Proof.
  unfold _store_message, insert_one, bind, gets, modify, fresh_oid, ret; simpl.
  rewrite find_one_app, N.eqb_refl.
  destruct (find_one _ (messages d)) as [m|] eqn:E.
  - apply find_one_Some in E as [_ E]. apply N.eqb_eq in E.
    by eexists _, _.
  - by eexists _, _.
Qed.

(** *** Sends keep the store well formed *)

Lemma get_or_create_conversation_wf uid ts :
  preserves wf_db (_get_or_create_conversation uid ts).
Proof.
  unfold _get_or_create_conversation.
  apply preserves_bind; [apply preserves_gets | intros [c|]];
    [apply preserves_ret|].
  apply preserves_bind; [by apply wf_fresh_oid_conversations | intros i].
  apply preserves_gets.
Qed.

Lemma store_message_wf cid sender text payload ts :
  preserves wf_db (_store_message cid sender text payload ts).
Proof.
  unfold _store_message.
  apply preserves_bind; [by apply wf_fresh_oid_messages | intros i].
  apply preserves_bind; [|intros []; apply preserves_gets].
  apply preserves_modify. intros d. by apply wf_update_conversations.
Qed.

Lemma preserves_zoom_db {A} (m : M database A) :
  preserves wf_db m ->
  preserves (fun w => wf_db (db w)) (zoom db set_db m).
Proof.
  intros Hm w Hw. unfold zoom. specialize (Hm (db w) Hw).
  by destruct (m (db w)).
Qed.

Lemma chat_send_wf py_repr env body user :
  preserves (fun w => wf_db (db w)) (chat_send py_repr env body user).
Proof.
  unfold chat_send.
  apply preserves_bind.
  { intros w Hw. unfold zoom. by destruct (check _ _ _). }
  intros []. apply preserves_bind;
    [apply preserves_zoom_db, get_or_create_conversation_wf | intros conv].
  apply preserves_bind;
    [destruct conv; [apply preserves_ret | apply preserves_raise] | intros cid].
  apply preserves_bind;
    [apply preserves_zoom_db, store_message_wf | intros user_msg].
  apply preserves_bind.
  { unfold _call_ai_engine. apply preserves_bind;
      [by apply preserves_modify | intros []; apply preserves_lift]. }
  intros ai_data. cbv zeta. apply preserves_bind;
    [apply preserves_zoom_db, store_message_wf | intros ai_msg].
  apply preserves_bind;
    [destruct user_msg; [apply preserves_ret | apply preserves_raise]
    |intros ?].
  apply preserves_bind;
    [destruct ai_msg; [apply preserves_ret | apply preserves_raise]
    |intros ?].
  unfold make_ChatSendOut.
  destruct (as_dicts _); [apply preserves_ret | apply preserves_raise].
Qed.

Lemma run_sends_wf py_repr user reqs w :
  wf_db (db w) -> wf_db (db (run_sends py_repr user reqs w)).
Proof.
  revert w. induction reqs as [|r reqs IH]; intros w Hw; [done|].
  apply IH. by apply chat_send_wf.
Qed.

(** *** Steps that leave the limiter alone *)

Lemma keeps_ret {A} (a : A) : keeps_limiter (ret a).
Proof. done. Qed.

Lemma keeps_raise {A} e : keeps_limiter (@raise world A e).
Proof. done. Qed.

Lemma keeps_bind {A B} (m : M world A) (k : A -> M world B) :
  keeps_limiter m -> (forall a, keeps_limiter (k a)) -> keeps_limiter (bind m k).
Proof.
  intros Hm Hk w. unfold bind. specialize (Hm w).
  destruct (m w) as [[a|e] w1]; simpl in *; [|done].
  by rewrite Hk.
Qed.

Lemma keeps_zoom_db {A} (m : M database A) : keeps_limiter (zoom db set_db m).
Proof. intros w. unfold zoom. by destruct (m (db w)). Qed.

Lemma keeps_subscript {A B} (doc : option A) (f : A -> B) :
  keeps_limiter (subscript doc f).
Proof. by destruct doc. Qed.

Lemma keeps_call_ai env user msg ctx :
  keeps_limiter (_call_ai_engine env user msg ctx).
Proof.
  intros w. unfold _call_ai_engine, bind, modify, lift.
  by destruct (read_response _).
Qed.

Lemma keeps_make_out r s c m a :
  keeps_limiter (make_ChatSendOut r s c m a).
Proof. intros w. unfold make_ChatSendOut. by destruct (as_dicts s). Qed.

Create HintDb limiter.
#[local] Hint Resolve keeps_ret keeps_raise keeps_zoom_db keeps_subscript
  keeps_call_ai keeps_make_out : limiter.

Lemma chat_send_refused py_repr env body user w e :
  fst (check (user_id user) (env_time env) (rate_limiter w)) = Raise e ->
  chat_send py_repr env body user w =
    (Raise e,
     set_rate_limiter
       (snd (check (user_id user) (env_time env) (rate_limiter w))) w).
Proof.
  intros Hr. unfold chat_send. unfold bind at 1. unfold zoom at 1.
  destruct (check _ _ _) as [[[]|e'] l]; simpl in *; [done|].
  by simplify_eq.
Qed.

(** The limiter after a send is the limiter after its rate check. *)
Lemma chat_send_limiter py_repr env body user w :
  rate_limiter (snd (chat_send py_repr env body user w)) =
  snd (check (user_id user) (env_time env) (rate_limiter w)).
Proof.
  unfold chat_send. unfold bind at 1. unfold zoom at 1.
  destruct (check _ _ _) as [[[]|e] l]; simpl; [|done].
  match goal with
  | |- rate_limiter (snd (?k ?w1)) = _ =>
      assert (Hk : keeps_limiter k); [|by rewrite (Hk w1)]
  end.
  repeat (apply keeps_bind; [auto with limiter | intros ?]).
  auto with limiter.
Qed.

(** *** A send that passed the rate check *)

#[local] Arguments str_oid : simpl never.

(** Run [chat_send] up to the answer of the AI service. *)
Ltac run_to_ai Hcheck Hc Hs Hresp :=
  unfold chat_send; unfold bind at 1, zoom at 1; rewrite Hcheck;
  unfold bind at 1, zoom at 1; cbn [db set_rate_limiter]; rewrite Hc;
  unfold bind at 1; cbn [subscript ret];
  unfold bind at 1, zoom at 1; cbn [db set_db]; rewrite Hs;
  unfold bind at 1, _call_ai_engine at 1, bind at 1, modify at 1, lift at 1;
  rewrite Hresp.

(** The whole of a send once the limiter let it through: the user's message
    is stored, the AI service is called once, and the answer decides the
    rest. *)
Lemma chat_send_passed py_repr env body user w :
  fst (check (user_id user) (env_time env) (rate_limiter w)) = Ok tt ->
  let payload := ai_payload user (message_in body) (context body) in
  exists um d1,
    messages d1 = messages (db w) ++ [um] /\ user_message body um /\
    match read_response (env_ai env payload) with
    | Raise e =>
        exists w', chat_send py_repr env body user w = (Raise e, w') /\
                   db w' = d1 /\ ai_calls w' = ai_calls w ++ [payload]
    | Ok data =>
        exists r am w',
          chat_send py_repr env body user w = (r, w') /\
          messages (db w') = messages d1 ++ [am] /\
          ai_message (reply_text_of py_repr data) am /\
          ai_calls w' = ai_calls w ++ [payload] /\
          match as_dicts (suggested_actions_of data) with
          | Some acts =>
              exists out, r = Ok out /\
                          reply out = reply_text_of py_repr data /\
                          suggested_actions out = acts
          | None => r = Raise ValidationError
          end
    end.
Proof.
  intros Hok payload. subst payload.
  destruct (get_or_create_conversation_runs (user_id user) (env_conv_ts env)
              (db w)) as (c & d0 & Hc & Hm0).
  destruct (store_message_runs (conv_id c) "user" (Some (message_in body))
              (if context_truthy (context body)
               then Some [("context", JObj (default [] (context body)))]
               else None) (env_user_ts env) d0) as (um & d1 & Hs & Hid & Hm1).
  eexists _, d1. split; [by rewrite Hm1, Hm0|]. split; [done|].
  destruct (check _ _ _) as [[[]|?] l1] eqn:Hcheck; simpl in Hok; [|done].
  destruct (read_response _) as [data|e] eqn:Hresp.
  - destruct (store_message_runs (conv_id c) "ai"
                (Some (reply_text_of py_repr data))
                (match suggested_actions_of data with
                 | [] => None
                 | _ :: _ =>
                     Some [("suggested_actions",
                            JArr (suggested_actions_of data))]
                 end) (env_ai_ts env) d1) as (am & d2 & Hs2 & Hid2 & Hm2).
    run_to_ai Hcheck Hc Hs Hresp.
    unfold bind at 1, zoom at 1. cbn [db log_ai_call set_db]. rewrite Hs2.
    unfold bind at 1. cbn [subscript ret]. unfold bind at 1. cbn [subscript ret].
    unfold make_ChatSendOut.
    destruct (as_dicts (suggested_actions_of data)) as [acts|];
      eexists _, _, _; (split; [reflexivity|]);
      cbn [snd fst db ai_calls set_db log_ai_call set_rate_limiter];
      (split; [exact Hm2|]); (split; [done|]); (split; [done|]).
    + by eexists.
    + done.
  - run_to_ai Hcheck Hc Hs Hresp.
    eexists. split; [reflexivity|]. done.
Qed.

(** *** The answer of the AI service *)

Lemma read_response_refused resp :
  refused_answer resp ->
  exists e, read_response resp = Raise e /\ UpstreamError e.
Proof.
  destruct resp as [|c body]; simpl; [done|].
  destruct (Z.leb_spec 400 c) as [?|Hc]; [by eexists|].
  intros [?|H]; [lia|].
  destruct body as [[]|]; try done; try by eexists.
  unfold dict_has. rewrite H. by eexists.
Qed.

(** The answers that are read as they are: a status below 400 and an object
    with a [reply] field, whatever its value. *)
Lemma read_response_object status_code data v :
  status_code < 400 -> dict_get "reply" data = Some v ->
  read_response (Response status_code (Some (JObj data))) = Ok data.
Proof.
  intros Hc Hv. simpl. destruct (Z.leb_spec 400 status_code); [lia|].
  unfold dict_has. by rewrite Hv.
Qed.

(** A refused answer: HTTP 502, the user's message stays, no AI message. *)
Lemma chat_send_upstream_error py_repr env body user w :
  fst (check (user_id user) (env_time env) (rate_limiter w)) = Ok tt ->
  refused_answer
    (env_ai env (ai_payload user (message_in body) (context body))) ->
  exists e w' um,
    chat_send py_repr env body user w = (Raise e, w') /\
    UpstreamError e /\
    messages (db w') = messages (db w) ++ [um] /\ user_message body um.
Proof.
  intros Hok Hbad.
  destruct (chat_send_passed py_repr env body user w Hok)
    as (um & d1 & Hm & Hum & Hrun).
  destruct (read_response_refused _ Hbad) as (e & He & Hup).
  rewrite He in Hrun. destruct Hrun as (w' & Hrun & Hdb & _).
  exists e, w', um. by rewrite Hdb.
Qed.

(** An answer that is read: the AI's message is the one message stored after
    the user's, also when the response model then rejects the suggested
    actions. *)
Lemma chat_send_answered py_repr env body user w data :
  fst (check (user_id user) (env_time env) (rate_limiter w)) = Ok tt ->
  read_response
    (env_ai env (ai_payload user (message_in body) (context body))) = Ok data ->
  exists r w' um am,
    chat_send py_repr env body user w = (r, w') /\
    messages (db w') = messages (db w) ++ [um; am] /\
    user_message body um /\ ai_message (reply_text_of py_repr data) am /\
    match as_dicts (suggested_actions_of data) with
    | Some acts =>
        exists out, r = Ok out /\ reply out = reply_text_of py_repr data /\
                    suggested_actions out = acts
    | None => r = Raise ValidationError
    end.
Proof.
  intros Hok Hdata.
  destruct (chat_send_passed py_repr env body user w Hok)
    as (um & d1 & Hm & Hum & Hrun).
  rewrite Hdata in Hrun.
  destruct Hrun as (r & am & w' & Hrun & Hm' & Ham & _ & Hr).
  exists r, w', um, am. split_and!; try done.
  by rewrite Hm', Hm, <- app_assoc.
Qed.

(** C2, where the code departs from it.  When the connection to the AI
    service fails or times out, or the answer has a status below 400 and a
    body that is not JSON, the send fails, the user's message stays stored
    and no AI message is stored; but what is raised is the exception of the
    HTTP client or of the JSON decoder, which nothing turns into HTTP 502. *)
Theorem chat_send_undecoded_answer_not_upstream
  (py_repr : json -> string) (env : send_env) (body : ChatSendIn)
  (user : AuthUser) (w : world) :
  fst (check (user_id user) (env_time env) (rate_limiter w)) = Ok tt ->
  let resp := env_ai env (ai_payload user (message_in body) (context body)) in
  resp = ConnectionFailed \/
  (exists status_code, status_code < 400 /\ resp = Response status_code None) ->
  exists e w' um,
    chat_send py_repr env body user w = (Raise e, w') /\
    (e = TransportError \/ e = JSONDecodeError) /\
    ~ UpstreamError e /\
    messages (db w') = messages (db w) ++ [um] /\ user_message body um.
Proof.
  intros Hok resp Hresp.
  destruct (chat_send_passed py_repr env body user w Hok)
    as (um & d1 & Hm & Hum & Hrun).
  fold resp in Hrun.
  assert (He : exists e, read_response resp = Raise e /\
                         (e = TransportError \/ e = JSONDecodeError)).
  { destruct Hresp as [->|(c & Hc & ->)]; simpl; [by eauto|].
    destruct (Z.leb_spec 400 c); [lia|]. by eauto. }
  destruct He as (e & He & Hkind). rewrite He in Hrun.
  destruct Hrun as (w' & Hrun & Hdb & _).
  exists e, w', um. rewrite Hdb. split_and!; try done.
  by destruct Hkind as [->| ->].
Qed.

(** C2 at a body that is not JSON, on a fresh system. *)
Lemma chat_send_undecoded_answer_not_upstream_witness :
  exists e w' um,
    chat_send no_repr (env_at 0 (Response 200 None)) hello alice fresh_world
      = (Raise e, w') /\
    (e = TransportError \/ e = JSONDecodeError) /\
    ~ UpstreamError e /\
    messages (db w') = messages (db fresh_world) ++ [um] /\
    user_message hello um.
Proof.
  apply (chat_send_undecoded_answer_not_upstream no_repr
           (env_at 0 (Response 200 None)) hello alice fresh_world).
  - reflexivity.
  - right. exists 200. split; [lia | reflexivity].
Defined.

(** The answers of the AI service, one by one, on a fresh system. *)
Example chat_send_by_answer :
  let send := fun answer =>
    fst (chat_send no_repr (env_at 0 answer) hello alice fresh_world) in
  send (Response 503 None) = Raise (HTTPException 502 "AI engine error") /\
  send (Response 200 (Some (JArr []))) =
    Raise (HTTPException 502 "AI engine response invalid") /\
  send (Response 200 (Some (JObj [("answer", JStr "hi")]))) =
    Raise (HTTPException 502 "AI engine response invalid") /\
  send (Response 200 None) = Raise JSONDecodeError /\
  send ConnectionFailed = Raise TransportError /\
  is_ok (send answer_ok) = true.
Proof. by vm_compute. Qed.

(** *** C10: what of the answer is checked *)

Lemma as_dicts_objects items :
  Forall is_object items -> exists acts, as_dicts items = Some acts.
Proof.
  induction 1 as [|v items Hv _ [acts IH]]; simpl; [by eexists|].
  destruct v; try done. rewrite IH. by eexists.
Qed.

(** What of C10 holds of every answer.  When the answer has a status below
    400 and is an object with a [reply] field of any type, the send does not
    fail with HTTP 502: the user's message and then an AI message whose text
    is [str(reply)] are stored.  When moreover the suggested actions that
    are kept are all objects, the send succeeds and returns [str(reply)]. *)
Lemma chat_send_reply_coerced
  (py_repr : json -> string) (env : send_env) (body : ChatSendIn)
  (user : AuthUser) (w : world) (status_code : Z) (data : dict) (v : json) :
  fst (check (user_id user) (env_time env) (rate_limiter w)) = Ok tt ->
  env_ai env (ai_payload user (message_in body) (context body)) =
    Response status_code (Some (JObj data)) ->
  status_code < 400 ->
  dict_get "reply" data = Some v ->
  exists r w' um am,
    chat_send py_repr env body user w = (r, w') /\
    messages (db w') = messages (db w) ++ [um; am] /\
    user_message body um /\ ai_message (py_str py_repr v) am /\
    (forall e, r = Raise e -> ~ UpstreamError e) /\
    (Forall is_object (suggested_actions_of data) ->
     exists out, r = Ok out /\ reply out = py_str py_repr v).
Proof.
  intros Hok Hresp Hc Hv.
  pose proof (read_response_object status_code data v Hc Hv) as Hread.
  rewrite <- Hresp in Hread.
  destruct (chat_send_answered py_repr env body user w data Hok Hread)
    as (r & w' & um & am & Hrun & Hm & Hum & Ham & Hr).
  assert (Htext : reply_text_of py_repr data = py_str py_repr v)
    by (unfold reply_text_of; by rewrite Hv).
  rewrite Htext in *.
  exists r, w', um, am. split_and!; try done.
  - intros e ->. destruct (as_dicts _).
    + by destruct Hr as (out & ? & _).
    + by simplify_eq.
  - intros Hobj. destruct (as_dicts_objects _ Hobj) as (acts & Hacts).
    rewrite Hacts in Hr. destruct Hr as (out & -> & Hreply & _). eauto.
Qed.

(** A [reply] that is a number, returned as its text. *)
Example chat_send_number_reply :
  let res := chat_send no_repr
               (env_at 0 (Response 200 (Some (JObj [("reply", JInt 42)]))))
               hello alice fresh_world in
  option_map reply (match fst res with Ok out => Some out | Raise _ => None end)
    = Some "42" /\
  map msg_text (messages (db (snd res))) = [Some "hello"; Some "42"].
Proof. by vm_compute. Qed.

Lemma as_dicts_not_objects items :
  Exists (fun a => ~ is_object a) items -> as_dicts items = None.
Proof.
  induction 1 as [a items Ha|a items _ IH]; simpl.
  - by destruct a.
  - destruct a; try done. by rewrite IH.
Qed.

(** C10, where the code departs from it.  The type of [reply] is not
    checked, as C10 says, but a send with such a reply succeeds only when
    the suggested actions are objects, which is not checked either before
    the messages are written.  When the answer has a status below 400 and
    is an object with a [reply] of any type, a string or not, and with a
    list of suggested actions one of which is not an object, the user's
    message and the AI message with the text [str(reply)] are stored, and
    then the send fails: the response model refuses the actions, and what
    is raised is its validation error, which has no HTTP status of the
    service. *)
Theorem chat_send_unchecked_actions_fail
  (py_repr : json -> string) (env : send_env) (body : ChatSendIn)
  (user : AuthUser) (w : world) (status_code : Z) (data : dict) (v : json)
  (items : list json) :
  fst (check (user_id user) (env_time env) (rate_limiter w)) = Ok tt ->
  env_ai env (ai_payload user (message_in body) (context body)) =
    Response status_code (Some (JObj data)) ->
  status_code < 400 ->
  dict_get "reply" data = Some v ->
  dict_get "suggested_actions" data = Some (JArr items) ->
  Exists (fun a => ~ is_object a) items ->
  exists w' um am,
    chat_send py_repr env body user w = (Raise ValidationError, w') /\
    status_of ValidationError = None /\
    messages (db w') = messages (db w) ++ [um; am] /\
    user_message body um /\ ai_message (py_str py_repr v) am.
Proof.
  intros Hok Hresp Hc Hv Hacts Hbad.
  pose proof (read_response_object status_code data v Hc Hv) as Hread.
  rewrite <- Hresp in Hread.
  destruct (chat_send_answered py_repr env body user w data Hok Hread)
    as (r & w' & um & am & Hrun & Hm & Hum & Ham & Hr).
  assert (Htext : reply_text_of py_repr data = py_str py_repr v)
    by (unfold reply_text_of; by rewrite Hv).
  assert (Hkept : suggested_actions_of data = items).
  { unfold suggested_actions_of. rewrite Hacts.
    destruct Hbad; done. }
  rewrite Htext in Ham.
  rewrite Hkept, (as_dicts_not_objects items Hbad) in Hr. subst r.
  by exists w', um, am.
Qed.

(** C10 at the answer [{"reply": null, "suggested_actions": ["x"]}]. *)
Lemma chat_send_unchecked_actions_fail_witness :
  let data := [("reply", JNull); ("suggested_actions", JArr [JStr "x"])] in
  exists w' um am,
    chat_send no_repr (env_at 0 (Response 200 (Some (JObj data))))
      hello alice fresh_world = (Raise ValidationError, w') /\
    status_of ValidationError = None /\
    messages (db w') = messages (db fresh_world) ++ [um; am] /\
    user_message hello um /\ ai_message (py_str no_repr JNull) am.
Proof.
  apply (chat_send_unchecked_actions_fail no_repr
           (env_at 0 (Response 200
                        (Some (JObj [("reply", JNull);
                                     ("suggested_actions", JArr [JStr "x"])]))))
           hello alice fresh_world 200
           [("reply", JNull); ("suggested_actions", JArr [JStr "x"])]
           JNull [JStr "x"]).
  - reflexivity.
  - reflexivity.
  - lia.
  - reflexivity.
  - reflexivity.
  - apply Exists_cons_hd. simpl. tauto.
Defined.

(** The same with a [reply] that is a string: the actions alone make the
    send fail, and both messages are stored before it does. *)
Example chat_send_bad_actions_any_reply :
  let data := [("reply", JStr "hi"); ("suggested_actions", JArr [JStr "x"])] in
  let res := chat_send no_repr (env_at 0 (Response 200 (Some (JObj data))))
               hello alice fresh_world in
  fst res = Raise ValidationError /\
  map msg_text (messages (db (snd res))) = [Some "hello"; Some "hi"].
Proof. by vm_compute. Qed.

(** *** C1: a principal over the limit *)

Lemma within_not_expired window t0 t now :
  within window t0 t -> within window t0 now -> expired window now t = false.
Proof.
  unfold within, expired. intros [H1 H2] [H3 H4].
  apply negb_false_iff, Qle_bool_iff. lra.
Qed.

Lemma evict_none_expired window now q :
  Forall (fun t => expired window now t = false) q -> evict window now q = q.
Proof. destruct 1 as [|t q Ht _]; simpl; [done|]. by rewrite Ht. Qed.

Lemma live_none_expired window now q :
  Forall (fun t => expired window now t = false) q -> live window now q = q.
Proof.
  unfold live. induction 1 as [|t q Ht _ IH]; simpl; [done|].
  by rewrite Ht, IH.
Qed.

Lemma check_refuses key now self :
  limit (_config self) <=
    Z.of_nat (length (live (window_seconds (_config self)) now
                        (events_of self key))) ->
  fst (check key now self) =
    Raise (HTTPException 429 "Rate limit exceeded. Try again later.").
Proof.
  intros Hlive. unfold live in Hlive. rewrite <- evict_keeps_live in Hlive.
  pose proof (filter_length_le
    (fun t => negb (expired (window_seconds (_config self)) now t))
    (evict (window_seconds (_config self)) now (events_of self key))).
  destruct (check_cases key now self) as [[-> _]|[_ Hlt]]; [done | lia].
Qed.

Lemma run_sends_cons py_repr user r reqs w :
  run_sends py_repr user (r :: reqs) w =
  run_sends py_repr user reqs (snd (chat_send py_repr (fst r) (snd r) user w)).
Proof. reflexivity. Qed.

Lemma run_sends_config py_repr user reqs w :
  _config (rate_limiter (run_sends py_repr user reqs w)) =
  _config (rate_limiter w).
Proof.
  revert w. induction reqs as [|r reqs IH]; intros w; [done|].
  by rewrite run_sends_cons, IH, chat_send_limiter, check_config.
Qed.

(** Sends inside one window, while the queue has room, are all recorded. *)
Lemma run_sends_fill_queue py_repr user t0 reqs w :
  let cfg := _config (rate_limiter w) in
  let q0 := events_of (rate_limiter w) (user_id user) in
  Forall (within (window_seconds cfg) t0) q0 ->
  Forall (fun r => within (window_seconds cfg) t0 (env_time (fst r))) reqs ->
  Z.of_nat (length q0 + length reqs) <= limit cfg ->
  events_of (rate_limiter (run_sends py_repr user reqs w)) (user_id user) =
    q0 ++ map (fun r => env_time (fst r)) reqs.
Proof.
  revert w. induction reqs as [|[env body] reqs IH]; intros w cfg q0 Hq Hr Hlen.
  - simpl. by rewrite app_nil_r.
  - apply Forall_cons in Hr as [Ht Hr]. simpl in Ht, Hlen.
    rewrite run_sends_cons; simpl.
    set (w1 := snd (chat_send py_repr env body user w)).
    assert (Hlim : rate_limiter w1 =
                   snd (check (user_id user) (env_time env) (rate_limiter w)))
      by apply chat_send_limiter.
    assert (Hcfg : _config (rate_limiter w1) = cfg)
      by by rewrite Hlim, check_config.
    assert (Hq1 : events_of (rate_limiter w1) (user_id user) =
                  q0 ++ [env_time env]).
    { rewrite Hlim.
      destruct (check_cases (user_id user) (env_time env) (rate_limiter w))
        as [[_ Hge]|[-> _]].
      - fold cfg in Hge. fold q0 in Hge.
        rewrite evict_none_expired in Hge; [lia|].
        eapply Forall_impl; [exact Hq|]. intros t Hin.
        by eapply within_not_expired.
      - simpl. rewrite events_of_set, decide_True by done.
        fold cfg q0. rewrite evict_none_expired; [done|].
        eapply Forall_impl; [exact Hq|]. intros t Hin.
        by eapply within_not_expired. }
    rewrite IH; rewrite ?Hcfg, ?Hq1.
    + by rewrite <- app_assoc.
    + apply Forall_app. split; [done|]. by constructor.
    + done.
    + rewrite length_app; simpl. lia.
Qed.

(** C1. A send by [user] that follows the sends [reqs] of the same principal
    fails with HTTP 429, leaves the database as it is (no conversation, no
    message) and does not reach the AI service, in each of these cases:
    - the queue of the principal then holds at least [limit] events that the
      window still covers;
    - the principal started from an empty queue, [reqs] are exactly [limit]
      sends, and they and this send all fall in one stretch of
      [window_seconds] (with the configured 20 per 60 s: the 21st send within
      60 seconds). *)
Theorem chat_send_over_limit_refused
  (py_repr : json -> string) (user : AuthUser)
  (reqs : list (send_env * ChatSendIn)) (env : send_env) (body : ChatSendIn)
  (w : world) :
  let cfg := _config (rate_limiter w) in
  let w1 := run_sends py_repr user reqs w in
  limit cfg <=
    Z.of_nat (length (live (window_seconds cfg) (env_time env)
                        (events_of (rate_limiter w1) (user_id user)))) \/
  (events_of (rate_limiter w) (user_id user) = [] /\
   Z.of_nat (length reqs) = limit cfg /\
   exists t0,
     Forall (fun r => within (window_seconds cfg) t0 (env_time (fst r)))
       (reqs ++ [(env, body)])) ->
  exists e w',
    chat_send py_repr env body user w1 = (Raise e, w') /\
    RateLimited e /\
    db w' = db w1 /\
    ai_calls w' = ai_calls w1.
Proof.
  intros cfg w1 H.
  assert (Hcfg : _config (rate_limiter w1) = cfg) by apply run_sends_config.
  assert (Hlive : limit cfg <=
    Z.of_nat (length (live (window_seconds cfg) (env_time env)
                        (events_of (rate_limiter w1) (user_id user))))).
  { destruct H as [H|(Hq0 & Hlen & t0 & Hall)]; [done|].
    apply Forall_app in Hall as [Hreqs Henv].
    apply Forall_inv in Henv; simpl in Henv.
    unfold w1. rewrite (run_sends_fill_queue py_repr user t0); fold cfg.
    - rewrite Hq0; simpl. rewrite live_none_expired.
      + rewrite length_map. lia.
      + apply Forall_map. eapply Forall_impl; [exact Hreqs|]. simpl.
        intros r Hr. by eapply within_not_expired.
    - rewrite Hq0. constructor.
    - done.
    - rewrite Hq0; simpl. lia. }
  rewrite <- Hcfg in Hlive. apply check_refuses in Hlive.
  eexists _, _. split; [by apply chat_send_refused|]. done.
Qed.

(** C1 on the configured limiter: twenty sends between second 0 and second
    57, then the twenty-first at second 60. *)
Lemma chat_send_over_limit_refused_witness :
  let w1 := run_sends no_repr alice twenty_sends fresh_world in
  exists e w',
    chat_send no_repr (env_at 60 answer_ok) hello alice w1 = (Raise e, w') /\
    RateLimited e /\
    db w' = db w1 /\
    ai_calls w' = ai_calls w1.
Proof.
  apply (chat_send_over_limit_refused no_repr alice twenty_sends
           (env_at 60 answer_ok) hello fresh_world).
  right. split; [reflexivity|]. split; [reflexivity|].
  exists 0%Q. simpl.
  repeat (apply Forall_cons; split; [split; vm_compute; discriminate|]).
  apply Forall_nil. exact I.
Defined.

(** One second later the first of the twenty events has left the window, and
    the send goes through. *)
Example chat_send_after_window_passes :
  let w1 := run_sends no_repr alice twenty_sends fresh_world in
  is_ok (fst (chat_send no_repr (env_at 60 answer_ok) hello alice w1)) = false /\
  is_ok (fst (chat_send no_repr (env_at 61 answer_ok) hello alice w1)) = true /\
  length (messages (db w1)) = 40%nat.
Proof. by vm_compute. Qed.

(** *** C3: a page of history *)

Lemma StronglySorted_rev {A} (R : A -> A -> Prop) (l : list A) :
  StronglySorted R l -> StronglySorted (flip R) (rev l).
Proof.
  induction 1 as [|x l Hl IH Hx]; simpl; [constructor|].
  apply StronglySorted_app_2; [|done|repeat constructor].
  intros x1 x2 H1 H2. apply list_elem_of_singleton in H2 as ->.
  unfold flip. rewrite Forall_forall in Hx. apply Hx.
  apply list_elem_of_In, in_rev. by apply list_elem_of_In.
Qed.

Lemma page_most_recent (n : nat) (l : list message) :
  let s := sort_desc (fun m => Z.of_N (msg_id m)) l in
  most_recent n l (rev (firstn n s)) (skipn n s).
Proof.
  intros s.
  assert (Hperm : s ≡ₚ l) by apply sort_desc_perm.
  assert (Hsorted : StronglySorted (ge_key (fun m => Z.of_N (msg_id m))) s)
    by apply sort_desc_sorted.
  rewrite <- (firstn_skipn n s) in Hsorted.
  split.
  - rewrite <- Hperm. rewrite <- (firstn_skipn n s) at 1.
    rewrite Permutation_app_comm. by rewrite <- Permutation_rev.
  - rewrite length_rev, length_firstn. by rewrite (Permutation_length Hperm).
  - intros o m Ho Hm. apply in_rev in Hm.
    apply list_elem_of_In in Ho, Hm.
    pose proof (StronglySorted_app_1_elem_of _ _ _ _ _ Hsorted Hm Ho) as H.
    unfold ge_key in H. lia.
  - apply StronglySorted_app_1_l in Hsorted.
    apply StronglySorted_rev in Hsorted.
    eapply StronglySorted_weaken; [|exact Hsorted].
    unfold flip, ge_key. intros; lia.
Qed.

Lemma limit_docs_firstn {A} (limit : Z) (l : list A) :
  1 <= limit -> limit_docs limit l = firstn (Z.to_nat limit) l.
Proof.
  intros H. unfold limit_docs. destruct (Z.eqb_spec limit 0); [lia|].
  f_equal. lia.
Qed.

Lemma history_query_spec conv before m :
  (forall c, before = Some c -> (c < 2 ^ 96)%N) ->
  history_query conv before m = true <-> in_history conv before m.
Proof.
  intros Hbound. unfold history_query, in_history.
  rewrite andb_true_iff, String.eqb_eq.
  destruct before as [c|].
  - rewrite (UtilsFacts.id_ltb_lt _ c (Hbound c eq_refl)).
    split; intros [? H]; split; try done.
    + by intros ? [= <-].
    + by apply H.
  - split; intros [? _]; split; done.
Qed.

Lemma cursor_filter_absent :
  cursor_filter None = Ok None /\ cursor_filter (Some "") = Ok None.
Proof. done. Qed.

(** A cursor that is a message id bounds the page by that id. *)
Lemma cursor_filter_id (c : ObjectId) :
  (c < 2 ^ 96)%N -> cursor_filter (Some (str_oid c)) = Ok (Some c).
Proof.
  intros Hc. unfold cursor_filter.
  destruct (String.eqb_spec (str_oid c) "") as [H|_].
  - by apply UtilsFacts.str_oid_not_empty in H.
  - by rewrite UtilsFacts.oid_str_oid.
Qed.

Lemma cursor_bound_filter cursor before :
  cursor_bound cursor before ->
  cursor_filter cursor = Ok before /\
  forall c, before = Some c -> (c < 2 ^ 96)%N.
Proof.
  intros [| |c Hc]; [done..|]. split; [by apply cursor_filter_id|].
  by intros ? [= <-].
Qed.

(** A cursor that [oid] refuses is rejected with HTTP 400 (when the user
    has a conversation). *)
Lemma cursor_filter_malformed s :
  s <> "" -> is_ok (oid s) = false ->
  exists e, cursor_filter (Some s) = Raise e /\ InvalidInput e.
Proof.
  intros Hs Hoid. unfold cursor_filter.
  destruct (String.eqb_spec s ""); [done|].
  destruct (oid s) as [i|e] eqn:E; [done|].
  exists e. split; [done|]. by rewrite (UtilsFacts.oid_raises _ _ E).
Qed.

Lemma filter_complement {A} (p : A -> bool) (l : list A) :
  l ≡ₚ List.filter (fun x => negb (p x)) l ++ List.filter p l.
Proof.
  induction l as [|x l IH]; simpl; [done|].
  destruct (p x); simpl.
  - rewrite <- Permutation_middle. by constructor.
  - by constructor.
Qed.

Lemma map_shown_as (l : list message) : Forall2 shown_as l (map message_out l).
Proof. induction l; simpl; constructor; done. Qed.

(** C3. For a page size [limit] in 1..100 and a cursor that is absent (or
    empty) or the string of a message id:
    - when the user has no conversation, the page is empty, with an empty
      conversation id and no next cursor;
    - otherwise the conversation [conv] is one of the user's with the latest
      [last_message_at].  The stored messages are those of [conv] whose id
      is strictly below the cursor, [older] and [page], and all [others];
      [page] holds the [limit] of the former with the greatest ids (all of
      them when there are fewer), in increasing order of id, and the
      response shows these messages one by one, each with its id, sender,
      text, payload and time; [next_cursor] is the id of the first, oldest
      message of the page when the page holds exactly [limit] messages, and
      null otherwise. *)
Theorem chat_history_page
  (user : AuthUser) (limit : Z) (cursor : option string)
  (before : option ObjectId) (d : database) :
  1 <= limit <= 100 ->
  cursor_bound cursor before ->
  let mine := fun c => conv_user_id c = user_id user in
  ((forall c, In c (conversations d) -> ~ mine c) ->
   chat_history user limit cursor d =
     Ok {| history_conversation_id := ""; history_user_id := user_id user;
           messages_out := []; next_cursor := None |}) /\
  ((exists c, In c (conversations d) /\ mine c) ->
   exists conv page older others out,
     chat_history user limit cursor d = Ok out /\
     (In conv (conversations d) /\ mine conv /\
      forall c, In c (conversations d) -> mine c ->
                conv_last_message_at c <= conv_last_message_at conv) /\
     history_conversation_id out = str_oid (conv_id conv) /\
     history_user_id out = user_id user /\
     Forall2 shown_as page (messages_out out) /\
     messages d ≡ₚ others ++ older ++ page /\
     Forall (in_history conv before) (older ++ page) /\
     Forall (fun m => ~ in_history conv before m) others /\
     most_recent (Z.to_nat limit) (older ++ page) page older /\
     ((Z.of_nat (length page) = limit /\
       exists oldest rest, page = oldest :: rest /\
                           next_cursor out = Some (str_oid (msg_id oldest))) \/
      (Z.of_nat (length page) <> limit /\ next_cursor out = None))).
Proof.
  intros Hlimit Hbound mine.
  apply cursor_bound_filter in Hbound as [Hcursor Hbound].
  unfold chat_history. split.
  - intros Hnone.
    assert (H : find_one_desc (fun c => String.eqb (conv_user_id c) (user_id user))
              conv_last_message_at (conversations d) = None).
    { apply find_one_desc_None. intros c Hc. apply String.eqb_neq.
      by apply Hnone. }
    by rewrite H.
  - intros (c0 & Hc0 & Hmine0).
    destruct (find_one_desc _ _ _) as [conv|] eqn:Hconv.
    2: { rewrite find_one_desc_None in Hconv. specialize (Hconv c0 Hc0).
         apply String.eqb_neq in Hconv. done. }
    apply find_one_desc_Some in Hconv as (Hin & Hp & Hmax).
    apply String.eqb_eq in Hp.
    rewrite Hcursor. unfold history_docs.
    rewrite limit_docs_firstn by lia.
    set (l := List.filter (history_query conv before) (messages d)).
    pose proof (page_most_recent (Z.to_nat limit) l) as Hpage.
    simpl in Hpage.
    set (page := rev (firstn (Z.to_nat limit)
                        (sort_desc (fun m => Z.of_N (msg_id m)) l))) in *.
    set (older := skipn (Z.to_nat limit)
                    (sort_desc (fun m => Z.of_N (msg_id m)) l)) in *.
    pose proof (recent_split _ _ _ _ Hpage) as Hsplit.
    eexists conv, page, older,
      (List.filter (fun m => negb (history_query conv before m)) (messages d)),
      _.
    split; [reflexivity|]. simpl.
    split_and!; try done.
    + intros c Hc Hm. apply Hmax; [done|]. by apply String.eqb_eq.
    + apply map_shown_as.
    + rewrite <- Hsplit. apply filter_complement.
    + rewrite <- Hsplit. apply Forall_forall. intros m Hm.
      apply list_elem_of_In, filter_In in Hm as [_ Hm].
      by apply history_query_spec.
    + apply Forall_forall. intros m Hm.
      apply list_elem_of_In, filter_In in Hm as [_ Hm].
      rewrite <- (history_query_spec conv before m Hbound).
      by destruct (history_query conv before m).
    + destruct Hpage as [_ Hlen Hnewer Hchrono]. split; try done.
      by rewrite Hlen, (Permutation_length Hsplit).
    + destruct (Z.eqb_spec (Z.of_nat (length page)) limit) as [Heq|Hne].
      * left. split; [done|]. destruct page as [|m0 rest]; simpl in *; [lia|].
        by eexists _, _.
      * right. split; [done|]. by destruct page.
Qed.

(** C3 on a conversation of five messages, page size 2, cursor at the
    message with id 5. *)
Lemma chat_history_page_witness :
  let user := alice in
  let limit := 2 in
  let cursor := Some (str_oid 5%N) in
  let before := Some 5%N in
  let d := five_messages in
  let mine := fun c => conv_user_id c = user_id user in
  ((forall c, In c (conversations d) -> ~ mine c) ->
   chat_history user limit cursor d =
     Ok {| history_conversation_id := ""; history_user_id := user_id user;
           messages_out := []; next_cursor := None |}) /\
  ((exists c, In c (conversations d) /\ mine c) ->
   exists conv page older others out,
     chat_history user limit cursor d = Ok out /\
     (In conv (conversations d) /\ mine conv /\
      forall c, In c (conversations d) -> mine c ->
                conv_last_message_at c <= conv_last_message_at conv) /\
     history_conversation_id out = str_oid (conv_id conv) /\
     history_user_id out = user_id user /\
     Forall2 shown_as page (messages_out out) /\
     messages d ≡ₚ others ++ older ++ page /\
     Forall (in_history conv before) (older ++ page) /\
     Forall (fun m => ~ in_history conv before m) others /\
     most_recent (Z.to_nat limit) (older ++ page) page older /\
     ((Z.of_nat (length page) = limit /\
       exists oldest rest, page = oldest :: rest /\
                           next_cursor out = Some (str_oid (msg_id oldest))) \/
      (Z.of_nat (length page) <> limit /\ next_cursor out = None))).
Proof.
  apply (chat_history_page alice 2 (Some (str_oid 5%N)) (Some 5%N)
           five_messages).
  - lia.
  - apply cursor_id. reflexivity.
Defined.

(** The two most recent of five messages, then the two before them. *)
Example chat_history_two_pages :
  chat_history alice 2 None five_messages =
    Ok {| history_conversation_id := "000000000000000000000001";
          history_user_id := "alice";
          messages_out :=
            map message_out (firstn 2 (skipn 3 (messages five_messages)));
          next_cursor := Some "000000000000000000000005" |} /\
  chat_history alice 2 (Some "000000000000000000000005") five_messages =
    Ok {| history_conversation_id := "000000000000000000000001";
          history_user_id := "alice";
          messages_out :=
            map message_out (firstn 2 (skipn 1 (messages five_messages)));
          next_cursor := Some "000000000000000000000003" |}.
Proof. split; vm_compute; reflexivity. Qed.

End ChatFacts.

(** ** Orders *)

Module OrderFacts.
Import Orders Scenarios Samples MongoFacts StoreFacts Props.
#[local] Arguments str_oid : simpl never.

Lemma str_in_In r l : str_in r l = true <-> In r l.
Proof.
  unfold str_in. rewrite existsb_exists. split.
  - intros (x & Hx & Heq). apply String.eqb_eq in Heq. by subst.
  - intros H. exists r. split; [done|]. apply String.eqb_refl.
Qed.

Lemma can_install_eligible pincode e :
  can_install pincode e = true <-> eligible pincode e.
Proof.
  unfold can_install, eligible.
  rewrite !andb_true_iff, !str_in_In, String.eqb_eq. tauto.
Qed.

Lemma can_install_not_eligible pincode e :
  can_install pincode e = false <-> ~ eligible pincode e.
Proof.
  rewrite <- can_install_eligible. by destruct (can_install pincode e).
Qed.

Section ById.
Context {A : Type} (id : A -> ObjectId).

Lemma find_one_fresh bound l :
  Forall (fun x => (id x < bound)%N) l ->
  find_one (fun x => N.eqb (id x) bound) l = None.
Proof.
  intros Hall. apply find_one_None. intros y Hy.
  rewrite Forall_forall in Hall. apply list_elem_of_In in Hy.
  apply Hall in Hy. apply N.eqb_neq. lia.
Qed.

Lemma find_one_unique l x :
  NoDup (map id l) -> In x l ->
  find_one (fun y => N.eqb (id y) (id x)) l = Some x.
Proof.
  unfold find_one. induction l as [|y l IH]; simpl; [done|].
  intros Hnd Hin. apply NoDup_cons in Hnd as [Hy Hnd].
  destruct Hin as [->|Hin]; [by rewrite N.eqb_refl|].
  destruct (N.eqb_spec (id y) (id x)) as [Heq|_]; [|by apply IH].
  exfalso. apply Hy. rewrite Heq. apply list_elem_of_In, in_map.
  done.
Qed.

(** Looking up [i] after the document with id [j] was updated. *)
Lemma find_one_update_one (f : A -> A) l i j :
  (forall x, id (f x) = id x) ->
  find_one (fun x => N.eqb (id x) i)
    (update_one (fun x => N.eqb (id x) j) f l) =
  if N.eqb j i then option_map f (find_one (fun x => N.eqb (id x) i) l)
  else find_one (fun x => N.eqb (id x) i) l.
Proof.
  intros Hf. unfold find_one. induction l as [|y l IH]; simpl.
  - by destruct (N.eqb j i).
  - destruct (N.eqb_spec (id y) j) as [Hj|Hj]; simpl.
    + rewrite Hf. destruct (N.eqb_spec (id y) i) as [Hi|Hi].
      * subst. by rewrite N.eqb_refl.
      * subst. destruct (N.eqb_spec (id y) i); done.
    + destruct (N.eqb_spec (id y) i) as [Hi|Hi]; [|done].
      subst. destruct (N.eqb_spec j (id y)); [by subst | done].
Qed.
End ById.

(** The effect of [create_order] once the plan is found. *)
Lemma create_order_runs ts body user d plan_oid :
  oid (plan_id_in body) = Ok plan_oid ->
  forall p,
  find_one (fun p => N.eqb (plan_id p) plan_oid &&
                     String.eqb (plan_status p) "ACTIVE") (plans d) = Some p ->
  let engineer := _pick_engineer_for_area d (pincode body) in
  let doc := order_doc ts body user p (option_map eng_id engineer) (next_oid d) in
  exists d',
    create_order ts body user d =
      (match find_one (fun o => N.eqb (order_id o) (next_oid d))
               (orders d ++ [doc]) with
       | Some o => Ok (order_out o)
       | None => Raise TypeError
       end, d') /\
    orders d' = orders d ++ [doc] /\
    engineers d' =
      match engineer with
      | Some e => update_one (fun x => N.eqb (eng_id x) (eng_id e))
                    (assign_one ts) (engineers d)
      | None => engineers d
      end /\
    plans d' = plans d /\ tickets d' = tickets d /\
    conversations d' = conversations d /\ messages d' = messages d /\
    next_oid d' = N.succ (next_oid d).
Proof.
  intros Hoid p Hp engineer doc.
  unfold create_order. unfold bind at 1, lift at 1. rewrite Hoid.
  unfold bind at 1, gets at 1. rewrite Hp.
  unfold bind at 1, gets at 1. fold engineer.
  unfold insert_one, bind, fresh_oid, modify, gets, ret. simpl.
  fold doc.
  destruct engineer as [e|]; simpl;
    (destruct (find_one _ (orders d ++ [doc])); simpl; eexists; split_and!; done).
Qed.

Lemma create_order_ok_inv ts body user d out d' :
  create_order ts body user d = (Ok out, d') ->
  exists plan_oid p,
    oid (plan_id_in body) = Ok plan_oid /\
    find_one (fun p => N.eqb (plan_id p) plan_oid &&
                       String.eqb (plan_status p) "ACTIVE") (plans d) = Some p.
Proof.
  unfold create_order. unfold bind at 1, lift at 1.
  destruct (oid (plan_id_in body)) as [plan_oid|e]; [|done].
  unfold bind at 1, gets at 1.
  destruct (find_one _ (plans d)) as [p|] eqn:Hp; [|done].
  intros _. by exists plan_oid, p.
Qed.

Lemma wf_order_fresh d doc :
  wf_db d -> order_id doc = next_oid d ->
  find_one (fun o => N.eqb (order_id o) (next_oid d)) (orders d ++ [doc]) =
    Some doc.
Proof.
  intros (_ & _ & [_ Hlt] & _) Hid.
  rewrite find_one_app, (find_one_fresh order_id) by done.
  by rewrite Hid, N.eqb_refl.
Qed.

(** C4. When the plan of the request exists and is ACTIVE, the order is
    created, with status [scheduled]; if some engineer is ACTIVE, has the
    skill "install" and serves the pincode, the order is assigned to such an
    engineer whose workload is the least among them; if there is none, the
    order has no assigned engineer. *)
Theorem create_order_assigns_least_loaded
  (ts : datetime) (body : OrderCreateIn) (user : AuthUser) (d : database) :
  wf_db d ->
  (exists p, In p (plans d) /\ oid (plan_id_in body) = Ok (plan_id p) /\
             plan_status p = "ACTIVE") ->
  exists out d' o,
    create_order ts body user d = (Ok out, d') /\
    orders d' = orders d ++ [o] /\ out = order_out o /\
    status out = "scheduled" /\
    ((exists e, In e (engineers d) /\ eligible (pincode body) e) ->
     exists e, In e (engineers d) /\ eligible (pincode body) e /\
               assigned_engineer_id out = Some (str_oid (eng_id e)) /\
               forall e', In e' (engineers d) -> eligible (pincode body) e' ->
                          eng_workload e <= eng_workload e') /\
    ((forall e, In e (engineers d) -> ~ eligible (pincode body) e) ->
     assigned_engineer_id out = None).
Proof.
  intros Hwf (p0 & Hin0 & Hoid & Hactive).
  destruct (find_one (fun p => N.eqb (plan_id p) (plan_id p0) &&
                               String.eqb (plan_status p) "ACTIVE") (plans d))
    as [p|] eqn:Hp.
  2: { rewrite find_one_None in Hp. specialize (Hp p0 Hin0).
       by rewrite N.eqb_refl, Hactive in Hp. }
  destruct (create_order_runs ts body user d _ Hoid p Hp)
    as (d' & Hrun & Horders & _).
  rewrite wf_order_fresh in Hrun by done.
  eexists _, d', _. split; [exact Hrun|]. split; [exact Horders|].
  split; [done|]. simpl.
  unfold _pick_engineer_for_area.
  destruct (find_one_asc (can_install (pincode body)) eng_workload (engineers d))
    as [e|] eqn:He; simpl.
  - apply find_one_asc_Some in He as (Hin & Hcan & Hmin).
    split_and!; [done| |].
    + intros _. exists e. split_and!; [done| by apply can_install_eligible |done|].
      intros e' Hin' Hel. apply Hmin; [done|]. by apply can_install_eligible.
    + intros Hnone. apply can_install_eligible in Hcan. by apply Hnone in Hcan.
  - rewrite find_one_asc_None in He. split_and!; [done| |done].
    intros (e & Hin & Hel). apply can_install_eligible in Hel.
    by rewrite (He e Hin) in Hel.
Qed.

(** C8. A successful [create_order] appends one order and leaves the plans,
    tickets, conversations and messages as they are.  When the order has no
    assigned engineer, the engineers are left as they are; when it has one,
    exactly that engineer's document changes: its workload is one more, its
    [updated_at] is the creation time, and nothing else in it changes. *)
Theorem create_order_frame
  (ts : datetime) (body : OrderCreateIn) (user : AuthUser) (d : database) :
  wf_db d ->
  is_ok (fst (create_order ts body user d)) = true ->
  let d' := snd (create_order ts body user d) in
  exists out o,
    fst (create_order ts body user d) = Ok out /\
    orders d' = orders d ++ [o] /\ out = order_out o /\
    plans d' = plans d /\ tickets d' = tickets d /\
    conversations d' = conversations d /\ messages d' = messages d /\
    match assigned_engineer_id out with
    | None => engineers d' = engineers d
    | Some s =>
        exists e e' l1 l2,
          s = str_oid (eng_id e) /\
          engineers d = l1 ++ e :: l2 /\ engineers d' = l1 ++ e' :: l2 /\
          eng_workload e' = eng_workload e + 1 /\ eng_updated_at e' = ts /\
          eng_id e' = eng_id e /\ eng_name e' = eng_name e /\
          eng_skills e' = eng_skills e /\ eng_areas e' = eng_areas e /\
          eng_status e' = eng_status e
    end.
Proof.
  intros Hwf Hok d'. subst d'.
  destruct (create_order ts body user d) as [[out|?] d'] eqn:Hrun; [|done].
  clear Hok. cbn [fst snd].
  destruct (create_order_ok_inv _ _ _ _ _ _ Hrun) as (plan_oid & p & Hoid & Hp).
  destruct (create_order_runs ts body user d _ Hoid p Hp)
    as (d1 & Hrun1 & Horders & Heng & ? & ? & ? & ? & _).
  rewrite wf_order_fresh in Hrun1 by done.
  rewrite Hrun1 in Hrun. simplify_eq.
  eexists _, _. split; [done|]. split; [done|]. split; [done|].
  split_and!; try done.
  simpl. unfold _pick_engineer_for_area in *.
  destruct (find_one_asc (can_install (pincode body)) eng_workload (engineers d))
    as [e|] eqn:He; simpl; [|done].
  apply find_one_asc_Some in He as (Hin & _ & _).
  destruct Hwf as (_ & [Hnd _] & _).
  pose proof (find_one_unique eng_id _ e Hnd Hin) as Hfind.
  destruct (update_one_split _ (assign_one ts) _ _ Hfind)
    as (l1 & l2 & Hl & Hl' & _).
  exists e, (assign_one ts e), l1, l2. rewrite Heng, Hl'.
  by split_and!.
Qed.

(** *** Status updates *)

Lemma set_orders_same d : set_orders (fun _ => orders d) d = d.
Proof. by destruct d. Qed.

Lemma update_order_status_forbidden ts order_id_in body user d :
  any_role ["admin"; "agent"; "engineer"] user = false ->
  exists e, update_order_status ts order_id_in body user d = (Raise e, d) /\
            Forbidden e.
Proof.
  intros Hrole. unfold update_order_status, require_roles, bind.
  rewrite Hrole. by eexists.
Qed.

(** The effect of [update_order_status] by a staff member, for a known
    status label and a well-formed id. *)
Lemma update_order_status_runs ts order_id_in body user d i :
  any_role ["admin"; "agent"; "engineer"] user = true ->
  In (status_in body) allowed ->
  oid order_id_in = Ok i ->
  update_order_status ts order_id_in body user d =
    match find_one (fun o => N.eqb (order_id o) i) (orders d) with
    | Some o =>
        (Ok (order_out (set_status (status_in body) ts o)),
         set_orders (fun _ => update_one (fun o => N.eqb (order_id o) i)
                                (set_status (status_in body) ts) (orders d)) d)
    | None => (Raise (HTTPException 404 "Order not found"), d)
    end.
Proof.
  intros Hrole Hst Hoid. unfold update_order_status, require_roles.
  rewrite Hrole. unfold bind at 1, ret at 1.
  apply str_in_In in Hst. rewrite Hst. cbn [negb].
  unfold bind at 1, lift at 1. rewrite Hoid.
  unfold bind, find_one_and_update.
  destruct (find_one _ (orders d)) as [o|] eqn:Ho; simpl; [done|].
  by rewrite update_one_none, set_orders_same.
Qed.

(** C6. For a caller with one of the roles admin, agent, engineer:
    - a status label outside the four known ones is rejected with HTTP 400
      and nothing changes;
    - with one of the four labels and an id that no order has, the update
      fails with HTTP 404 and nothing changes;
    - with one of the four labels and the id of an order, whatever the status
      of that order, the update succeeds: the order gets the new status, its
      timeline gets the one entry [{status, now, "staff"}] at its end, its
      [updated_at] is set, the rest of it and the other orders are as they
      were. *)
Theorem update_order_status_any_label
  (ts : datetime) (order_id_in : string) (body : OrderStatusUpdateIn)
  (user : AuthUser) (d : database) :
  wf_db d ->
  any_role ["admin"; "agent"; "engineer"] user = true ->
  (~ In (status_in body) allowed ->
   exists e, update_order_status ts order_id_in body user d = (Raise e, d) /\
             InvalidInput e) /\
  (In (status_in body) allowed ->
   forall i, oid order_id_in = Ok i ->
     ((forall o, In o (orders d) -> order_id o <> i) ->
      exists e, update_order_status ts order_id_in body user d = (Raise e, d) /\
                NotFound e) /\
     (forall o, In o (orders d) -> order_id o = i ->
      exists d' o' l1 l2,
        update_order_status ts order_id_in body user d = (Ok (order_out o'), d') /\
        orders d = l1 ++ o :: l2 /\ orders d' = l1 ++ o' :: l2 /\
        order_status o' = status_in body /\
        order_timeline o' =
          order_timeline o ++
          [{| ev_status := status_in body; ev_ts := ts; ev_by := "staff" |}] /\
        order_updated_at o' = ts /\
        o' = set_status (status_in body) ts o /\
        engineers d' = engineers d /\ plans d' = plans d)).
Proof.
  intros Hwf Hrole. split.
  - intros Hst. unfold update_order_status, require_roles.
    rewrite Hrole. unfold bind at 1, ret at 1.
    destruct (str_in (status_in body) allowed) eqn:E.
    + by apply str_in_In in E.
    + by eexists.
  - intros Hst i Hoid.
    rewrite (update_order_status_runs ts order_id_in body user d i) by done.
    split.
    + intros Hnone.
      assert (H : find_one (fun o => N.eqb (order_id o) i) (orders d) = None).
      { apply find_one_None. intros o Ho. apply N.eqb_neq. by apply Hnone. }
      rewrite H. by eexists.
    + intros o Hin <-.
      destruct Hwf as (_ & _ & [Hnd _] & _).
      pose proof (find_one_unique order_id _ o Hnd Hin) as Hfind.
      rewrite Hfind.
      destruct (update_one_split _ (set_status (status_in body) ts) _ _ Hfind)
        as (l1 & l2 & Hl & Hl' & _).
      eexists _, _, l1, l2. split; [reflexivity|]. simpl.
      by rewrite Hl'.
Qed.

(** *** The timeline of an order *)

Lemma create_order_orders ts body user d :
  orders (snd (create_order ts body user d)) = orders d \/
  exists doc, orders (snd (create_order ts body user d)) = orders d ++ [doc].
Proof.
  destruct (oid (plan_id_in body)) as [plan_oid|e] eqn:Hoid.
  - destruct (find_one (fun p => N.eqb (plan_id p) plan_oid &&
                          String.eqb (plan_status p) "ACTIVE") (plans d))
      as [p|] eqn:Hp.
    + destruct (create_order_runs ts body user d _ Hoid p Hp)
        as (d' & -> & Horders & _).
      right. by eexists.
    + left. unfold create_order. unfold bind at 1, lift at 1. rewrite Hoid.
      unfold bind at 1, gets at 1. by rewrite Hp.
  - left. unfold create_order. unfold bind at 1, lift at 1. by rewrite Hoid.
Qed.

(** A status update either changes nothing or is the update of the first
    order with the id it names. *)
Lemma update_order_status_cases ts order_id_in body user d :
  (exists e, update_order_status ts order_id_in body user d = (Raise e, d)) \/
  (exists i o,
     oid order_id_in = Ok i /\
     find_one (fun o => N.eqb (order_id o) i) (orders d) = Some o /\
     update_order_status ts order_id_in body user d =
       (Ok (order_out (set_status (status_in body) ts o)),
        set_orders (fun _ => update_one (fun o => N.eqb (order_id o) i)
                               (set_status (status_in body) ts) (orders d)) d)).
Proof.
  destruct (any_role ["admin"; "agent"; "engineer"] user) eqn:Hrole.
  2: { left. destruct (update_order_status_forbidden ts order_id_in body user d
                         Hrole) as (e & -> & _). by eexists. }
  destruct (str_in (status_in body) allowed) eqn:Hst.
  2: { left. unfold update_order_status, require_roles. rewrite Hrole.
       unfold bind at 1, ret at 1. rewrite Hst. by eexists. }
  destruct (oid order_id_in) as [i|e] eqn:Hoid.
  2: { left. unfold update_order_status, require_roles. rewrite Hrole.
       unfold bind at 1, ret at 1. rewrite Hst.
       cbn [negb]. unfold bind at 1, lift at 1. rewrite Hoid. by eexists. }
  apply str_in_In in Hst.
  rewrite (update_order_status_runs ts order_id_in body user d i) by done.
  destruct (find_one _ (orders d)) as [o|] eqn:Ho.
  - right. by exists i, o.
  - left. by eexists.
Qed.

(** What a request does to the order with id [i]. *)
Lemma run_order_op_find i op d o :
  find_one (fun o => N.eqb (order_id o) i) (orders d) = Some o ->
  find_one (fun o => N.eqb (order_id o) i) (orders (snd (run_order_op op d))) =
    Some (match op with
          | UpdateOrderStatus ts _ body _ =>
              if targets i op && is_ok (fst (run_order_op op d))
              then set_status (status_in body) ts o else o
          | CreateOrder _ _ _ => o
          end).
Proof.
  intros Ho. destruct op as [ts body user|ts order_id_in body user]; simpl.
  - destruct (create_order_orders ts body user d) as [->|[doc ->]]; [done|].
    by rewrite find_one_app, Ho.
  - destruct (update_order_status_cases ts order_id_in body user d)
      as [[e ->]|(j & oj & Hoid & Hoj & ->)]; simpl.
    + by rewrite andb_false_r.
    + rewrite Hoid, andb_true_r.
      rewrite (find_one_update_one order_id) by done.
      rewrite Ho. by destruct (N.eqb j i).
Qed.

Lemma set_status_timeline_ok n s ts o :
  timeline_ok n o -> timeline_ok (S n) (set_status s ts o).
Proof.
  intros [Hlen _]. split; simpl.
  - rewrite length_app, Hlen. simpl. lia.
  - by rewrite last_snoc.
Qed.

Lemma run_order_ops_timeline i ops d o n :
  find_one (fun o => N.eqb (order_id o) i) (orders d) = Some o ->
  timeline_ok n o ->
  exists o',
    find_one (fun o => N.eqb (order_id o) i) (orders (run_order_ops ops d)) =
      Some o' /\
    timeline_ok (n + successful_updates i ops d) o'.
Proof.
  revert d o n. induction ops as [|op ops IH]; intros d o n Ho Hok.
  - exists o. simpl. by rewrite Nat.add_0_r.
  - pose proof (run_order_op_find i op d o Ho) as Hstep.
    cbn [run_order_ops fold_left successful_updates].
    fold (run_order_ops ops (snd (run_order_op op d))).
    destruct (run_order_op op d) as [r d1] eqn:Hop. cbn [fst snd] in *.
    destruct op as [ts body user|ts order_id_in body user].
    + destruct (IH d1 o n Hstep Hok) as (o' & Ho' & Hok').
      exists o'. split; [done|]. by rewrite andb_false_l.
    + destruct (targets i _ && is_ok r).
      * destruct (IH d1 _ (S n) Hstep (set_status_timeline_ok _ _ _ _ Hok))
          as (o' & Ho' & Hok').
        exists o'. split; [done|].
        by replace (n + (1 + successful_updates i ops d1))%nat
          with (S n + successful_updates i ops d1)%nat by lia.
      * destruct (IH d1 o n Hstep Hok) as (o' & Ho' & Hok').
        exists o'. split; [done|]. done.
Qed.

(** *** Requests on orders keep the store well formed *)

Lemma create_order_wf ts body user :
  preserves wf_db (create_order ts body user).
Proof.
  unfold create_order.
  apply preserves_bind; [apply preserves_lift | intros plan_oid].
  apply preserves_bind; [apply preserves_gets | intros [p|]];
    [|apply preserves_raise].
  apply preserves_bind; [apply preserves_gets | intros engineer].
  apply preserves_bind; [by apply wf_fresh_oid_orders | intros i].
  apply preserves_bind.
  { destruct (option_map eng_id engineer);
      [apply preserves_modify; intros; by apply wf_update_engineers
      |apply preserves_ret]. }
  intros []. apply preserves_bind; [apply preserves_gets | intros doc].
  destruct doc; [apply preserves_ret | apply preserves_raise].
Qed.

Lemma update_order_status_wf ts order_id_in body user :
  preserves wf_db (update_order_status ts order_id_in body user).
Proof.
  intros d Hwf.
  destruct (update_order_status_cases ts order_id_in body user d)
    as [[e ->]|(i & o & _ & _ & ->)]; [done|].
  by apply wf_update_orders.
Qed.

Lemma run_order_ops_wf ops d : wf_db d -> wf_db (run_order_ops ops d).
Proof.
  revert d. induction ops as [|op ops IH]; intros d Hwf; [done|].
  apply IH. destruct op; [by apply create_order_wf|].
  by apply update_order_status_wf.
Qed.

(** C7. After a successful [create_order], whatever requests on orders
    follow (creations and status updates, by anyone, successful or not), the
    created order is still there, its timeline has one entry for the creation
    and one for each status update of this order that succeeded, and the last
    entry carries the current status of the order.  A status update of this
    order that succeeds appends exactly one entry, which carries the new
    status; any other request leaves the timeline and the status as they
    were. *)
Theorem order_timeline_counts_updates
  (ts : datetime) (body : OrderCreateIn) (user : AuthUser) (d : database) :
  wf_db d ->
  is_ok (fst (create_order ts body user d)) = true ->
  let d1 := snd (create_order ts body user d) in
  let by_id := fun i (o : order) => N.eqb (order_id o) i in
  exists out i,
    fst (create_order ts body user d) = Ok out /\ id out = str_oid i /\
    (forall ops, exists o,
       find_one (by_id i) (orders (run_order_ops ops d1)) = Some o /\
       length (order_timeline o) = (1 + successful_updates i ops d1)%nat /\
       option_map ev_status (last (order_timeline o)) = Some (order_status o)) /\
    (forall ops op o,
       find_one (by_id i) (orders (run_order_ops ops d1)) = Some o ->
       exists o',
         find_one (by_id i) (orders (run_order_ops (ops ++ [op]) d1)) = Some o' /\
         if targets i op && is_ok (fst (run_order_op op (run_order_ops ops d1)))
         then exists e, order_timeline o' = order_timeline o ++ [e] /\
                        ev_status e = order_status o'
         else order_timeline o' = order_timeline o /\
              order_status o' = order_status o).
Proof.
  intros Hwf Hok d1 by_id. subst d1.
  destruct (create_order ts body user d) as [[out|?] d1] eqn:Hrun; [|done].
  clear Hok. cbn [fst snd].
  destruct (create_order_ok_inv _ _ _ _ _ _ Hrun) as (plan_oid & p & Hoid & Hp).
  destruct (create_order_runs ts body user d _ Hoid p Hp)
    as (d' & Hrun1 & Horders & _).
  rewrite wf_order_fresh in Hrun1 by done.
  rewrite Hrun1 in Hrun. simplify_eq.
  eexists _, (next_oid d). split; [done|]. split; [done|].
  match type of Horders with _ = _ ++ [?x] => set (doc := x) in * end.
  assert (Hfind : find_one (by_id (next_oid d)) (orders d1) = Some doc).
  { rewrite Horders. by apply wf_order_fresh. }
  assert (Hdoc : timeline_ok 0 doc).
  { split; [done|]. subst doc. simpl. by destruct (option_map eng_id _). }
  split.
  - intros ops.
    destruct (run_order_ops_timeline _ ops _ _ _ Hfind Hdoc)
      as (o & Ho & Hlen & Hlast).
    exists o. by split_and!.
  - intros ops op o Ho. unfold run_order_ops. rewrite fold_left_app. simpl.
    fold (run_order_ops ops d1).
    pose proof (run_order_op_find (next_oid d) op _ o Ho) as Hstep.
    eexists. split; [exact Hstep|].
    destruct op as [ts' body' user'|ts' order_id_in body' user'].
    + by rewrite andb_false_l.
    + destruct (targets _ _ && is_ok _); [|done].
      eexists. by split.
Qed.

Lemma wf_seeded_db : wf_db seeded_db.
Proof. unfold wf_db, ids_ok. apply (bool_decide_unpack _). by vm_compute. Qed.

Lemma wf_completed_order_db : wf_db completed_order_db.
Proof. unfold wf_db, ids_ok. apply (bool_decide_unpack _). by vm_compute. Qed.

(** C4 on the seeded database: of the two engineers serving 560034, the one
    with workload 0 is taken, not the one with workload 2. *)
Lemma create_order_assigns_least_loaded_witness :
  let ts := 100 in
  let body := order_request "560034" in
  let user := alice in
  let d := seeded_db in
  exists out d' o,
    create_order ts body user d = (Ok out, d') /\
    orders d' = orders d ++ [o] /\ out = order_out o /\
    status out = "scheduled" /\
    ((exists e, In e (engineers d) /\ eligible (pincode body) e) ->
     exists e, In e (engineers d) /\ eligible (pincode body) e /\
               assigned_engineer_id out = Some (str_oid (eng_id e)) /\
               forall e', In e' (engineers d) -> eligible (pincode body) e' ->
                          eng_workload e <= eng_workload e') /\
    ((forall e, In e (engineers d) -> ~ eligible (pincode body) e) ->
     assigned_engineer_id out = None).
Proof.
  apply (create_order_assigns_least_loaded 100 (order_request "560034") alice
           seeded_db).
  - exact wf_seeded_db.
  - eexists. split; [left; reflexivity|]. split; reflexivity.
Defined.

Example create_order_picks_idle_engineer :
  assigned_engineer_id <$>
    match fst (create_order 100 (order_request "560034") alice seeded_db) with
    | Ok out => Some out
    | Raise _ => None
    end = Some (Some "000000000000000000000003") /\
  assigned_engineer_id <$>
    match fst (create_order 100 (order_request "560099") alice seeded_db) with
    | Ok out => Some out
    | Raise _ => None
    end = Some None.
Proof. split; reflexivity. Qed.

(** C8 on the seeded database. *)
Lemma create_order_frame_witness :
  let ts := 100 in
  let body := order_request "560034" in
  let user := alice in
  let d := seeded_db in
  let d' := snd (create_order ts body user d) in
  exists out o,
    fst (create_order ts body user d) = Ok out /\
    orders d' = orders d ++ [o] /\ out = order_out o /\
    plans d' = plans d /\ tickets d' = tickets d /\
    conversations d' = conversations d /\ messages d' = messages d /\
    match assigned_engineer_id out with
    | None => engineers d' = engineers d
    | Some s =>
        exists e e' l1 l2,
          s = str_oid (eng_id e) /\
          engineers d = l1 ++ e :: l2 /\ engineers d' = l1 ++ e' :: l2 /\
          eng_workload e' = eng_workload e + 1 /\ eng_updated_at e' = ts /\
          eng_id e' = eng_id e /\ eng_name e' = eng_name e /\
          eng_skills e' = eng_skills e /\ eng_areas e' = eng_areas e /\
          eng_status e' = eng_status e
    end.
Proof.
  apply (create_order_frame 100 (order_request "560034") alice seeded_db).
  - exact wf_seeded_db.
  - reflexivity.
Defined.

(** C6 on an order that is [completed]: it goes back to [scheduled]. *)
Lemma update_order_status_any_label_witness :
  let ts := 300 in
  let order_id_in := "000000000000000000000004" in
  let body := {| status_in := "scheduled" |} in
  let user := staff in
  let d := completed_order_db in
  (~ In (status_in body) allowed ->
   exists e, update_order_status ts order_id_in body user d = (Raise e, d) /\
             InvalidInput e) /\
  (In (status_in body) allowed ->
   forall i, oid order_id_in = Ok i ->
     ((forall o, In o (orders d) -> order_id o <> i) ->
      exists e, update_order_status ts order_id_in body user d = (Raise e, d) /\
                NotFound e) /\
     (forall o, In o (orders d) -> order_id o = i ->
      exists d' o' l1 l2,
        update_order_status ts order_id_in body user d = (Ok (order_out o'), d') /\
        orders d = l1 ++ o :: l2 /\ orders d' = l1 ++ o' :: l2 /\
        order_status o' = status_in body /\
        order_timeline o' =
          order_timeline o ++
          [{| ev_status := status_in body; ev_ts := ts; ev_by := "staff" |}] /\
        order_updated_at o' = ts /\
        o' = set_status (status_in body) ts o /\
        engineers d' = engineers d /\ plans d' = plans d)).
Proof.
  apply (update_order_status_any_label 300 "000000000000000000000004"
           {| status_in := "scheduled" |} staff completed_order_db).
  - exact wf_completed_order_db.
  - reflexivity.
Defined.

Example completed_order_rescheduled :
  map order_status (orders completed_order_db) = ["completed"] /\
  (status <$>
     match fst (update_order_status 300 "000000000000000000000004"
                  {| status_in := "scheduled" |} staff completed_order_db) with
     | Ok out => Some out
     | Raise _ => None
     end) = Some "scheduled".
Proof. split; reflexivity. Qed.

(** C7 on the seeded database. *)
Lemma order_timeline_counts_updates_witness :
  let ts := 100 in
  let body := order_request "560034" in
  let user := alice in
  let d := seeded_db in
  let d1 := snd (create_order ts body user d) in
  let by_id := fun i (o : order) => N.eqb (order_id o) i in
  exists out i,
    fst (create_order ts body user d) = Ok out /\ id out = str_oid i /\
    (forall ops, exists o,
       find_one (by_id i) (orders (run_order_ops ops d1)) = Some o /\
       length (order_timeline o) = (1 + successful_updates i ops d1)%nat /\
       option_map ev_status (last (order_timeline o)) = Some (order_status o)) /\
    (forall ops op o,
       find_one (by_id i) (orders (run_order_ops ops d1)) = Some o ->
       exists o',
         find_one (by_id i) (orders (run_order_ops (ops ++ [op]) d1)) = Some o' /\
         if targets i op && is_ok (fst (run_order_op op (run_order_ops ops d1)))
         then exists e, order_timeline o' = order_timeline o ++ [e] /\
                        ev_status e = order_status o'
         else order_timeline o' = order_timeline o /\
              order_status o' = order_status o).
Proof.
  apply (order_timeline_counts_updates 100 (order_request "560034") alice
           seeded_db).
  - exact wf_seeded_db.
  - reflexivity.
Defined.

(** Four requests after the creation, two of them successful updates of the
    order: three timeline entries. *)
Example order_timeline_after_requests :
  let ops :=
    [UpdateOrderStatus 200 "000000000000000000000004"
       {| status_in := "in_progress" |} staff;
     UpdateOrderStatus 250 "000000000000000000000004"
       {| status_in := "cancelled" |} alice;
     CreateOrder 260 (order_request "560001") alice;
     UpdateOrderStatus 300 "000000000000000000000004"
       {| status_in := "completed" |} staff] in
  let d1 := snd (create_order 100 (order_request "560034") alice seeded_db) in
  successful_updates 4%N ops d1 = 2%nat /\
  map (fun o => (order_status o, map ev_status (order_timeline o)))
    (orders (run_order_ops ops d1)) =
    [("completed", ["scheduled"; "in_progress"; "completed"]);
     ("scheduled", ["scheduled"])].
Proof. split; reflexivity. Qed.

End OrderFacts.

(** ** Tickets *)

Module TicketFacts.
Import Tickets Scenarios Samples MongoFacts StoreFacts OrderFacts Props.
#[local] Arguments str_oid : simpl never.

Lemma any_role_staff user :
  any_role ["admin"; "agent"; "engineer"] user = true <-> is_staff user.
Proof.
  unfold any_role, is_staff. rewrite existsb_exists.
  split; intros (r & Hr & Hin); exists r; (split; [done|]);
    by apply str_in_In.
Qed.

Lemma set_tickets_same d : set_tickets (fun _ => tickets d) d = d.
Proof. by destruct d. Qed.

(** [update_ticket_status] for a known label and a well-formed id. *)
Lemma update_ticket_status_runs ts ticket_id_in body user d i :
  In (status_in body) allowed ->
  oid ticket_id_in = Ok i ->
  update_ticket_status ts ticket_id_in body user d =
    match find_one (fun t => N.eqb (ticket_id t) i) (tickets d) with
    | None => (Raise (HTTPException 404 "Ticket not found"), d)
    | Some t =>
        let is_owner := String.eqb (ticket_user_id t) (user_id user) in
        let is_staff := any_role ["admin"; "agent"; "engineer"] user in
        if String.eqb (status_in body) "closed" && negb (is_owner || is_staff)
        then (Raise (HTTPException 403 "Not authorized to close"), d)
        else if negb (String.eqb (status_in body) "closed") && negb is_staff
        then (Raise (HTTPException 403 "Only staff can update workflow status"),
              d)
        else
          (Ok (ticket_out (set_status (status_in body) ts (user_id user) t)),
           set_tickets
             (fun _ => update_one (fun t => N.eqb (ticket_id t) i)
                         (set_status (status_in body) ts (user_id user))
                         (tickets d)) d)
    end.
Proof.
  intros Hst Hoid. unfold update_ticket_status.
  apply str_in_In in Hst. rewrite Hst. cbn [negb].
  unfold bind at 1, lift at 1. rewrite Hoid.
  unfold bind at 1, gets at 1.
  destruct (find_one _ (tickets d)) as [t|] eqn:Ht; [|done].
  cbv zeta.
  destruct (_ && negb (_ || _)); [done|].
  destruct (negb _ && negb _); [done|].
  unfold bind, find_one_and_update. by rewrite Ht.
Qed.

Lemma update_ticket_status_wf ts ticket_id_in body user :
  preserves wf_db (update_ticket_status ts ticket_id_in body user).
Proof.
  intros d Hwf. unfold update_ticket_status.
  destruct (negb _); [done|].
  unfold bind at 1, lift at 1. destruct (oid ticket_id_in); [|done].
  unfold bind at 1, gets at 1. destruct (find_one _ _); [|done].
  destruct (_ && _); [done|]. destruct (_ && _); [done|].
  unfold bind, find_one_and_update. simpl.
  destruct (option_map _ _); simpl; by apply wf_update_tickets.
Qed.

(** C5. For one of the five status labels and a well-formed ticket id:
    - when no ticket has the id, the update fails with HTTP 404 and nothing
      changes;
    - when the new status is [closed], the update succeeds if the caller owns
      the ticket or is staff, and fails with HTTP 403 otherwise;
    - when the new status is one of the other four, the update succeeds if
      the caller is staff, and fails with HTTP 403 otherwise.
    A successful update sets the status and appends one note to the ticket;
    a failed one changes nothing. *)
Theorem update_ticket_status_authorization
  (ts : datetime) (ticket_id_in : string) (body : TicketStatusUpdateIn)
  (user : AuthUser) (d : database) (i : ObjectId) :
  wf_db d ->
  In (status_in body) allowed ->
  oid ticket_id_in = Ok i ->
  let res := update_ticket_status ts ticket_id_in body user d in
  ((forall t, In t (tickets d) -> ticket_id t <> i) ->
   exists e, res = (Raise e, d) /\ NotFound e) /\
  (forall t, In t (tickets d) -> ticket_id t = i ->
   let is_owner := ticket_user_id t = user_id user in
   let allowed_to :=
     if String.eqb (status_in body) "closed" then is_owner \/ is_staff user
     else is_staff user in
   (allowed_to ->
    exists d' l1 l2,
      res = (Ok (ticket_out (set_status (status_in body) ts (user_id user) t)),
             d') /\
      tickets d = l1 ++ t :: l2 /\
      tickets d' =
        l1 ++ set_status (status_in body) ts (user_id user) t :: l2) /\
   (~ allowed_to -> exists e, res = (Raise e, d) /\ Forbidden e)).
Proof.
  intros Hwf Hst Hoid res. subst res.
  rewrite (update_ticket_status_runs ts ticket_id_in body user d i) by done.
  split.
  - intros Hnone.
    assert (H : find_one (fun t => N.eqb (ticket_id t) i) (tickets d) = None).
    { apply find_one_None. intros t Ht. apply N.eqb_neq. by apply Hnone. }
    rewrite H. by eexists.
  - intros t Hin <- is_owner allowed_to.
    destruct Hwf as (_ & _ & _ & [Hnd _] & _).
    pose proof (find_one_unique ticket_id _ t Hnd Hin) as Hfind.
    rewrite Hfind. cbv zeta.
    assert (Hown : String.eqb (ticket_user_id t) (user_id user) = true
                   <-> is_owner) by apply String.eqb_eq.
    pose proof (any_role_staff user) as Hstaff.
    destruct (update_one_split _
                (set_status (status_in body) ts (user_id user)) _ _ Hfind)
      as (l1 & l2 & Hl & Hl' & _).
    subst allowed_to.
    destruct (String.eqb (status_in body) "closed"),
      (String.eqb (ticket_user_id t) (user_id user)),
      (any_role ["admin"; "agent"; "engineer"] user); cbn [negb orb andb];
      (split; [intros Hallowed | intros Hdenied]);
      try (exfalso; intuition congruence);
      try (by eexists);
      eexists _, l1, l2; simpl; by rewrite Hl'.
Qed.

Lemma wf_ticket_db : wf_db ticket_db.
Proof. unfold wf_db, ids_ok. apply (bool_decide_unpack _). by vm_compute. Qed.

(** C5 for the owner of a ticket, who is not staff, closing it. *)
Lemma update_ticket_status_authorization_witness :
  let ts := 100 in
  let ticket_id_in := "000000000000000000000001" in
  let body := {| status_in := "closed" |} in
  let user := alice in
  let d := ticket_db in
  let i := 1%N in
  let res := update_ticket_status ts ticket_id_in body user d in
  ((forall t, In t (tickets d) -> ticket_id t <> i) ->
   exists e, res = (Raise e, d) /\ NotFound e) /\
  (forall t, In t (tickets d) -> ticket_id t = i ->
   let is_owner := ticket_user_id t = user_id user in
   let allowed_to :=
     if String.eqb (status_in body) "closed" then is_owner \/ is_staff user
     else is_staff user in
   (allowed_to ->
    exists d' l1 l2,
      res = (Ok (ticket_out (set_status (status_in body) ts (user_id user) t)),
             d') /\
      tickets d = l1 ++ t :: l2 /\
      tickets d' =
        l1 ++ set_status (status_in body) ts (user_id user) t :: l2) /\
   (~ allowed_to -> exists e, res = (Raise e, d) /\ Forbidden e)).
Proof.
  apply (update_ticket_status_authorization 100 "000000000000000000000001"
           {| status_in := "closed" |} alice ticket_db 1%N).
  - exact wf_ticket_db.
  - simpl. tauto.
  - reflexivity.
Defined.

(** The owner closes the ticket, but may not move it to [in_progress]; an
    agent may. *)
Example owner_closes_only :
  let update := fun s user =>
    fst (update_ticket_status 100 "000000000000000000000001"
           {| status_in := s |} user ticket_db) in
  is_ok (update "closed" alice) = true /\
  update "in_progress" alice =
    Raise (HTTPException 403 "Only staff can update workflow status") /\
  is_ok (update "in_progress" staff) = true /\
  update "closed" {| user_id := "bob"; roles := ["user"] |} =
    Raise (HTTPException 403 "Not authorized to close").
Proof. by split_and!. Qed.

End TicketFacts.

(* ===================================================================== *)
(** * Further properties *)
(* ===================================================================== *)

(** ** Ids and serialized documents *)

Module UtilsMore.
Import UtilsFacts Serialize MoreProps.


Lemma oid_raises_400 value e : oid value = Raise e -> InvalidInput e.
Proof. intros H. by rewrite (oid_raises _ _ H). Qed.

(** X1. The string of a twelve-byte id has 24 characters and [oid] reads it
    back as that id. *)
Theorem oid_round_trip (i : ObjectId) :
  (i < 2 ^ 96)%N ->
  String.length (str_oid i) = 24%nat /\ oid (str_oid i) = Ok i.
Proof.
  intros Hi. split; [apply hex_of_length | by apply oid_str_oid].
Qed.

Lemma oid_round_trip_witness :
  String.length (str_oid 48879%N) = 24%nat /\
  oid (str_oid 48879%N) = Ok 48879%N.
Proof. apply (oid_round_trip 48879%N). reflexivity. Defined.





(** Strings that [oid] takes and strings that it refuses. *)
Example oid_by_string :
  oid "0000000000000000000000FF" = Ok 255%N /\
  oid "00 00 00 00 00 00 00 05 " = Ok (id_of_bytes 8 5) /\
  is_ok (oid "0 000000000000000000000 ") = false /\
  is_ok (oid "00000000000000000000000g") = false /\
  is_ok (oid "0005") = false.
Proof. by vm_compute. Qed.

Section Str.
Variable str_other : value -> string.

Lemma stringify_no_object_id kv : is_object_id (snd (stringify kv)) = false.
Proof. unfold stringify. destruct kv as [k []]; done. Qed.

Lemma stringify_idem kv : stringify (stringify kv) = stringify kv.
Proof. unfold stringify. destruct kv as [k []]; done. Qed.

Lemma doc_get_stringify key d :
  doc_get key (map stringify d) =
  option_map (fun v => snd (stringify (key, v))) (doc_get key d).
Proof.
  induction d as [|[k v] d IH]; [done|].
  cbn [map doc_get]. destruct (stringify (k, v)) as [k' v'] eqn:Hkv.
  assert (k' = k) as -> by (unfold stringify in Hkv; destruct v; by simplify_eq/=).
  destruct (String.eqb_spec key k) as [->|_]; [|done].
  simpl. by rewrite Hkv.
Qed.

Lemma doc_get_remove key key' d :
  doc_get key (doc_remove key' d) =
  if String.eqb key' key then None else doc_get key d.
Proof.
  unfold doc_remove. induction d as [|[k v] d IH]; simpl.
  - by destruct (String.eqb key' key).
  - destruct (String.eqb_spec key' k) as [->|Hk]; simpl.
    + rewrite IH. destruct (String.eqb_spec k key) as [->|Hne]; [done|].
      destruct (String.eqb_spec key k); [by subst | done].
    + rewrite IH. destruct (String.eqb_spec key k) as [->|_]; [|done].
      by destruct (String.eqb_spec key' k).
Qed.

Lemma doc_get_set key key' v d :
  doc_get key (doc_set key' v d) =
  if String.eqb key key' then Some v else doc_get key d.
Proof.
  induction d as [|[k v'] d IH]; simpl.
  - by destruct (String.eqb key key').
  - destruct (String.eqb_spec key' k) as [->|Hk]; simpl.
    + by destruct (String.eqb key k).
    + rewrite IH. destruct (String.eqb_spec key k) as [->|_]; [|done].
      destruct (String.eqb_spec k key'); [by subst | done].
Qed.

Lemma serialize_doc_no_id doc out :
  serialize_doc str_other (Some doc) = Some out -> doc_get "_id" out = None.
Proof.
  unfold serialize_doc. intros [= <-].
  destruct (doc_get "_id" doc) as [v0|] eqn:Hid.
  - by rewrite doc_get_stringify, doc_get_set, doc_get_remove.
  - by rewrite doc_get_stringify, Hid.
Qed.

(** X3. A serialized document has no [_id] key and no [ObjectId] value; the
    [_id] it had is under [id], as a string; every other field is as it was,
    an [ObjectId] turned into its string. *)
Theorem serialize_doc_fields (doc out : document) :
  serialize_doc str_other (Some doc) = Some out ->
  doc_get "_id" out = None /\
  Forall (fun kv => is_object_id (snd kv) = false) out /\
  (forall v, doc_get "_id" doc = Some v ->
             doc_get "id" out = Some (VOther (JStr (str_value str_other v)))) /\
  (forall key, key <> "_id" ->
               key <> "id" \/ doc_get "_id" doc = None ->
               doc_get key out =
               option_map (fun v => snd (stringify (key, v))) (doc_get key doc)).
Proof.
  intros Hout. pose proof (serialize_doc_no_id doc out Hout) as Hno.
  revert Hout. unfold serialize_doc. intros [= <-].
  destruct (doc_get "_id" doc) as [v0|] eqn:Hid.
  - split_and!.
    + done.
    + apply Forall_map, Forall_forall. intros kv _.
      apply stringify_no_object_id.
    + intros v [= <-]. rewrite doc_get_stringify, doc_get_set. done.
    + intros key Hne [Hne'|?]; [|done].
      rewrite doc_get_stringify, doc_get_set, doc_get_remove.
      destruct (String.eqb_spec key "id"); [done|].
      destruct (String.eqb_spec "_id" key); [by subst | done].
  - split_and!.
    + done.
    + apply Forall_map, Forall_forall. intros kv _.
      apply stringify_no_object_id.
    + done.
    + intros key _ _. apply doc_get_stringify.
Qed.

(** X4. Serializing twice is serializing once. *)
Theorem serialize_doc_idempotent (doc : option document) :
  serialize_doc str_other (serialize_doc str_other doc) =
  serialize_doc str_other doc.
Proof.
  destruct doc as [doc|]; [|done].
  destruct (serialize_doc str_other (Some doc)) as [out|] eqn:Hout; [|done].
  pose proof (serialize_doc_no_id doc out Hout) as Hid.
  unfold serialize_doc in *. rewrite Hid. f_equal.
  injection Hout as <-. rewrite map_map.
  apply map_ext. intros kv. apply stringify_idem.
Qed.
End Str.

Lemma serialize_doc_fields_witness :
  let doc := [("_id", VObjectId 7%N); ("user_id", VOther (JStr "alice"));
              ("engineer", VObjectId 3%N); ("created_at", VDatetime 100)] in
  let out := [("user_id", VOther (JStr "alice"));
              ("engineer", VOther (JStr "000000000000000000000003"));
              ("created_at", VDatetime 100);
              ("id", VOther (JStr "000000000000000000000007"))] in
  doc_get "_id" out = None /\
  Forall (fun kv => is_object_id (snd kv) = false) out /\
  (forall v, doc_get "_id" doc = Some v ->
             doc_get "id" out = Some (VOther (JStr (str_value (fun _ => "") v)))) /\
  (forall key, key <> "_id" ->
               key <> "id" \/ doc_get "_id" doc = None ->
               doc_get key out =
               option_map (fun v => snd (stringify (key, v))) (doc_get key doc)).
Proof.
  apply (serialize_doc_fields (fun _ => "")
           [("_id", VObjectId 7%N); ("user_id", VOther (JStr "alice"));
            ("engineer", VObjectId 3%N); ("created_at", VDatetime 100)]).
  reflexivity.
Defined.

End UtilsMore.

(** ** Queries with [sort] and [limit] *)

Module MongoMore.
Import MongoFacts Props MoreProps.


Lemma limit_docs_page {A} (limit : Z) (l : list A) :
  1 <= limit -> limit_docs limit l = firstn (Z.to_nat limit) l.
Proof.
  intros H. unfold limit_docs. destruct (Z.eqb_spec limit 0); [lia|].
  f_equal. lia.
Qed.


(** *** Where a sort puts a document *)

Section Order.
Context {A : Type}.
Implicit Types (p : A -> bool) (key : A -> Z) (l : list A).

Lemma sort_asc_snoc_min key l x :
  (forall y, In y l -> key x < key y) ->
  sort_asc key (l ++ [x]) = x :: sort_asc key l.
Proof.
  induction l as [|y l IH]; intros Hx; simpl; [done|].
  rewrite IH by (intros z Hz; apply Hx; by right). simpl.
  destruct (Z.leb_spec (key y) (key x)) as [Hle|_]; [|done].
  specialize (Hx y (or_introl eq_refl)). lia.
Qed.

(** A document with the greatest key, inserted last, is sorted first. *)
Lemma sort_desc_snoc_max key l x :
  (forall y, In y l -> key y < key x) ->
  sort_desc key (l ++ [x]) = x :: sort_desc key l.
Proof.
  intros Hx. unfold sort_desc. apply sort_asc_snoc_min.
  intros y Hy. specialize (Hx y Hy). lia.
Qed.

(** A filter that one document matches finds it, whatever the sort. *)
Lemma find_one_desc_only p key l1 x l2 :
  p x = true ->
  (forall y, In y l1 \/ In y l2 -> p y = false) ->
  find_one_desc p key (l1 ++ x :: l2) = Some x.
Proof.
  intros Hx Hrest. unfold find_one_desc.
  rewrite List.filter_app. simpl. rewrite Hx.
  rewrite (proj2 (filter_nil_none p l1)) by auto.
  by rewrite (proj2 (filter_nil_none p l2)) by auto.
Qed.

Lemma NoDup_map_split {B} (f : A -> B) l1 l2 x :
  NoDup (map f (l1 ++ x :: l2)) ->
  forall y, In y l1 \/ In y l2 -> f y <> f x.
Proof.
  rewrite map_app. simpl. intros Hnd y Hy Heq.
  apply NoDup_app in Hnd as (_ & H1 & H2).
  apply NoDup_cons in H2 as [H2 _].
  destruct Hy as [Hy|Hy].
  - apply (H1 (f y)); [by apply list_elem_of_In, in_map|].
    rewrite Heq. apply list_elem_of_here.
  - apply H2. rewrite <- Heq. by apply list_elem_of_In, in_map.
Qed.

Lemma update_one_at p (f : A -> A) l1 x l2 :
  (forall y, In y l1 -> p y = false) -> p x = true ->
  update_one p f (l1 ++ x :: l2) = l1 ++ f x :: l2.
Proof.
  intros H1 Hx. induction l1 as [|y l1 IH]; simpl; [by rewrite Hx|].
  rewrite (H1 y (or_introl eq_refl)).
  by rewrite IH by (intros z Hz; apply H1; by right).
Qed.
End Order.

End MongoMore.

(** ** The rate limiter, over time *)

Module RateLimitMore.
Import Props MoreScenarios Samples RateLimitFacts.

Lemma expired_later window t t' d :
  (t <= t')%Q -> expired window t d = true -> expired window t' d = true.
Proof.
  unfold expired. intros Hle H. apply negb_true_iff in H.
  apply negb_true_iff. destruct (Qle_bool (t' - d) (inject_Z window)) eqn:E;
    [|done].
  apply Qle_bool_iff in E.
  assert (Hd : (t - d <= inject_Z window)%Q) by lra.
  apply Qle_bool_iff in Hd. congruence.
Qed.

Lemma live_app window now q1 q2 :
  live window now (q1 ++ q2) = live window now q1 ++ live window now q2.
Proof. unfold live. apply List.filter_app. Qed.

Lemma live_expired window now q :
  Forall (fun d => expired window now d = true) q -> live window now q = [].
Proof.
  unfold live. induction 1 as [|d q Hd _ IH]; simpl; [done|].
  by rewrite Hd.
Qed.

Lemma run_checks_cons c calls self :
  run_checks (c :: calls) self =
  run_checks calls (snd (check (fst c) (snd c) self)).
Proof. reflexivity. Qed.

(** What was let through is the queue, after entries that have expired. *)
Lemma admitted_queue key now w calls self adm :
  window_seconds (_config self) = w ->
  Forall (fun c => (snd c <= now)%Q) calls ->
  (exists dropped, adm = dropped ++ events_of self key /\
                   Forall (fun d => expired w now d = true) dropped) ->
  exists dropped,
    adm ++ admitted key calls self =
      dropped ++ events_of (run_checks calls self) key /\
    Forall (fun d => expired w now d = true) dropped.
Proof.
  revert self adm. induction calls as [|[k t] calls IH];
    intros self adm Hw Hle (dropped & Hadm & Hdrop).
  - exists dropped. simpl. by rewrite app_nil_r.
  - apply Forall_cons in Hle as [Ht Hle]. simpl in Ht.
    rewrite run_checks_cons. cbn [admitted fst snd].
    destruct (evict_split w t (events_of self k)) as (old & Hq & Hold).
    pose proof (check_config k t self) as Hcfg.
    assert (Hstep : exists dropped1,
      adm ++ (if String.eqb k key && is_ok (fst (check k t self))
              then [t] else []) =
        dropped1 ++ events_of (snd (check k t self)) key /\
      Forall (fun d => expired w now d = true) dropped1).
    { destruct (String.eqb_spec k key) as [->|Hne].
      - exists (dropped ++ old). split.
        + destruct (check_cases key t self) as [[-> _]|[-> _]]; simpl;
            rewrite events_of_set, decide_True by done; rewrite Hw;
            set (kept := evict w t (events_of self key)) in *;
            rewrite Hadm, Hq; by rewrite ?app_nil_r, <- ?app_assoc.
        + apply Forall_app. split; [done|].
          eapply Forall_impl; [exact Hold|]. simpl. intros d.
          by apply expired_later.
      - exists dropped. simpl. rewrite app_nil_r. split; [|done].
        destruct (check_cases k t self) as [[-> _]|[-> _]]; simpl;
          by rewrite events_of_set, decide_False. }
    destruct (check k t self) as [r self1]. cbn [fst snd] in *.
    rewrite app_assoc. apply IH; [by rewrite Hcfg | done | done].
Qed.

(** X5. The guarantee of the limiter.  From a fresh limiter, when a call
    [check(key)] is let through at a clock reading that no earlier call
    exceeds, then at most [limit] of the calls for [key] that were let
    through, this one included, lie in the window that ends at it. *)
Theorem check_admits_at_most_limit
  (cfg : RateLimitConfig) (calls : list (string * timestamp))
  (key : string) (now : timestamp) :
  Forall (fun c => (snd c <= now)%Q) calls ->
  fst (check key now (run_checks calls (new cfg))) = Ok tt ->
  Z.of_nat (length (live (window_seconds cfg) now
                      (admitted key calls (new cfg) ++ [now]))) <= limit cfg.
Proof.
  intros Hle Hok.
  destruct (admitted_queue key now (window_seconds cfg) calls (new cfg) []
              eq_refl Hle) as (dropped & Hadm & Hdrop).
  { exists []. split; [done | constructor]. }
  simpl in Hadm, Hdrop.
  set (self := run_checks calls (new cfg)) in *.
  assert (Hcfg : _config self = cfg) by apply run_checks_config.
  destruct (evict_split (window_seconds cfg) now (events_of self key))
    as (old & Hq & Hold).
  destruct (check_cases key now self) as [[Hc _]|[_ Hlt]];
    [by rewrite Hc in Hok|].
  rewrite Hcfg in Hlt.
  rewrite Hadm, Hq, !live_app.
  rewrite (live_expired _ _ dropped), (live_expired _ _ old) by done.
  simpl. rewrite length_app.
  pose proof (filter_length_le
    (fun t => negb (expired (window_seconds cfg) now t))
    (evict (window_seconds cfg) now (events_of self key))) as H1.
  pose proof (filter_length_le
    (fun t => negb (expired (window_seconds cfg) now t)) [now]) as H2.
  unfold live. simpl in H2. lia.
Qed.

Lemma check_admits_at_most_limit_witness :
  let cfg := {| limit := 2; window_seconds := 60 |} in
  let calls := [("u1", 0%Q); ("u1", 10%Q); ("u1", 20%Q); ("u2", 30%Q)] in
  Z.of_nat (length (live (window_seconds cfg) (65%Q)
                      (admitted "u1" calls (new cfg) ++ [65%Q]))) <= limit cfg.
Proof.
  apply (check_admits_at_most_limit {| limit := 2; window_seconds := 60 |}
           [("u1", 0%Q); ("u1", 10%Q); ("u1", 20%Q); ("u2", 30%Q)]
           "u1" (65%Q)).
  - repeat (apply Forall_cons; split; [vm_compute; discriminate|]).
    apply Forall_nil. exact I.
  - reflexivity.
Defined.

Lemma check_result_by_queue key now self self' :
  _config self' = _config self ->
  events_of self' key = events_of self key ->
  fst (check key now self') = fst (check key now self).
Proof.
  intros Hcfg Hq. unfold check. rewrite Hcfg, Hq. by destruct (_ <=? _).
Qed.

(** X6. Keys do not interfere: calls for other keys leave the queue of [key]
    and the outcome of its next call as they were. *)
Theorem check_keys_independent
  (calls : list (string * timestamp)) (key : string) (now : timestamp)
  (self : InMemoryRateLimiter) :
  Forall (fun c => fst c <> key) calls ->
  events_of (run_checks calls self) key = events_of self key /\
  fst (check key now (run_checks calls self)) = fst (check key now self).
Proof.
  intros Hother.
  assert (Hq : events_of (run_checks calls self) key = events_of self key).
  { revert self. induction Hother as [|[k t] calls Hk _ IH]; intros self;
      [done|].
    rewrite run_checks_cons, IH. cbn [fst snd] in *.
    destruct (check_cases k t self) as [[-> _]|[-> _]]; simpl;
      by rewrite events_of_set, decide_False. }
  split; [done|]. apply check_result_by_queue; [|done].
  apply run_checks_config.
Qed.

Lemma check_keys_independent_witness :
  let self := run_checks [("u1", 0%Q); ("u1", 1%Q)]
                (new {| limit := 2; window_seconds := 60 |}) in
  let calls := [("u2", 2%Q); ("u3", 3%Q); ("u2", 4%Q)] in
  events_of (run_checks calls self) "u1" = events_of self "u1" /\
  fst (check "u1" (5%Q) (run_checks calls self)) = fst (check "u1" (5%Q) self).
Proof.
  apply (check_keys_independent [("u2", 2%Q); ("u3", 3%Q); ("u2", 4%Q)]
           "u1" (5%Q)).
  repeat (apply Forall_cons; split; [discriminate|]).
  apply Forall_nil. exact I.
Defined.

End RateLimitMore.

(** ** Tickets: creation, assignment, comments *)

Module TicketMore.
Import Tickets TicketOps MoreScenarios Samples MoreSamples MongoFacts
  MongoMore StoreFacts OrderFacts TicketFacts Props MoreProps.
#[local] Arguments str_oid : simpl never.

Lemma find_one_appended {A} (id : A -> ObjectId) l x :
  exists y, find_one (fun y => N.eqb (id y) (id x)) (l ++ [x]) = Some y /\
            id y = id x.
Proof.
  rewrite find_one_app, N.eqb_refl.
  destruct (find_one _ l) as [y|] eqn:Hy; [|by eexists].
  apply find_one_Some in Hy as [_ Hy]. apply N.eqb_eq in Hy. by eexists.
Qed.

(** *** What each request does *)

Lemma create_ticket_runs ts body user d :
  exists t,
    find_one (fun t => N.eqb (ticket_id t) (next_oid d))
      (tickets d ++ [ticket_doc ts body user (next_oid d)]) = Some t /\
    fst (create_ticket ts body user d) = Ok (ticket_out t) /\
    tickets (snd (create_ticket ts body user d)) =
      tickets d ++ [ticket_doc ts body user (next_oid d)] /\
    orders (snd (create_ticket ts body user d)) = orders d /\
    engineers (snd (create_ticket ts body user d)) = engineers d.
Proof.
  destruct (find_one_appended ticket_id (tickets d)
              (ticket_doc ts body user (next_oid d))) as (t & Ht & _).
  simpl in Ht. exists t. split; [done|].
  unfold create_ticket, insert_one, bind, fresh_oid, modify, gets, ret; simpl.
  by rewrite Ht.
Qed.

Lemma assign_ticket_forbidden ts ticket_id_in body user d :
  any_role ["admin"; "agent"; "engineer"] user = false ->
  assign_ticket ts ticket_id_in body user d =
    (Raise (HTTPException 403 "Not authorized"), d).
Proof.
  intros Hrole. unfold assign_ticket, require_roles, bind. by rewrite Hrole.
Qed.

Lemma assign_ticket_runs ts ticket_id_in body user d i :
  any_role ["admin"; "agent"; "engineer"] user = true ->
  oid ticket_id_in = Ok i ->
  assign_ticket ts ticket_id_in body user d =
    match find_one (fun t => N.eqb (ticket_id t) i) (tickets d) with
    | Some t =>
        (Ok (ticket_out (set_assigned (assigned_to_user_id body) ts t)),
         set_tickets (fun _ => update_one (fun t => N.eqb (ticket_id t) i)
                                 (set_assigned (assigned_to_user_id body) ts)
                                 (tickets d)) d)
    | None => (Raise (HTTPException 404 "Ticket not found"), d)
    end.
Proof.
  intros Hrole Hoid. unfold assign_ticket, require_roles. rewrite Hrole.
  unfold bind at 1, ret at 1. unfold bind at 1, lift at 1. rewrite Hoid.
  unfold bind, find_one_and_update.
  destruct (find_one _ (tickets d)) as [t|] eqn:Ht; simpl; [done|].
  by rewrite update_one_none, set_tickets_same.
Qed.

Lemma add_ticket_comment_runs ts ticket_id_in body user d i :
  oid ticket_id_in = Ok i ->
  add_ticket_comment ts ticket_id_in body user d =
    match find_one (fun t => N.eqb (ticket_id t) i) (tickets d) with
    | None => (Raise (HTTPException 404 "Ticket not found"), d)
    | Some t =>
        if negb (String.eqb (ticket_user_id t) (user_id user) ||
                 any_role ["admin"; "agent"; "engineer"] user)
        then (Raise (HTTPException 403 "Not authorized"), d)
        else
          (Ok (ticket_out (add_comment (message body) ts (user_id user) t)),
           set_tickets
             (fun _ => update_one (fun t => N.eqb (ticket_id t) i)
                         (add_comment (message body) ts (user_id user))
                         (tickets d)) d)
    end.
Proof.
  intros Hoid. unfold add_ticket_comment.
  unfold bind at 1, lift at 1. rewrite Hoid.
  unfold bind at 1, gets at 1.
  destruct (find_one _ (tickets d)) as [t|] eqn:Ht; [|done].
  cbv zeta. destruct (negb _); [done|].
  unfold bind, find_one_and_update. by rewrite Ht.
Qed.

Lemma ticket_update_keeps f t :
  ticket_update f ->
  ticket_id (f t) = ticket_id t /\
  ticket_user_id (f t) = ticket_user_id t /\
  ticket_created_at (f t) = ticket_created_at t /\
  exists n, ticket_notes (f t) = ticket_notes t ++ [n].
Proof. destruct 1; simpl; split_and!; try done; by eexists. Qed.

(** A request changes nothing and fails, or creates a ticket, or updates the
    first ticket that has the id it names. *)
Lemma run_ticket_op_cases op d :
  (is_ok (fst (run_ticket_op op d)) = false /\ snd (run_ticket_op op d) = d) \/
  (ticket_named op = None /\ is_ok (fst (run_ticket_op op d)) = true /\
   exists t, tickets (snd (run_ticket_op op d)) = tickets d ++ [t]) \/
  (exists i t f,
     ticket_named op = Some i /\
     find_one (fun t => N.eqb (ticket_id t) i) (tickets d) = Some t /\
     ticket_update f /\
     run_ticket_op op d =
       (Ok (ticket_out (f t)),
        set_tickets (fun _ => update_one (fun t => N.eqb (ticket_id t) i) f
                                (tickets d)) d)).
Proof.
  destruct op as [ts body user|ts s body user|ts s body user|ts s body user];
    cbn [run_ticket_op ticket_named].
  - right; left. destruct (create_ticket_runs ts body user d)
      as (t & _ & -> & -> & _). split_and!; [done..|]. by eexists.
  - destruct (str_in (status_in body) allowed) eqn:Hst.
    2: { left. unfold update_ticket_status. by rewrite Hst. }
    destruct (oid s) as [i|e] eqn:Hoid.
    2: { left. unfold update_ticket_status. rewrite Hst. cbn [negb].
         unfold bind at 1, lift at 1. by rewrite Hoid. }
    apply str_in_In in Hst.
    rewrite (update_ticket_status_runs ts s body user d i) by done.
    destruct (find_one _ (tickets d)) as [t|] eqn:Ht; [|by left].
    cbv zeta. destruct (_ && negb (_ || _)); [by left|].
    destruct (negb _ && negb _); [by left|].
    right; right. eexists i, t, _. split_and!; [done..|constructor|done].
  - destruct (any_role ["admin"; "agent"; "engineer"] user) eqn:Hrole.
    2: { left. by rewrite assign_ticket_forbidden. }
    destruct (oid s) as [i|e] eqn:Hoid.
    2: { left. unfold assign_ticket, require_roles. rewrite Hrole.
         unfold bind at 1, ret at 1. unfold bind at 1, lift at 1.
         by rewrite Hoid. }
    rewrite (assign_ticket_runs ts s body user d i) by done.
    destruct (find_one _ (tickets d)) as [t|] eqn:Ht; [|by left].
    right; right. eexists i, t, _. split_and!; [done..|constructor|done].
  - destruct (oid s) as [i|e] eqn:Hoid.
    2: { left. unfold add_ticket_comment. unfold bind at 1, lift at 1.
         by rewrite Hoid. }
    rewrite (add_ticket_comment_runs ts s body user d i) by done.
    destruct (find_one _ (tickets d)) as [t|] eqn:Ht; [|by left].
    destruct (negb _); [by left|].
    right; right. eexists i, t, _. split_and!; [done..|constructor|done].
Qed.

(** What a request does to the ticket with id [i]. *)
Lemma run_ticket_op_find i op d t :
  find_one (fun t => N.eqb (ticket_id t) i) (tickets d) = Some t ->
  exists t',
    find_one (fun t => N.eqb (ticket_id t) i)
      (tickets (snd (run_ticket_op op d))) = Some t' /\
    if on_ticket i op && is_ok (fst (run_ticket_op op d))
    then exists f, ticket_update f /\ t' = f t
    else t' = t.
Proof.
  intros Ht.
  destruct (run_ticket_op_cases op d)
    as [[Hfail ->]|[(Hnone & Hok & t0 & ->)|(j & tj & f & Hj & Htj & Hf & ->)]].
  - exists t. by rewrite Hfail, andb_false_r.
  - exists t. unfold on_ticket. rewrite Hnone, find_one_app, Ht. done.
  - cbn [fst snd is_ok]. unfold on_ticket. rewrite Hj, andb_true_r. simpl.
    rewrite (find_one_update_one ticket_id)
      by (intros x; by apply ticket_update_keeps).
    rewrite Ht. destruct (N.eqb j i); simpl; eauto.
Qed.

(** The log of a ticket, [n] successful requests after its creation by
    [owner] at [ts] with first note [n0]. *)
Lemma run_ticket_ops_notes i ops d t n owner ts n0 :
  find_one (fun t => N.eqb (ticket_id t) i) (tickets d) = Some t ->
  (length (ticket_notes t) = S n /\ head (ticket_notes t) = Some n0 /\
   ticket_user_id t = owner /\ ticket_created_at t = ts) ->
  exists t',
    find_one (fun t => N.eqb (ticket_id t) i)
      (tickets (run_ticket_ops ops d)) = Some t' /\
    length (ticket_notes t') = S (n + successful_on_ticket i ops d) /\
    head (ticket_notes t') = Some n0 /\
    ticket_user_id t' = owner /\ ticket_created_at t' = ts.
Proof.
  revert d t n. induction ops as [|op ops IH]; intros d t n Ht Hok.
  - exists t. simpl. by rewrite Nat.add_0_r.
  - destruct (run_ticket_op_find i op d t Ht) as (t1 & Ht1 & Hstep).
    cbn [run_ticket_ops fold_left successful_on_ticket].
    fold (run_ticket_ops ops (snd (run_ticket_op op d))).
    destruct (run_ticket_op op d) as [r d1]. cbn [fst snd] in *.
    destruct Hok as (Hlen & Hhead & Hown & Hts).
    destruct (on_ticket i op && is_ok r).
    + destruct Hstep as (f & Hf & ->).
      destruct (ticket_update_keeps f t Hf) as (_ & Hu & Hc & n1 & Hn).
      destruct (IH d1 (f t) (S n) Ht1) as (t' & Ht' & Hlen' & Hrest).
      { rewrite Hn, length_app, Hlen, Hu, Hc. simpl. split_and!; try done.
        - lia.
        - destruct (ticket_notes t); [done|]. done. }
      exists t'. split; [done|]. split; [|done].
      rewrite Hlen'. lia.
    + subst t1. destruct (IH d1 t n Ht1) as (t' & Ht' & Hlen' & Hrest); [done|].
      exists t'. split; [done|]. split; [|done]. by rewrite Hlen'.
Qed.

(** X7. [create_ticket] never fails.  On a well-formed store it stores and
    returns the new ticket: open, of medium severity, unassigned, owned by
    the caller, with the one note [created].  Whatever requests on tickets
    follow (creations, status updates, assignments, comments, by anyone,
    successful or not), that ticket is still there with its owner and
    creation time, its log still starts with the [created] note and has one
    note more for each request on this ticket that succeeded. *)
Theorem ticket_log_counts_requests
  (ts : datetime) (body : TicketCreateIn) (user : AuthUser) (d : database) :
  wf_db d ->
  let d1 := snd (create_ticket ts body user d) in
  let by_id := fun i (t : ticket) => N.eqb (ticket_id t) i in
  exists i out t0,
    fst (create_ticket ts body user d) = Ok out /\
    new_ticket ts body user i out /\
    tickets d1 = tickets d ++ [t0] /\
    new_ticket_doc ts body user i t0 /\
    (forall ops, exists t,
       find_one (by_id i) (tickets (run_ticket_ops ops d1)) = Some t /\
       length (ticket_notes t) = (1 + successful_on_ticket i ops d1)%nat /\
       head (ticket_notes t) = Some (created_note ts body user) /\
       ticket_user_id t = user_id user /\ ticket_created_at t = ts).
Proof.
  intros Hwf d1 by_id.
  exists (next_oid d), (ticket_out (ticket_doc ts body user (next_oid d))),
    (ticket_doc ts body user (next_oid d)).
  destruct (create_ticket_runs ts body user d) as (t & Ht & Hout & Htk & _).
  assert (Hfresh : find_one (by_id (next_oid d)) (tickets d) = None).
  { destruct Hwf as (_ & _ & _ & [_ Hlt] & _). by apply find_one_fresh. }
  unfold by_id in *. rewrite find_one_app, Hfresh in Ht. simpl in Ht.
  rewrite N.eqb_refl in Ht. injection Ht as <-.
  split; [done|]. split; [by repeat split|]. split; [done|].
  split.
  { repeat split. simpl. by destruct (attachments body) as [[|a l]|]. }
  intros ops.
  destruct (run_ticket_ops_notes (next_oid d) ops d1
              (ticket_doc ts body user (next_oid d)) 0 (user_id user) ts
              (created_note ts body user)) as (t' & Ht' & Hrest).
  - subst d1. rewrite Htk, find_one_app, Hfresh. simpl. by rewrite N.eqb_refl.
  - done.
  - by exists t'.
Qed.

Lemma ticket_log_counts_requests_witness :
  let ts := 100 in
  let body := ticket_request in
  let user := alice in
  let d := ticket_db in
  let d1 := snd (create_ticket ts body user d) in
  let by_id := fun i (t : ticket) => N.eqb (ticket_id t) i in
  exists i out t0,
    fst (create_ticket ts body user d) = Ok out /\
    new_ticket ts body user i out /\
    tickets d1 = tickets d ++ [t0] /\
    new_ticket_doc ts body user i t0 /\
    (forall ops, exists t,
       find_one (by_id i) (tickets (run_ticket_ops ops d1)) = Some t /\
       length (ticket_notes t) = (1 + successful_on_ticket i ops d1)%nat /\
       head (ticket_notes t) = Some (created_note ts body user) /\
       ticket_user_id t = user_id user /\ ticket_created_at t = ts).
Proof.
  apply (ticket_log_counts_requests 100 ticket_request alice ticket_db).
  exact wf_ticket_db.
Defined.

(** Five requests on the ticket with id 1, three of them successful: four
    notes. *)
Example ticket_log_after_requests :
  let one := "000000000000000000000001" in
  let ops :=
    [AddTicketComment 60 one {| message := "still slow" |} alice;
     AddTicketComment 61 one {| message := "me too" |} bob;
     AssignTicket 70 one {| assigned_to_user_id := "eng-7" |} alice;
     AssignTicket 71 one {| assigned_to_user_id := "eng-7" |} staff;
     UpdateTicketStatus 80 one {| status_in := "closed" |} alice] in
  successful_on_ticket 1%N ops ticket_db = 3%nat /\
  map (fun t => (ticket_status t, ticket_assigned_to t,
                 map note_type (ticket_notes t)))
    (tickets (run_ticket_ops ops ticket_db)) =
    [("closed", Some "eng-7", ["created"; "comment"; "assign"; "status"])].
Proof. split; reflexivity. Qed.

(** X8. [assign_ticket] on a well-formed store, for a well-formed id:
    - a caller without one of the roles admin, agent, engineer gets HTTP 403;
    - for a staff caller and an id that no ticket has, HTTP 404;
    - for a staff caller and the id of a ticket, whatever its status (also
      [closed] or [resolved]): the status becomes [assigned], the assignee is
      recorded as given, and one note of type [assign] is appended, signed
      "staff" and not by the caller's id.
    A failed assignment changes nothing; a successful one changes that one
    ticket only. *)
Theorem assign_ticket_effect
  (ts : datetime) (ticket_id_in : string) (body : TicketAssignIn)
  (user : AuthUser) (d : database) (i : ObjectId) :
  wf_db d ->
  oid ticket_id_in = Ok i ->
  let res := assign_ticket ts ticket_id_in body user d in
  (~ is_staff user -> exists e, res = (Raise e, d) /\ Forbidden e) /\
  (is_staff user ->
   ((forall t, In t (tickets d) -> ticket_id t <> i) ->
    exists e, res = (Raise e, d) /\ NotFound e) /\
   (forall t, In t (tickets d) -> ticket_id t = i ->
    exists d' t' l1 l2,
      res = (Ok (ticket_out t'), d') /\
      tickets d = l1 ++ t :: l2 /\ tickets d' = l1 ++ t' :: l2 /\
      ticket_status t' = "assigned" /\
      ticket_assigned_to t' = Some (assigned_to_user_id body) /\
      ticket_notes t' =
        ticket_notes t ++
        [{| note_ts := ts; note_by := "staff"; note_type := "assign";
            note_message := assigned_to_user_id body |}] /\
      ticket_user_id t' = ticket_user_id t /\
      ticket_updated_at t' = ts)).
Proof.
  intros Hwf Hoid res. subst res. split.
  - intros Hno. rewrite assign_ticket_forbidden; [by eexists|].
    destruct (any_role _ user) eqn:E; [|done].
    by apply any_role_staff in E.
  - intros Hstaff. apply any_role_staff in Hstaff.
    rewrite (assign_ticket_runs ts ticket_id_in body user d i) by done.
    split.
    + intros Hnone.
      assert (H : find_one (fun t => N.eqb (ticket_id t) i) (tickets d) = None).
      { apply find_one_None. intros t Ht. apply N.eqb_neq. by apply Hnone. }
      rewrite H. by eexists.
    + intros t Hin <-.
      destruct Hwf as (_ & _ & _ & [Hnd _] & _).
      pose proof (find_one_unique ticket_id _ t Hnd Hin) as Hfind.
      rewrite Hfind.
      destruct (update_one_split _
                  (set_assigned (assigned_to_user_id body) ts) _ _ Hfind)
        as (l1 & l2 & Hl & Hl' & _).
      eexists _, _, l1, l2. split; [reflexivity|]. simpl.
      by rewrite Hl'.
Qed.

Lemma assign_ticket_effect_witness :
  let ts := 100 in
  let ticket_id_in := "000000000000000000000001" in
  let body := {| assigned_to_user_id := "eng-7" |} in
  let user := staff in
  let d := ticket_db in
  let i := 1%N in
  let res := assign_ticket ts ticket_id_in body user d in
  (~ is_staff user -> exists e, res = (Raise e, d) /\ Forbidden e) /\
  (is_staff user ->
   ((forall t, In t (tickets d) -> ticket_id t <> i) ->
    exists e, res = (Raise e, d) /\ NotFound e) /\
   (forall t, In t (tickets d) -> ticket_id t = i ->
    exists d' t' l1 l2,
      res = (Ok (ticket_out t'), d') /\
      tickets d = l1 ++ t :: l2 /\ tickets d' = l1 ++ t' :: l2 /\
      ticket_status t' = "assigned" /\
      ticket_assigned_to t' = Some (assigned_to_user_id body) /\
      ticket_notes t' =
        ticket_notes t ++
        [{| note_ts := ts; note_by := "staff"; note_type := "assign";
            note_message := assigned_to_user_id body |}] /\
      ticket_user_id t' = ticket_user_id t /\
      ticket_updated_at t' = ts)).
Proof.
  apply (assign_ticket_effect 100 "000000000000000000000001"
           {| assigned_to_user_id := "eng-7" |} staff ticket_db 1%N).
  - exact wf_ticket_db.
  - reflexivity.
Defined.

(** X9. [add_ticket_comment] on a well-formed store, for a well-formed id:
    - for an id that no ticket has, HTTP 404, and no note is appended
      anywhere;
    - for the id of a ticket, a caller who neither owns it nor is staff gets
      HTTP 403 and nothing changes;
    - the owner and staff succeed: one note of type [comment], signed by the
      caller, is appended; the status and the assignee stay as they were. *)
Theorem add_ticket_comment_effect
  (ts : datetime) (ticket_id_in : string) (body : TicketCommentIn)
  (user : AuthUser) (d : database) (i : ObjectId) :
  wf_db d ->
  oid ticket_id_in = Ok i ->
  let res := add_ticket_comment ts ticket_id_in body user d in
  ((forall t, In t (tickets d) -> ticket_id t <> i) ->
   exists e, res = (Raise e, d) /\ NotFound e) /\
  (forall t, In t (tickets d) -> ticket_id t = i ->
   let may := ticket_user_id t = user_id user \/ is_staff user in
   (~ may -> exists e, res = (Raise e, d) /\ Forbidden e) /\
   (may ->
    exists d' t' l1 l2,
      res = (Ok (ticket_out t'), d') /\
      tickets d = l1 ++ t :: l2 /\ tickets d' = l1 ++ t' :: l2 /\
      ticket_notes t' =
        ticket_notes t ++
        [{| note_ts := ts; note_by := user_id user; note_type := "comment";
            note_message := message body |}] /\
      ticket_status t' = ticket_status t /\
      ticket_assigned_to t' = ticket_assigned_to t /\
      ticket_user_id t' = ticket_user_id t /\
      ticket_updated_at t' = ts)).
Proof.
  intros Hwf Hoid res. subst res.
  rewrite (add_ticket_comment_runs ts ticket_id_in body user d i) by done.
  split.
  - intros Hnone.
    assert (H : find_one (fun t => N.eqb (ticket_id t) i) (tickets d) = None).
    { apply find_one_None. intros t Ht. apply N.eqb_neq. by apply Hnone. }
    rewrite H. by eexists.
  - intros t Hin <- may.
    destruct Hwf as (_ & _ & _ & [Hnd _] & _).
    pose proof (find_one_unique ticket_id _ t Hnd Hin) as Hfind.
    rewrite Hfind.
    assert (Hmay : String.eqb (ticket_user_id t) (user_id user) ||
                   any_role ["admin"; "agent"; "engineer"] user = true
                   <-> may).
    { rewrite orb_true_iff, String.eqb_eq, any_role_staff. done. }
    destruct (update_one_split _
                (add_comment (message body) ts (user_id user)) _ _ Hfind)
      as (l1 & l2 & Hl & Hl' & _).
    destruct (_ || _); cbn [negb]; split.
    + intros Hno. exfalso. apply Hno, Hmay. done.
    + intros _. eexists _, _, l1, l2. split; [reflexivity|]. simpl.
      by rewrite Hl'.
    + intros _. by eexists.
    + intros H. apply Hmay in H. done.
Qed.

Lemma add_ticket_comment_effect_witness :
  let ts := 100 in
  let ticket_id_in := "000000000000000000000001" in
  let body := {| message := "still slow" |} in
  let user := alice in
  let d := ticket_db in
  let i := 1%N in
  let res := add_ticket_comment ts ticket_id_in body user d in
  ((forall t, In t (tickets d) -> ticket_id t <> i) ->
   exists e, res = (Raise e, d) /\ NotFound e) /\
  (forall t, In t (tickets d) -> ticket_id t = i ->
   let may := ticket_user_id t = user_id user \/ is_staff user in
   (~ may -> exists e, res = (Raise e, d) /\ Forbidden e) /\
   (may ->
    exists d' t' l1 l2,
      res = (Ok (ticket_out t'), d') /\
      tickets d = l1 ++ t :: l2 /\ tickets d' = l1 ++ t' :: l2 /\
      ticket_notes t' =
        ticket_notes t ++
        [{| note_ts := ts; note_by := user_id user; note_type := "comment";
            note_message := message body |}] /\
      ticket_status t' = ticket_status t /\
      ticket_assigned_to t' = ticket_assigned_to t /\
      ticket_user_id t' = ticket_user_id t /\
      ticket_updated_at t' = ts)).
Proof.
  apply (add_ticket_comment_effect 100 "000000000000000000000001"
           {| message := "still slow" |} alice ticket_db 1%N).
  - exact wf_ticket_db.
  - reflexivity.
Defined.

(** X10. A request on tickets that fails leaves the database exactly as it
    was: no note, no status, no ticket is written before an error. *)
Theorem failed_ticket_request_changes_nothing
  (op : ticket_op) (d : database) :
  is_ok (fst (run_ticket_op op d)) = false ->
  snd (run_ticket_op op d) = d.
Proof.
  intros Hfail.
  destruct (run_ticket_op_cases op d)
    as [[_ ->]|[(_ & Hok & _)|(j & tj & f & _ & _ & _ & Hrun)]]; [done|..].
  - congruence.
  - by rewrite Hrun in Hfail.
Qed.

Lemma failed_ticket_request_changes_nothing_witness :
  snd (run_ticket_op
         (AddTicketComment 61 "000000000000000000000001"
            {| message := "me too" |} bob) ticket_db) = ticket_db.
Proof.
  apply (failed_ticket_request_changes_nothing
           (AddTicketComment 61 "000000000000000000000001"
              {| message := "me too" |} bob) ticket_db).
  reflexivity.
Defined.

(** *** Reading tickets *)


(** An id with white space is an id that no ticket has; a string that is
    no id at all is refused. *)
Example get_ticket_by_id_by_string :
  get_ticket_by_id "00 00 00 00 00 00 00 01 " alice ticket_db =
    Raise (HTTPException 404 "Ticket not found") /\
  get_ticket_by_id "ticket-1" alice ticket_db =
    Raise (HTTPException 400 "Invalid id format") /\
  get_ticket_by_id "000000000000000000000001" bob ticket_db =
    Raise (HTTPException 403 "Not authorized") /\
  is_ok (get_ticket_by_id "000000000000000000000001" alice ticket_db) = true.
Proof. by vm_compute. Qed.



End TicketMore.

(** ** Orders: creation errors, what never changes, reading *)

Module OrderMore.
Import Orders OrderQueries Scenarios MoreScenarios Samples MoreSamples
  MongoFacts MongoMore StoreFacts OrderFacts TicketFacts Props MoreProps.
#[local] Arguments str_oid : simpl never.

(** X13. [create_order] with a plan id that is malformed, or that no plan
    has, or whose plan is not ACTIVE, fails with HTTP 400 and changes
    nothing: no order is stored and no engineer is touched. *)
Theorem create_order_invalid_plan
  (ts : datetime) (body : OrderCreateIn) (user : AuthUser) (d : database) :
  (forall p, In p (plans d) -> oid (plan_id_in body) = Ok (plan_id p) ->
             plan_status p <> "ACTIVE") ->
  exists e, create_order ts body user d = (Raise e, d) /\ InvalidInput e.
Proof.
  intros Hnone. unfold create_order. unfold bind at 1, lift at 1.
  destruct (oid (plan_id_in body)) as [i|e] eqn:E.
  - unfold bind at 1, gets at 1.
    destruct (find_one _ (plans d)) as [p|] eqn:Hp; [|by eexists].
    apply find_one_Some in Hp as [Hin Hp].
    apply andb_true_iff in Hp as [Hid Hst].
    apply N.eqb_eq in Hid. apply String.eqb_eq in Hst. subst i.
    by destruct (Hnone p Hin).
  - exists e. split; [done|]. by apply (UtilsMore.oid_raises_400 _ _ E).
Qed.

Lemma create_order_invalid_plan_witness :
  exists e,
    create_order 100
      {| plan_id_in := "000000000000000000000009"; address := [];
         pincode := "560034"; preferred_slot := "morning" |}
      alice seeded_db = (Raise e, seeded_db) /\
    InvalidInput e.
Proof.
  apply (create_order_invalid_plan 100
           {| plan_id_in := "000000000000000000000009"; address := [];
              pincode := "560034"; preferred_slot := "morning" |}
           alice seeded_db).
  intros p [<-|[]] H. vm_compute in H. discriminate H.
Defined.

(** *** What requests never change *)

Lemma set_status_same_data s ts o : same_order_data (set_status s ts o) o.
Proof. by repeat split. Qed.

Lemma same_order_data_trans o1 o2 o3 :
  same_order_data o1 o2 -> same_order_data o2 o3 -> same_order_data o1 o3.
Proof.
  unfold same_order_data. intros H1 H2.
  destruct H1 as (?&?&?&?&?&?&?&?&?), H2 as (?&?&?&?&?&?&?&?&?).
  split_and!; congruence.
Qed.

Lemma run_order_ops_same_data i ops d o :
  find_one (fun o => N.eqb (order_id o) i) (orders d) = Some o ->
  exists o',
    find_one (fun o => N.eqb (order_id o) i) (orders (run_order_ops ops d)) =
      Some o' /\
    same_order_data o' o.
Proof.
  revert d o. induction ops as [|op ops IH]; intros d o Ho.
  - exists o. split; [done|]. by repeat split.
  - pose proof (run_order_op_find i op d o Ho) as Hstep.
    destruct (IH _ _ Hstep) as (o' & Ho' & Hsame).
    exists o'. split; [exact Ho'|].
    eapply same_order_data_trans; [exact Hsame|].
    destruct op; [by repeat split|].
    destruct (_ && _); [apply set_status_same_data | by repeat split].
Qed.

(** X14. The price of an order is the price its plan had when the order was
    created, and no later request on orders (creation or status update, by
    anyone) changes the price, the owner, the plan, the address, the pincode,
    the slot, the assigned engineer or the creation time of the order. *)
Theorem order_data_never_changes
  (ts : datetime) (body : OrderCreateIn) (user : AuthUser) (d : database) :
  wf_db d ->
  is_ok (fst (create_order ts body user d)) = true ->
  let d1 := snd (create_order ts body user d) in
  exists o0 p,
    fst (create_order ts body user d) = Ok (order_out o0) /\
    In p (plans d) /\ oid (plan_id_in body) = Ok (plan_id p) /\
    order_price o0 = plan_price p /\
    order_user_id o0 = user_id user /\
    forall ops, exists o,
      find_one (fun o => N.eqb (order_id o) (order_id o0))
        (orders (run_order_ops ops d1)) = Some o /\
      same_order_data o o0.
Proof.
  intros Hwf Hok d1. subst d1.
  destruct (create_order ts body user d) as [[out|?] d1] eqn:Hrun; [|done].
  clear Hok. cbn [fst snd].
  destruct (create_order_ok_inv _ _ _ _ _ _ Hrun) as (plan_oid & p & Hoid & Hp).
  destruct (create_order_runs ts body user d _ Hoid p Hp)
    as (d' & Hrun1 & Horders & _).
  rewrite wf_order_fresh in Hrun1 by done.
  rewrite Hrun1 in Hrun. simplify_eq.
  apply find_one_Some in Hp as [Hin Hp].
  apply andb_true_iff in Hp as [Hid _]. apply N.eqb_eq in Hid. subst plan_oid.
  eexists _, p. split; [done|]. split_and!; try done.
  intros ops. apply run_order_ops_same_data.
  rewrite Horders. by apply wf_order_fresh.
Qed.

Lemma order_data_never_changes_witness :
  let ts := 100 in
  let body := order_request "560034" in
  let user := alice in
  let d := seeded_db in
  let d1 := snd (create_order ts body user d) in
  exists o0 p,
    fst (create_order ts body user d) = Ok (order_out o0) /\
    In p (plans d) /\ oid (plan_id_in body) = Ok (plan_id p) /\
    order_price o0 = plan_price p /\
    order_user_id o0 = user_id user /\
    forall ops, exists o,
      find_one (fun o => N.eqb (order_id o) (order_id o0))
        (orders (run_order_ops ops d1)) = Some o /\
      same_order_data o o0.
Proof.
  apply (order_data_never_changes 100 (order_request "560034") alice
           seeded_db).
  - exact wf_seeded_db.
  - reflexivity.
Defined.

(** *** Failures and the workload of engineers *)

(** [create_order] fails before it writes, or runs to its end. *)
Lemma create_order_cases ts body user d :
  (exists e, create_order ts body user d = (Raise e, d)) \/
  (exists p d',
     let engineer := _pick_engineer_for_area d (pincode body) in
     let doc :=
       order_doc ts body user p (option_map eng_id engineer) (next_oid d) in
     is_ok (fst (create_order ts body user d)) = true /\
     snd (create_order ts body user d) = d' /\
     orders d' = orders d ++ [doc] /\
     engineers d' =
       match engineer with
       | Some e => update_one (fun x => N.eqb (eng_id x) (eng_id e))
                     (assign_one ts) (engineers d)
       | None => engineers d
       end).
Proof.
  destruct (oid (plan_id_in body)) as [plan_oid|e] eqn:Hoid.
  2: { left. unfold create_order. unfold bind at 1, lift at 1.
       rewrite Hoid. by eexists. }
  destruct (find_one (fun p => N.eqb (plan_id p) plan_oid &&
                        String.eqb (plan_status p) "ACTIVE") (plans d))
    as [p|] eqn:Hp.
  2: { left. unfold create_order. unfold bind at 1, lift at 1. rewrite Hoid.
       unfold bind at 1, gets at 1. rewrite Hp. by eexists. }
  right. destruct (create_order_runs ts body user d _ Hoid p Hp)
    as (d' & Hrun & Horders & Heng & _).
  exists p, d'. cbv zeta. rewrite Hrun. split_and!; try done.
  destruct (TicketMore.find_one_appended order_id (orders d)
              (order_doc ts body user p
                 (option_map eng_id (_pick_engineer_for_area d (pincode body)))
                 (next_oid d))) as (y & Hy & _).
  simpl in Hy. by rewrite Hy.
Qed.

(** X15. A request on orders that fails leaves the database exactly as it
    was. *)
Theorem failed_order_request_changes_nothing
  (op : order_op) (d : database) :
  is_ok (fst (run_order_op op d)) = false ->
  snd (run_order_op op d) = d.
Proof.
  intros Hfail. destruct op as [ts body user|ts s body user]; simpl in *.
  - destruct (create_order_cases ts body user d)
      as [[e ->]|(p & d' & Hok & _)]; [done | congruence].
  - destruct (update_order_status_cases ts s body user d)
      as [[e ->]|(i & o & _ & _ & Hrun)]; [done|].
    by rewrite Hrun in Hfail.
Qed.

Lemma failed_order_request_changes_nothing_witness :
  snd (run_order_op
         (UpdateOrderStatus 300 "000000000000000000000004"
            {| status_in := "cancelled" |} alice) completed_order_db) =
  completed_order_db.
Proof.
  apply (failed_order_request_changes_nothing
           (UpdateOrderStatus 300 "000000000000000000000004"
              {| status_in := "cancelled" |} alice) completed_order_db).
  reflexivity.
Defined.

Lemma workload_update_one p ts l x :
  find_one p l = Some x ->
  fold_right Z.add 0 (map eng_workload (update_one p (assign_one ts) l)) =
  fold_right Z.add 0 (map eng_workload l) + 1.
Proof.
  intros Hx.
  destruct (update_one_split p (assign_one ts) l x Hx) as (l1 & l2 & -> & -> & _).
  rewrite !map_app, !fold_right_app. simpl.
  generalize (fold_right Z.add 0 (map eng_workload l2)). intros z.
  clear Hx. induction l1 as [|y l1 IH]; simpl in *; lia.
Qed.

Lemma run_order_op_workload op d :
  wf_db d ->
  total_workload (snd (run_order_op op d)) =
  total_workload d + Z.of_nat (assigned_creations [op] d).
Proof.
  intros Hwf. unfold total_workload.
  destruct op as [ts body user|ts s body user]; cbn [assigned_creations].
  - cbn [run_order_op].
    destruct (create_order_cases ts body user d)
      as [[e ->]|(p & d' & Hok & Hd' & Horders & Heng)].
    + simpl. lia.
    + cbv zeta in *.
      destruct (create_order ts body user d) as [[out|?] d1] eqn:Hrun; [|done].
      cbn [fst snd] in *. subst d1.
      destruct (create_order_ok_inv _ _ _ _ _ _ Hrun) as (po & p' & Hoid & Hp').
      destruct (create_order_runs ts body user d _ Hoid p' Hp')
        as (d2 & Hrun2 & _).
      rewrite wf_order_fresh in Hrun2 by done.
      rewrite Hrun2 in Hrun. injection Hrun as <- <-.
      rewrite Heng. simpl. unfold _pick_engineer_for_area.
      destruct (find_one_asc _ _ _) as [e|] eqn:He; simpl; [|lia].
      apply find_one_asc_Some in He as (Hin & _ & _).
      destruct Hwf as (_ & [Hnd _] & _).
      rewrite (workload_update_one _ ts _ e); [lia|].
      by apply (find_one_unique eng_id).
  - cbn [run_order_op].
    destruct (update_order_status_cases ts s body user d)
      as [[e ->]|(i & o & _ & _ & ->)]; simpl; lia.
Qed.

(** X16. The workload of the engineers only grows, and by orders created:
    over any sequence of requests on orders, the sum of all workloads goes up
    by exactly the number of orders that were created with an engineer
    assigned.  No status update, cancellation and completion included, gives
    workload back. *)
Theorem workload_counts_assigned_orders (ops : list order_op) (d : database) :
  wf_db d ->
  total_workload (run_order_ops ops d) =
  total_workload d + Z.of_nat (assigned_creations ops d).
Proof.
  revert d. induction ops as [|op ops IH]; intros d Hwf.
  - simpl. lia.
  - pose proof (run_order_op_workload op d Hwf) as Hstep.
    assert (Hwf1 : wf_db (snd (run_order_op op d))).
    { destruct op; [by apply create_order_wf|].
      by apply update_order_status_wf. }
    cbn [run_order_ops fold_left assigned_creations] in *.
    fold (run_order_ops ops (snd (run_order_op op d))).
    destruct (run_order_op op d) as [r d1]. cbn [fst snd] in *.
    rewrite IH, Hstep by done. lia.
Qed.

Lemma workload_counts_assigned_orders_witness :
  let ops :=
    [CreateOrder 100 (order_request "560034") alice;
     UpdateOrderStatus 200 "000000000000000000000004"
       {| status_in := "cancelled" |} staff;
     CreateOrder 300 (order_request "560099") alice;
     CreateOrder 400 (order_request "560001") alice] in
  total_workload (run_order_ops ops seeded_db) =
  total_workload seeded_db + Z.of_nat (assigned_creations ops seeded_db).
Proof.
  apply (workload_counts_assigned_orders
           [CreateOrder 100 (order_request "560034") alice;
            UpdateOrderStatus 200 "000000000000000000000004"
              {| status_in := "cancelled" |} staff;
            CreateOrder 300 (order_request "560099") alice;
            CreateOrder 400 (order_request "560001") alice]
           seeded_db).
  exact wf_seeded_db.
Defined.

(** One order cancelled, one without engineer, two assigned: the workloads
    go from 2 and 0 to 2 and 2. *)
Example workload_after_cancellation :
  let ops :=
    [CreateOrder 100 (order_request "560034") alice;
     UpdateOrderStatus 200 "000000000000000000000004"
       {| status_in := "cancelled" |} staff;
     CreateOrder 300 (order_request "560099") alice;
     CreateOrder 400 (order_request "560001") alice] in
  assigned_creations ops seeded_db = 2%nat /\
  map eng_workload (engineers (run_order_ops ops seeded_db)) = [2; 2].
Proof. split; reflexivity. Qed.

(** *** Reading orders *)


(** An id with white space is an id that no order has; a string that is no
    id at all is refused. *)
Example get_order_by_id_by_string :
  get_order_by_id "00 00 00 00 00 00 00 04 " alice completed_order_db =
    Raise (HTTPException 404 "Order not found") /\
  get_order_by_id "order-4" alice completed_order_db =
    Raise (HTTPException 400 "Invalid id format") /\
  get_order_by_id "000000000000000000000004" bob completed_order_db =
    Raise (HTTPException 403 "Not authorized") /\
  is_ok (get_order_by_id "000000000000000000000004" alice completed_order_db)
    = true.
Proof. by vm_compute. Qed.



Example list_orders_latest_own :
  let d := run_order_ops
             [CreateOrder 100 (order_request "560034") alice;
              CreateOrder 200 (order_request "560001") bob;
              CreateOrder 300 (order_request "560001") alice] seeded_db in
  map created_at (list_orders_for_user alice 1 d) = [300] /\
  map created_at (list_orders_for_user alice 100 d) = [300; 100] /\
  map created_at (list_orders_for_user bob 100 d) = [200].
Proof. by vm_compute. Qed.

End OrderMore.

(** ** core/auth.py: the caller of a request *)

Module IdentityMore.
Import Identity Orders Tickets TicketOps Samples MoreSamples OrderFacts
  TicketFacts Props MoreProps.

Section Tokens.
Variable jwt_decode : string -> option dict.
Variable py_repr : json -> string.

(** A token whose [roles] claim is missing, empty or not a list gives the
    roles [["user"]]. *)
Lemma get_current_user_default_roles token payload :
  jwt_decode token = Some payload ->
  truthy (default JNull (dict_get "sub" payload)) = true ->
  (forall items, dict_get "roles" payload = Some (JArr items) -> items = []) ->
  get_current_user jwt_decode py_repr (Some token) =
    Ok {| user_id := py_str py_repr (default JNull (dict_get "sub" payload));
          roles := ["user"] |}.
Proof.
  intros Hdec Hsub Hroles. unfold get_current_user.
  rewrite Hdec. cbv zeta. rewrite Hsub. cbn [negb].
  destruct (dict_get "roles" payload) as [v|]; [|done].
  destruct v as [|b|z|q|s|items|fields];
    try (match goal with
         | |- context [truthy ?x] => by destruct (truthy x)
         end).
  by rewrite (Hroles items eq_refl).
Qed.

(** X19. [get_current_user] fails with HTTP 401 only.  When it returns a
    caller, the token was decoded, its [sub] claim is truthy and its text is
    the caller's id, and the caller has at least one role. *)
Theorem get_current_user_result (creds : option string) :
  match get_current_user jwt_decode py_repr creds with
  | Raise e => Unauthenticated e
  | Ok user =>
      roles user <> [] /\
      exists token payload sub,
        creds = Some token /\ jwt_decode token = Some payload /\
        dict_get "sub" payload = Some sub /\ truthy sub = true /\
        user_id user = py_str py_repr sub
  end.
Proof.
  unfold get_current_user. destruct creds as [token|]; [|done].
  destruct (jwt_decode token) as [payload|] eqn:Hdec; [|done].
  cbv zeta.
  destruct (dict_get "sub" payload) as [sub|] eqn:Hsub; [|by cbn].
  change (default JNull (Some sub)) with sub.
  destruct (truthy sub) eqn:Htruthy; [|by cbn].
  cbn [negb roles user_id]. split.
  - destruct (dict_get "roles" payload) as [v|]; [|done].
    destruct (truthy v) eqn:Hv; [|done].
    destruct v as [|b|z|q|s|items|fields]; try done.
    by destruct items.
  - by exists token, payload, sub.
Qed.

(** X20. A token that verifies and names a subject, but whose [roles] claim
    is missing, empty or not a list, makes a plain user: the caller's roles
    are [["user"]], and the staff operations [update_order_status] and
    [assign_ticket] answer HTTP 403 for it and leave the database as it
    was, whatever the order or ticket. *)
Theorem token_without_roles_cannot_act (token : string) (payload : dict) :
  jwt_decode token = Some payload ->
  truthy (default JNull (dict_get "sub" payload)) = true ->
  (forall items, dict_get "roles" payload = Some (JArr items) -> items = []) ->
  exists user,
    get_current_user jwt_decode py_repr (Some token) = Ok user /\
    roles user = ["user"] /\
    (forall ts id body d,
       exists e, update_order_status ts id body user d = (Raise e, d) /\
                 Forbidden e) /\
    (forall ts id body d,
       exists e, assign_ticket ts id body user d = (Raise e, d) /\
                 Forbidden e).
Proof.
  intros Hdec Hsub Hroles.
  eexists. split; [by apply get_current_user_default_roles|].
  split; [done|]. split; intros ts id body d.
  - by apply update_order_status_forbidden.
  - eexists. split; [by apply TicketMore.assign_ticket_forbidden|]. done.
Qed.

End Tokens.

Lemma token_without_roles_cannot_act_witness :
  let jwt_decode := fun token : string =>
    if String.eqb token "header.claims.signature"
    then Some [("sub", JStr "carol"); ("roles", JStr "admin")]
    else None in
  let py_repr := fun _ : json => "" in
  exists user,
    get_current_user jwt_decode py_repr (Some "header.claims.signature") =
      Ok user /\
    roles user = ["user"] /\
    (forall ts id body d,
       exists e, update_order_status ts id body user d = (Raise e, d) /\
                 Forbidden e) /\
    (forall ts id body d,
       exists e, assign_ticket ts id body user d = (Raise e, d) /\
                 Forbidden e).
Proof.
  apply (token_without_roles_cannot_act
           (fun token : string =>
              if String.eqb token "header.claims.signature"
              then Some [("sub", JStr "carol"); ("roles", JStr "admin")]
              else None)
           (fun _ : json => "")
           "header.claims.signature"
           [("sub", JStr "carol"); ("roles", JStr "admin")]).
  - reflexivity.
  - reflexivity.
  - intros items H. vm_compute in H. discriminate H.
Defined.

(** The roles of a token are the texts of its [roles] list, numbers
    included. *)
Example get_current_user_roles :
  get_current_user
    (fun _ => Some [("sub", JInt 42); ("roles", JArr [JStr "agent"; JInt 7])])
    (fun _ => "") (Some "any") =
  Ok {| user_id := "42"; roles := ["agent"; "7"] |}.
Proof. reflexivity. Qed.

End IdentityMore.

(** ** Chat: failures of the AI service, conversations, history *)

Module ChatMore.
Import Chat Scenarios Samples MoreSamples MongoFacts MongoMore StoreFacts
  RateLimitFacts ChatFacts Props MoreProps.
#[local] Arguments str_oid : simpl never.

(** X21. When the limiter lets a send through and the AI service answers
    with a status of 400 or more, with JSON that is not an object, or with
    an object without [reply], the send fails with HTTP 502.  By then the
    user's message is stored and stays, the AI service was called once, no
    AI message is stored, and the send has taken its place in the caller's
    rate-limit queue. *)
Theorem chat_send_refused_answer
  (py_repr : json -> string) (env : send_env) (body : ChatSendIn)
  (user : AuthUser) (w : world) :
  let payload := ai_payload user (message_in body) (context body) in
  let w' := snd (chat_send py_repr env body user w) in
  fst (check (user_id user) (env_time env) (rate_limiter w)) = Ok tt ->
  refused_answer (env_ai env payload) ->
  exists e um,
    fst (chat_send py_repr env body user w) = Raise e /\
    UpstreamError e /\
    messages (db w') = messages (db w) ++ [um] /\ user_message body um /\
    ai_calls w' = ai_calls w ++ [payload] /\
    events_of (rate_limiter w') (user_id user) =
      evict (window_seconds (_config (rate_limiter w))) (env_time env)
        (events_of (rate_limiter w) (user_id user)) ++ [env_time env].
Proof.
  intros payload w' Hok Hbad. subst w'.
  destruct (chat_send_passed py_repr env body user w Hok)
    as (um & d1 & Hm & Hum & Hrun).
  destruct (read_response_refused _ Hbad) as (e & He & Hup).
  fold payload in Hrun. rewrite He in Hrun.
  destruct Hrun as (w1 & Hrun & Hdb & Hcalls).
  exists e, um. rewrite chat_send_limiter, Hrun. cbn [fst snd].
  rewrite Hdb. split_and!; try done.
  destruct (check_cases (user_id user) (env_time env) (rate_limiter w))
    as [[Hc _]|[Hc _]]; rewrite Hc in *; [done|].
  cbn [snd]. unfold events_of at 1. simpl. by rewrite lookup_insert_eq.
Qed.

Lemma chat_send_refused_answer_witness :
  let env := env_at 0 answer_down in
  let payload := ai_payload alice (message_in hello) (context hello) in
  let w' := snd (chat_send no_repr env hello alice fresh_world) in
  exists e um,
    fst (chat_send no_repr env hello alice fresh_world) = Raise e /\
    UpstreamError e /\
    messages (db w') = messages (db fresh_world) ++ [um] /\
    user_message hello um /\
    ai_calls w' = ai_calls fresh_world ++ [payload] /\
    events_of (rate_limiter w') (user_id alice) =
      evict (window_seconds (_config (rate_limiter fresh_world)))
        (env_time env)
        (events_of (rate_limiter fresh_world) (user_id alice)) ++
      [env_time env].
Proof.
  apply (chat_send_refused_answer no_repr (env_at 0 answer_down) hello alice
           fresh_world).
  - reflexivity.
  - simpl. lia.
Defined.

(** X22. A cursor that [oid] refuses is only looked at when the caller has
    a conversation: [chat_history] then raises HTTP 400; for a caller
    without conversation it returns the empty page all the same. *)
Theorem chat_history_malformed_cursor
  (user : AuthUser) (limit : Z) (s : string) (d : database) :
  s <> "" -> is_ok (oid s) = false ->
  match chat_history user limit (Some s) d with
  | Ok out =>
      out = empty_history user /\
      forall c, In c (conversations d) -> conv_user_id c <> user_id user
  | Raise e =>
      InvalidInput e /\
      exists c, In c (conversations d) /\ conv_user_id c = user_id user
  end.
Proof.
  intros Hs Hoid. unfold chat_history.
  destruct (find_one_desc _ _ _) as [conv|] eqn:Hconv.
  - destruct (cursor_filter_malformed s Hs Hoid) as (e & -> & He).
    split; [done|].
    apply find_one_desc_Some in Hconv as (Hin & Hp & _).
    exists conv. split; [done|]. by apply String.eqb_eq.
  - split; [done|]. intros c Hc.
    rewrite find_one_desc_None in Hconv. apply String.eqb_neq. by apply Hconv.
Qed.

Lemma chat_history_malformed_cursor_witness :
  match chat_history alice 20 (Some "latest") five_messages with
  | Ok out =>
      out = empty_history alice /\
      forall c, In c (conversations five_messages) ->
                conv_user_id c <> user_id alice
  | Raise e =>
      InvalidInput e /\
      exists c, In c (conversations five_messages) /\
                conv_user_id c = user_id alice
  end.
Proof.
  apply (chat_history_malformed_cursor alice 20 "latest" five_messages).
  - discriminate.
  - reflexivity.
Defined.

(** The same cursor, for the owner of a conversation and for someone
    else; and a cursor with white space, which [oid] takes: it is an id of
    eight bytes, above every id of the store that starts with smaller
    bytes. *)
Example chat_history_malformed_cursor_by_caller :
  chat_history alice 20 (Some "latest") five_messages =
    Raise (HTTPException 400 "Invalid id format") /\
  chat_history bob 20 (Some "latest") five_messages = Ok (empty_history bob) /\
  option_map (fun h => map id (messages_out h))
    (match chat_history alice 2 (Some "00 00 00 00 00 00 00 05 ")
             five_messages with
     | Ok h => Some h
     | Raise _ => None
     end) =
  Some ["000000000000000000000005"; "000000000000000000000006"].
Proof. by vm_compute. Qed.

(** *** One conversation per user *)

Lemma preserves_zoom {A} (P : database -> Prop) (m : M database A) :
  preserves P m -> preserves (fun w => P (db w)) (zoom db set_db m).
Proof.
  intros Hm w Hw. unfold zoom. specialize (Hm (db w) Hw).
  by destruct (m (db w)).
Qed.

(** What the two steps of [chat_send] on the database keep, the whole send
    keeps. *)
Lemma chat_send_preserves (P : database -> Prop) py_repr env body user :
  (forall uid ts, preserves P (_get_or_create_conversation uid ts)) ->
  (forall cid sender text payload ts,
     preserves P (_store_message cid sender text payload ts)) ->
  preserves (fun w => P (db w)) (chat_send py_repr env body user).
Proof.
  intros Hconv Hstore. unfold chat_send.
  apply preserves_bind.
  { intros w Hw. unfold zoom. by destruct (check _ _ _). }
  intros []. apply preserves_bind;
    [apply preserves_zoom, Hconv | intros conv].
  apply preserves_bind;
    [destruct conv; [apply preserves_ret | apply preserves_raise] | intros cid].
  apply preserves_bind; [apply preserves_zoom, Hstore | intros user_msg].
  apply preserves_bind.
  { unfold _call_ai_engine. apply preserves_bind;
      [by apply preserves_modify | intros []; apply preserves_lift]. }
  intros ai_data. cbv zeta. apply preserves_bind;
    [apply preserves_zoom, Hstore | intros ai_msg].
  apply preserves_bind;
    [destruct user_msg; [apply preserves_ret | apply preserves_raise]
    |intros ?].
  apply preserves_bind;
    [destruct ai_msg; [apply preserves_ret | apply preserves_raise]
    |intros ?].
  unfold make_ChatSendOut.
  destruct (as_dicts _); [apply preserves_ret | apply preserves_raise].
Qed.

Lemma update_one_users p ts l :
  map conv_user_id (update_one p (set_last_message_at ts) l) =
  map conv_user_id l.
Proof.
  induction l as [|c l IH]; simpl; [done|].
  destruct (p c); simpl; [done | by rewrite IH].
Qed.

Lemma get_or_create_conversation_one uid ts :
  preserves one_conversation_each (_get_or_create_conversation uid ts).
Proof.
  intros d Hd. unfold _get_or_create_conversation, bind, gets. simpl.
  destruct (find_one_desc _ _ _) as [c|] eqn:Hc; [done|].
  simpl. unfold one_conversation_each. simpl.
  rewrite map_app. simpl. apply NoDup_app. split; [done|].
  split; [|apply NoDup_singleton].
  intros u Hu Hu'. apply list_elem_of_singleton in Hu'. subst u.
  apply list_elem_of_fmap in Hu as (c & Hcu & Hin).
  rewrite find_one_desc_None in Hc.
  apply list_elem_of_In in Hin. specialize (Hc c Hin).
  apply String.eqb_neq in Hc. done.
Qed.

Lemma store_message_one cid sender text payload ts :
  preserves one_conversation_each (_store_message cid sender text payload ts).
Proof.
  intros d Hd.
  unfold _store_message, insert_one, bind, gets, modify, fresh_oid, ret.
  simpl. unfold one_conversation_each. simpl. by rewrite update_one_users.
Qed.

(** X23. Sends never give a user a second conversation: when no user has two
    conversations before a send, by whoever and however it ends, none has
    two after it. *)
Theorem chat_send_one_conversation_each
  (py_repr : json -> string) (env : send_env) (body : ChatSendIn)
  (user : AuthUser) (w : world) :
  one_conversation_each (db w) ->
  one_conversation_each (db (snd (chat_send py_repr env body user w))).
Proof.
  apply (chat_send_preserves one_conversation_each).
  - apply get_or_create_conversation_one.
  - apply store_message_one.
Qed.

Lemma chat_send_one_conversation_each_witness :
  one_conversation_each
    (db (snd (chat_send no_repr (env_at 9 answer_ok) hello bob
                {| rate_limiter := new chat_config; db := five_messages;
                   ai_calls := [] |}))).
Proof.
  apply (chat_send_one_conversation_each no_repr (env_at 9 answer_ok) hello bob
           {| rate_limiter := new chat_config; db := five_messages;
              ai_calls := [] |}).
  unfold one_conversation_each. apply (bool_decide_unpack _). by vm_compute.
Defined.

(** *** From a send to the history *)

Lemma store_message_full cid sender text payload ts d :
  exists m d',
    _store_message cid sender text payload ts d = (Ok (Some m), d') /\
    msg_id m = next_oid d /\
    messages d' = messages d ++ [stored cid sender text payload ts (next_oid d)] /\
    conversations d' =
      update_one (fun c => N.eqb (conv_id c) cid) (set_last_message_at ts)
        (conversations d) /\
    next_oid d' = N.succ (next_oid d).
Proof.
  unfold _store_message, insert_one, bind, gets, modify, fresh_oid, ret; simpl.
  rewrite find_one_app, N.eqb_refl.
  destruct (find_one _ (messages d)) as [m|] eqn:E.
  - apply find_one_Some in E as [_ E]. apply N.eqb_eq in E.
    by eexists _, _.
  - by eexists _, _.
Qed.

(** The conversation a send works on, when no user has two: the user's own,
    or a new one at the end. *)
Lemma get_or_create_conversation_split uid ts d :
  wf_db d -> one_conversation_each d ->
  exists c d' l1 l2,
    _get_or_create_conversation uid ts d = (Ok (Some c), d') /\
    messages d' = messages d /\
    (next_oid d <= next_oid d')%N /\
    conversations d' = l1 ++ c :: l2 /\
    conv_user_id c = uid /\
    (forall y, In y l1 \/ In y l2 -> conv_id y <> conv_id c) /\
    (forall y, In y l1 \/ In y l2 -> conv_user_id y <> uid).
Proof.
  intros Hwf Hone.
  pose proof Hwf as (_ & _ & _ & _ & [Hnd Hlt] & _).
  unfold _get_or_create_conversation, bind, gets; simpl.
  destruct (find_one_desc _ _ _) as [c|] eqn:Hc.
  - apply find_one_desc_Some in Hc as (Hin & Hp & _).
    apply String.eqb_eq in Hp.
    apply in_split in Hin as (l1 & l2 & Hl).
    unfold one_conversation_each in Hone. rewrite Hl in Hnd, Hone.
    exists c, d, l1, l2. split_and!; try done.
    + by apply NoDup_map_split.
    + rewrite <- Hp. by apply NoDup_map_split.
  - simpl. rewrite find_one_app, N.eqb_refl.
    rewrite (OrderFacts.find_one_fresh conv_id _ _ Hlt).
    rewrite find_one_desc_None in Hc.
    eexists _, _, (conversations d), []. split; [reflexivity|].
    simpl. split_and!; try done.
    + lia.
    + intros y [Hy|[]] Heq. rewrite Forall_forall in Hlt.
      apply list_elem_of_In in Hy. apply Hlt in Hy. lia.
    + intros y [Hy|[]]. specialize (Hc y Hy). by apply String.eqb_neq in Hc.
Qed.

Lemma chat_send_steps py_repr env body user w data c d0 um d1 am d2 :
  fst (check (user_id user) (env_time env) (rate_limiter w)) = Ok tt ->
  read_response
    (env_ai env (ai_payload user (message_in body) (context body))) = Ok data ->
  _get_or_create_conversation (user_id user) (env_conv_ts env) (db w) =
    (Ok (Some c), d0) ->
  _store_message (conv_id c) "user" (Some (message_in body))
    (if context_truthy (context body)
     then Some [("context", JObj (default [] (context body)))]
     else None) (env_user_ts env) d0 = (Ok (Some um), d1) ->
  _store_message (conv_id c) "ai" (Some (reply_text_of py_repr data))
    (match suggested_actions_of data with
     | [] => None
     | _ :: _ =>
         Some [("suggested_actions", JArr (suggested_actions_of data))]
     end) (env_ai_ts env) d1 = (Ok (Some am), d2) ->
  exists w',
    chat_send py_repr env body user w =
      (match as_dicts (suggested_actions_of data) with
       | Some acts =>
           Ok {| reply := reply_text_of py_repr data;
                 suggested_actions := acts;
                 conversation_id := str_oid (conv_id c);
                 message_id := str_oid (msg_id um);
                 reply_message_id := str_oid (msg_id am) |}
       | None => Raise ValidationError
       end, w') /\
    db w' = d2.
Proof.
  intros Hok Hresp Hc Hs Hs2.
  destruct (check _ _ _) as [[[]|?] l1] eqn:Hcheck; simpl in Hok; [|done].
  run_to_ai Hcheck Hc Hs Hresp.
  unfold bind at 1, zoom at 1. cbn [db log_ai_call set_db]. rewrite Hs2.
  unfold bind at 1. cbn [subscript ret]. unfold bind at 1. cbn [subscript ret].
  unfold make_ChatSendOut.
  destruct (as_dicts (suggested_actions_of data)) as [acts|];
    eexists; (split; [reflexivity|]); done.
Qed.

Lemma chat_send_ok_inv py_repr env body user w :
  is_ok (fst (chat_send py_repr env body user w)) = true ->
  fst (check (user_id user) (env_time env) (rate_limiter w)) = Ok tt /\
  exists data acts,
    read_response
      (env_ai env (ai_payload user (message_in body) (context body))) =
      Ok data /\
    as_dicts (suggested_actions_of data) = Some acts.
Proof.
  intros Hok.
  destruct (fst (check (user_id user) (env_time env) (rate_limiter w)))
    as [[]|e] eqn:Hcheck.
  2: { by rewrite (chat_send_refused py_repr env body user w e Hcheck) in Hok. }
  split; [done|].
  destruct (chat_send_passed py_repr env body user w Hcheck)
    as (um & d1 & _ & _ & Hrun).
  destruct (read_response _) as [data|e].
  - destruct Hrun as (r & am & w' & Hrun & _ & _ & _ & Hr).
    rewrite Hrun in Hok. exists data.
    destruct (as_dicts _) as [acts|]; [by exists acts|].
    by rewrite Hr in Hok.
  - destruct Hrun as (w' & Hrun & _). by rewrite Hrun in Hok.
Qed.

(** The page after an exchange: the two messages stored last, in their
    order, close it. *)
Lemma history_docs_after_exchange conv limit d msgs um am :
  2 <= limit ->
  messages d = msgs ++ [um; am] ->
  msg_conversation_id um = str_oid (conv_id conv) ->
  msg_conversation_id am = str_oid (conv_id conv) ->
  (forall m, In m msgs -> (msg_id m < msg_id um)%N) ->
  (msg_id um < msg_id am)%N ->
  exists earlier, history_docs conv None limit d = earlier ++ [um; am].
Proof.
  intros Hlimit Hd Hum Ham Hlt Hlt'. unfold history_docs. rewrite Hd.
  rewrite List.filter_app. cbn [List.filter]. unfold history_query at 2 3.
  rewrite Hum, Ham, String.eqb_refl. cbn [andb].
  set (F := List.filter (history_query conv None) msgs).
  assert (HF : forall m, In m F -> (msg_id m < msg_id um)%N).
  { intros m Hm. apply filter_In in Hm as [Hm _]. by apply Hlt. }
  change (F ++ [um; am]) with (F ++ [um] ++ [am]). rewrite app_assoc.
  rewrite sort_desc_snoc_max.
  2: { intros y Hy. apply in_app_or in Hy as [Hy|[<-|[]]].
       - specialize (HF y Hy). lia.
       - lia. }
  rewrite sort_desc_snoc_max by (intros y Hy; specialize (HF y Hy); lia).
  rewrite limit_docs_page by lia.
  replace (Z.to_nat limit) with (S (S (Z.to_nat (limit - 2)))) by lia.
  cbn [firstn rev]. rewrite <- app_assoc. by eexists.
Qed.

(** X24. A send that returns shows up in the history.  On a well-formed
    store where no user has two conversations, a history page of two or more
    without cursor, asked after the send returned, is of the conversation
    the send names and ends with the two messages of the send: the user's
    message under [message_id] with the text that was sent, then the AI's
    under [reply_message_id] with the reply that was returned. *)
Theorem chat_send_then_history
  (py_repr : json -> string) (env : send_env) (body : ChatSendIn)
  (user : AuthUser) (w : world) (limit : Z) :
  let res := chat_send py_repr env body user w in
  wf_db (db w) ->
  one_conversation_each (db w) ->
  2 <= limit <= 100 ->
  is_ok (fst res) = true ->
  exists out h earlier mu ma,
    fst res = Ok out /\
    chat_history user limit None (db (snd res)) = Ok h /\
    history_conversation_id h = conversation_id out /\
    messages_out h = earlier ++ [mu; ma] /\
    shows mu (message_id out) "user" (message_in body) /\
    shows ma (reply_message_id out) "ai" (reply out).
Proof.
  intros res Hwf Hone Hlimit Hok. subst res.
  destruct (chat_send_ok_inv _ _ _ _ _ Hok)
    as (Hcheck & data & acts & Hresp & Hacts).
  destruct (get_or_create_conversation_split (user_id user) (env_conv_ts env)
              (db w) Hwf Hone)
    as (c & d0 & l1 & l2 & Hc & Hm0 & Hn0 & Hconvs & Hcu & Hids & Hothers).
  destruct (store_message_full (conv_id c) "user" (Some (message_in body))
              (if context_truthy (context body)
               then Some [("context", JObj (default [] (context body)))]
               else None) (env_user_ts env) d0)
    as (um & d1 & Hs & Humid & Hm1 & Hc1 & Hn1).
  destruct (store_message_full (conv_id c) "ai"
              (Some (reply_text_of py_repr data))
              (match suggested_actions_of data with
               | [] => None
               | _ :: _ =>
                   Some [("suggested_actions",
                          JArr (suggested_actions_of data))]
               end) (env_ai_ts env) d1)
    as (am & d2 & Hs2 & Hamid & Hm2 & Hc2 & Hn2).
  destruct (chat_send_steps _ _ _ _ _ _ _ _ _ _ _ _ Hcheck Hresp Hc Hs Hs2)
    as (w' & Hrun & Hdb).
  rewrite Hacts in Hrun. rewrite Hrun. cbn [fst snd]. rewrite Hdb.
  (* the conversation, after the two messages *)
  set (c2 := set_last_message_at (env_ai_ts env)
               (set_last_message_at (env_user_ts env) c)).
  assert (Hconvs2 : conversations d2 = l1 ++ c2 :: l2).
  { assert (Hl1 : forall y, In y l1 -> N.eqb (conv_id y) (conv_id c) = false).
    { intros y Hy. apply N.eqb_neq. apply Hids. by left. }
    rewrite Hc2, Hc1, Hconvs.
    rewrite (update_one_at _ (set_last_message_at (env_user_ts env))
               l1 c l2 Hl1 (N.eqb_refl _)).
    by rewrite (update_one_at _ (set_last_message_at (env_ai_ts env))
                  l1 (set_last_message_at (env_user_ts env) c) l2 Hl1
                  (N.eqb_refl _)). }
  assert (Hfind :
    find_one_desc (fun c => String.eqb (conv_user_id c) (user_id user))
      conv_last_message_at (conversations d2) = Some c2).
  { rewrite Hconvs2. apply find_one_desc_only.
    - simpl. rewrite Hcu. apply String.eqb_refl.
    - intros y Hy. apply String.eqb_neq. by apply Hothers. }
  (* the messages *)
  set (mu := stored (conv_id c) "user" (Some (message_in body))
               (if context_truthy (context body)
                then Some [("context", JObj (default [] (context body)))]
                else None) (env_user_ts env) (next_oid d0)) in *.
  set (ma := stored (conv_id c) "ai" (Some (reply_text_of py_repr data))
               (match suggested_actions_of data with
                | [] => None
                | _ :: _ =>
                    Some [("suggested_actions",
                           JArr (suggested_actions_of data))]
                end) (env_ai_ts env) (next_oid d1)) in *.
  assert (Hmsgs : messages d2 = messages (db w) ++ [mu; ma]).
  { by rewrite Hm2, Hm1, Hm0, <- app_assoc. }
  destruct (history_docs_after_exchange c2 limit d2 (messages (db w)) mu ma)
    as [earlier Hdocs]; try done.
  { lia. }
  { intros m Hm. destruct Hwf as (_ & _ & _ & _ & _ & [_ Hlt]).
    rewrite Forall_forall in Hlt. apply list_elem_of_In in Hm.
    apply Hlt in Hm. simpl. lia. }
  { simpl. rewrite Hn1. lia. }
  unfold chat_history. rewrite Hfind. cbn [cursor_filter]. rewrite Hdocs.
  eexists _, _, (map message_out earlier), (message_out mu), (message_out ma).
  split; [reflexivity|]. split; [reflexivity|]. cbn.
  split_and!; try done.
  - by rewrite map_app.
  - by rewrite Humid.
  - by rewrite Hamid.
Qed.

Lemma wf_five_messages : wf_db five_messages.
Proof.
  unfold wf_db, ids_ok. apply (bool_decide_unpack _). by vm_compute.
Qed.

Lemma chat_send_then_history_witness :
  let w := {| rate_limiter := new chat_config; db := five_messages;
              ai_calls := [] |} in
  let res := chat_send no_repr (env_at 9 answer_ok) hello alice w in
  exists out h earlier mu ma,
    fst res = Ok out /\
    chat_history alice 20 None (db (snd res)) = Ok h /\
    history_conversation_id h = conversation_id out /\
    messages_out h = earlier ++ [mu; ma] /\
    shows mu (message_id out) "user" (message_in hello) /\
    shows ma (reply_message_id out) "ai" (reply out).
Proof.
  apply (chat_send_then_history no_repr (env_at 9 answer_ok) hello alice
           {| rate_limiter := new chat_config; db := five_messages;
              ai_calls := [] |} 20).
  - exact wf_five_messages.
  - unfold one_conversation_each. apply (bool_decide_unpack _). by vm_compute.
  - lia.
  - reflexivity.
Defined.

(** After three sends, one of them unanswered, and a fourth: the last page
    of two. *)
Example history_after_fourth_send :
  let w := {| rate_limiter := new chat_config; db := five_messages;
              ai_calls := [] |} in
  let d := db (snd (chat_send no_repr (env_at 9 answer_ok) hello alice w)) in
  option_map (fun h => map (fun m => (sender m, text m)) (messages_out h))
    (match chat_history alice 2 None d with
     | Ok h => Some h
     | Raise _ => None
     end) =
  Some [("user", Some "hello"); ("ai", Some "hi")].
Proof. by vm_compute. Qed.

End ChatMore.

(** ** Plans: the catalogue and the orders *)

Module PlanMore.
Import Plans Samples MoreSamples MongoFacts MongoMore StoreFacts OrderFacts
  Props MoreProps.
#[local] Arguments str_oid : simpl never.




Example list_plans_by_area :
  map name (list_plans None None None None (Some "560034") seeded_plans) =
    ["Starter 100"; "Night Streaming 300"] /\
  map name (list_plans None (Some 900) None None (Some "") seeded_plans) =
    ["Starter 100"] /\
  map name (list_plans None None (Some 200) None (Some "560001") seeded_plans)
    = [].
Proof. by vm_compute. Qed.

(** *** The plan of an order *)

Lemma find_one_map {A B} (f : A -> B) (p : B -> bool) (l : list A) :
  find_one p (map f l) = option_map f (find_one (fun x => p (f x)) l).
Proof.
  unfold find_one. induction l as [|x l IH]; simpl; [done|].
  by destruct (p (f x)).
Qed.

(** With unique ids, looking for an id and a status at once is looking for
    the id and then at the status. *)
Lemma find_one_id_and {A} (id : A -> ObjectId) (q : A -> bool) i (l : list A) :
  NoDup (map id l) ->
  find_one (fun x => N.eqb (id x) i && q x) l =
  match find_one (fun x => N.eqb (id x) i) l with
  | Some x => if q x then Some x else None
  | None => None
  end.
Proof.
  unfold find_one. induction l as [|x l IH]; simpl; [done|].
  intros Hnd. apply NoDup_cons in Hnd as [Hx Hnd].
  destruct (N.eqb_spec (id x) i) as [<-|Hne]; simpl; [|by apply IH].
  destruct (q x); [done|].
  apply (find_one_None _ _). intros y Hy.
  destruct (N.eqb_spec (id y) (id x)) as [Heq|_]; [|done].
  exfalso. apply Hx. rewrite <- Heq. by apply list_elem_of_In, in_map.
Qed.

(** X26. What the catalogue shows is what can be ordered.  On a well-formed
    store whose plans are those of the catalogue: when [get_plan_by_id]
    returns a plan, an order for that id is created, at the price shown;
    when it raises (HTTP 400 for a malformed id, 404 for an unknown plan or
    one that is not ACTIVE), the order is refused with HTTP 400 and nothing
    is stored. *)
Theorem shown_plans_can_be_ordered
  (ts : datetime) (body : Orders.OrderCreateIn) (user : AuthUser)
  (d : database) (coll : list plan_document) :
  wf_db d ->
  plans d = map plan_core coll ->
  match get_plan_by_id (Orders.plan_id_in body) coll with
  | Ok out =>
      status out = "ACTIVE" /\
      exists o, fst (Orders.create_order ts body user d) = Ok o /\
                Orders.price o = price out
  | Raise e =>
      (InvalidInput e \/ NotFound e) /\
      exists e', Orders.create_order ts body user d = (Raise e', d) /\
                 InvalidInput e'
  end.
Proof.
  intros Hwf Hplans. unfold get_plan_by_id.
  destruct (oid (Orders.plan_id_in body)) as [i|e] eqn:Hoid.
  2: { pose proof (UtilsMore.oid_raises_400 _ _ Hoid) as He.
       split; [by left|]. exists e. split; [|done].
       unfold Orders.create_order. unfold bind at 1, lift at 1.
       by rewrite Hoid. }
  assert (Hfind :
    find_one (fun p => N.eqb (plan_id p) i &&
                       String.eqb (plan_status p) "ACTIVE") (plans d) =
    match find_one (fun doc => N.eqb (plan_id (plan_core doc)) i) coll with
    | Some doc =>
        if String.eqb (plan_status (plan_core doc)) "ACTIVE"
        then Some (plan_core doc) else None
    | None => None
    end).
  { destruct Hwf as ([Hnd _] & _).
    rewrite (find_one_id_and plan_id _ i _ Hnd), Hplans, find_one_map.
    by destruct (find_one _ coll). }
  destruct (find_one _ coll) as [doc|] eqn:Hdoc.
  - destruct (String.eqb_spec (plan_status (plan_core doc)) "ACTIVE")
      as [Hactive|Hretired]; cbn [negb].
    + split; [done|].
      destruct (create_order_runs ts body user d i Hoid _ Hfind)
        as (d' & Hrun & _).
      rewrite wf_order_fresh in Hrun by done.
      rewrite Hrun. by eexists.
    + split; [by right|]. eexists. split.
      * unfold Orders.create_order. unfold bind at 1, lift at 1. rewrite Hoid.
        unfold bind at 1, gets at 1. by rewrite Hfind.
      * done.
  - split; [by right|]. eexists. split.
    + unfold Orders.create_order. unfold bind at 1, lift at 1. rewrite Hoid.
      unfold bind at 1, gets at 1. by rewrite Hfind.
    + done.
Qed.

Lemma wf_catalogue_db : wf_db catalogue_db.
Proof.
  unfold wf_db, ids_ok. apply (bool_decide_unpack _). by vm_compute.
Qed.

Lemma shown_plans_can_be_ordered_witness :
  match get_plan_by_id
          (Orders.plan_id_in (order_request "560034")) seeded_plans with
  | Ok out =>
      status out = "ACTIVE" /\
      exists o,
        fst (Orders.create_order 100 (order_request "560034") alice
               catalogue_db) = Ok o /\
        Orders.price o = price out
  | Raise e =>
      (InvalidInput e \/ NotFound e) /\
      exists e',
        Orders.create_order 100 (order_request "560034") alice catalogue_db =
          (Raise e', catalogue_db) /\
        InvalidInput e'
  end.
Proof.
  apply (shown_plans_can_be_ordered 100 (order_request "560034") alice
           catalogue_db seeded_plans).
  - exact wf_catalogue_db.
  - reflexivity.
Defined.

(** The withdrawn plan is not shown and cannot be ordered. *)
Example withdrawn_plan_not_shown :
  get_plan_by_id "000000000000000000000007" seeded_plans =
    Raise (HTTPException 404 "Plan not found") /\
  fst (Orders.create_order 100
         {| Orders.plan_id_in := "000000000000000000000007";
            Orders.address := []; Orders.pincode := "560034";
            Orders.preferred_slot := "morning" |} alice catalogue_db) =
    Raise (HTTPException 400 "Invalid plan_id").
Proof. by vm_compute. Qed.

End PlanMore.
